(** * GoldTarget: indicator engine and multi-factor filter engine

    A shallow embedding of [backend/data/stock_indicators.py]
    (class [TechnicalIndicators]) and [backend/models/stock_filter.py]
    (class [StockFilter]), the properties of them that the specification
    states, and further properties read off the code.

    Conventions.
    - A float64 is an exact rational extended with [+inf], [-inf] and
      [NaN]; the special values follow IEEE 754 (x/0, inf-inf, 0*inf, ...).
      The sign of zero is not represented.
    - The indicator engine computes in exact arithmetic: the rounding of
      pandas and numpy is not represented there, and what is proved of the
      engine is a formula in exact arithmetic or does not depend on the
      values.
    - The arithmetic inside a query of the filters is the float64
      arithmetic of SQLite: the exact result of each operation is rounded
      to the nearest float64, a tie to the even one ([round_float64]).
    - A pandas [Series] is the list of its values in index order; a
      [DataFrame] is a finite map from column names to series.
    - A Python exception is a value [Raised e] of the [outcome] type.
    - The SQLite store is two lists of rows; a SQL NULL is [None]. *)

From Stdlib Require Import QArith Qcanon.
From stdpp Require Import base numbers strings list gmap sorting pretty.

(** ** Floats *)

Module Float.

#[local] Open Scope Qc_scope.

Inductive float : Type :=
  | Fin (q : Qc)
  | PInf
  | NInf
  | NaN.

#[global] Instance float_eq_dec : EqDecision float.
Proof. solve_decision. Defined.

Definition of_Z (z : Z) : float := Fin (Qc_of_Z z).

(** [x == x] in Python: false for NaN only. *)
Definition is_obs (x : float) : bool :=
  match x with NaN => false | _ => true end.

Definition is_fin (x : float) : bool :=
  match x with Fin _ => true | _ => false end.

Definition fneg (x : float) : float :=
  match x with
  | Fin q => Fin (- q)
  | PInf => NInf
  | NInf => PInf
  | NaN => NaN
  end.

Definition fadd (x y : float) : float :=
  match x, y with
  | NaN, _ | _, NaN => NaN
  | Fin a, Fin b => Fin (a + b)
  | PInf, NInf | NInf, PInf => NaN
  | PInf, _ | _, PInf => PInf
  | NInf, _ | _, NInf => NInf
  end.

Definition fsub (x y : float) : float := fadd x (fneg y).

(** The infinity with the sign of [q]; [NaN] when [q] is zero. *)
Definition signed_inf (q : Qc) : float :=
  if decide (0 < q) then PInf else if decide (q < 0) then NInf else NaN.

Definition fmul (x y : float) : float :=
  match x, y with
  | NaN, _ | _, NaN => NaN
  | Fin a, Fin b => Fin (a * b)
  | Fin a, PInf | PInf, Fin a => signed_inf a
  | Fin a, NInf | NInf, Fin a => signed_inf (- a)
  | PInf, PInf | NInf, NInf => PInf
  | PInf, NInf | NInf, PInf => NInf
  end.

Definition fdiv (x y : float) : float :=
  match x, y with
  | NaN, _ | _, NaN => NaN
  | Fin a, Fin b => if decide (b = 0) then signed_inf a else Fin (a / b)
  | Fin _, PInf | Fin _, NInf => Fin 0
  | PInf, Fin b => if decide (b < 0) then NInf else PInf
  | NInf, Fin b => if decide (b < 0) then PInf else NInf
  | PInf, _ | NInf, _ => NaN
  end.

(** [x < y]; every comparison with NaN is false. *)
Definition flt (x y : float) : bool :=
  match x, y with
  | NaN, _ | _, NaN => false
  | Fin a, Fin b => bool_decide (a < b)
  | NInf, Fin _ | NInf, PInf | Fin _, PInf => true
  | _, _ => false
  end.

Definition fgt (x y : float) : bool := flt y x.

(** [x != y] in Python: true as soon as one side is NaN. *)
Definition fne (x y : float) : bool :=
  match x, y with
  | NaN, _ | _, NaN => true
  | _, _ => bool_decide (x ≠ y)
  end.

Definition fmin (x y : float) : float := if flt y x then y else x.
Definition fmax (x y : float) : float := if flt x y then y else x.

Definition fsum (xs : list float) : float := foldl fadd (Fin 0) xs.

(** *** Rounding to the nearest float64 (IEEE 754 roundTiesToEven) *)

(** [a / b] rounded to the nearest integer, a tie to the even one. *)
Definition round_half_even (a b : Z) : Z :=
  let q := (a `div` b)%Z in
  match (2 * (a `mod` b) ?= b)%Z with
  | Lt => q
  | Gt => (q + 1)%Z
  | Eq => if Z.even q then q else (q + 1)%Z
  end.

(** The fraction [n / d * 2^-e]. *)
Definition scaled (n d e : Z) : Z * Z :=
  if decide (0 ≤ e)%Z then (n, d * 2 ^ e)%Z else (n * 2 ^ (- e), d)%Z.

(** The exponent [e] with [2^e ≤ n / d < 2^(e+1)], for positive [n], [d]. *)
Definition binade (n d : Z) : Z :=
  let e := (Z.log2 n - Z.log2 d)%Z in
  let '(a, b) := scaled n d e in
  if decide (b ≤ a)%Z then e else (e - 1)%Z.

(** The number [m * 2^e]. *)
Definition times_pow2 (m e : Z) : Qc :=
  if decide (0 ≤ e)%Z then Qc_of_Z (m * 2 ^ e) else (Qc_of_Z m / Qc_of_Z (2 ^ (- e)))%Qc.

(** The float64 nearest to [q].  A float64 is [m * 2^e] with [|m| < 2^53]
    and [-1074 ≤ e]; the significand of a number of the binade [b] has the
    unit [2^(b-52)], that of a subnormal number [2^-1074]; what rounds to
    [2^1024] or beyond is an infinity. *)
Definition round_float64 (q : Qc) : float :=
  let n := Qnum q in
  let d := Zpos (Qden q) in
  if decide (n = 0)%Z then Fin 0
  else
    let e := Z.max (binade (Z.abs n) d - 52) (-1074) in
    let '(a, b) := scaled (Z.abs n) d e in
    let m := round_half_even a b in
    if decide (2 ^ 1024 ≤ m * 2 ^ e)%Z then (if decide (0 < n)%Z then PInf else NInf)
    else Fin (times_pow2 (Z.sgn n * m) e).

#[global] Arguments round_float64 : simpl never.

Definition fround (x : float) : float :=
  match x with
  | Fin q => round_float64 q
  | _ => x
  end.

(** The float64 operations: the exact result, rounded. *)
Definition fadd64 (x y : float) : float := fround (fadd x y).
Definition fsub64 (x y : float) : float := fround (fsub x y).
Definition fmul64 (x y : float) : float := fround (fmul x y).
Definition fdiv64 (x y : float) : float := fround (fdiv x y).

End Float.

Export Float.

(** ** Python exceptions *)

Inductive exn : Type :=
  | KeyError (key : string)
  | ValueError (msg : string)
  | ZeroDivisionError.

Inductive outcome (A : Type) : Type :=
  | Returned (a : A)
  | Raised (e : exn).

Arguments Returned {A} a.
Arguments Raised {A} e.

#[global] Instance outcome_ret : MRet outcome := λ A a, Returned a.

#[global] Instance outcome_bind : MBind outcome := λ A B f m,
  match m with
  | Returned a => f a
  | Raised e => Raised e
  end.

(** [for x in xs: acc = body(acc, x)], stopping at the first exception. *)
Fixpoint for_each {A S : Type} (xs : list A) (acc : S)
    (body : S → A → outcome S) : outcome S :=
  match xs with
  | [] => Returned acc
  | x :: rest => acc' ← body acc x; for_each rest acc' body
  end.

(** ** The pandas operations the engine calls *)

Module Pandas.

Abbreviation Series := (list float).
Abbreviation DataFrame := (gmap string (list float)).

(** [df[column]] *)
Definition get_column (df : DataFrame) (column : string) : outcome Series :=
  match df !! column with
  | Some s => Returned s
  | None => Raised (KeyError column)
  end.

(** [s.shift(1)] *)
Definition shift (s : Series) : Series := take (length s) (NaN :: s).

(** [s.diff()] *)
Definition diff (s : Series) : Series := zip_with fsub s (shift s).

(** The trailing window of at most [n] values that ends at position [i]. *)
Definition window {A : Type} (n i : nat) (s : list A) : list A :=
  drop (S i - n) (take (S i) s).

Definition observations (w : Series) : Series := filter (λ x, is_obs x = true) w.

(** One window of [rolling(window=n).mean()]: [min_periods] defaults to
    the window size, NaN values are skipped and counted out. *)
Definition window_mean (minp : nat) (w : Series) : float :=
  let obs := observations w in
  if decide (minp ≤ length obs ∧ 0 < length obs)
  then fdiv (fsum obs) (of_Z (Z.of_nat (length obs)))
  else NaN.

Definition window_min (minp : nat) (w : Series) : float :=
  match observations w with
  | x :: rest => if decide (minp ≤ S (length rest)) then foldl fmin x rest else NaN
  | [] => NaN
  end.

Definition window_max (minp : nat) (w : Series) : float :=
  match observations w with
  | x :: rest => if decide (minp ≤ S (length rest)) then foldl fmax x rest else NaN
  | [] => NaN
  end.

(** [rolling(window=n)] followed by an aggregation; pandas refuses a
    negative window. *)
Definition rolling (agg : nat → Series → float) (n : Z) (s : Series) : outcome Series :=
  if decide (n < 0)%Z
  then Raised (ValueError "window must be an integer 0 or greater")
  else Returned (imap (λ i _, agg (Z.to_nat n) (window (Z.to_nat n) i s)) s).

Definition rolling_mean : Z → Series → outcome Series := rolling window_mean.
Definition rolling_min : Z → Series → outcome Series := rolling window_min.
Definition rolling_max : Z → Series → outcome Series := rolling window_max.

(** The loop of [ewm(..., adjust=False).mean()] (ignore_na=False,
    min_periods=0): [weighted] is the running mean, [old_wt] the weight it
    carries; a NaN input keeps the mean and lets its weight decay. *)
Fixpoint ewm_loop (alpha : Qc) (weighted : float) (old_wt : Qc) (vals : Series) : Series :=
  match vals with
  | [] => []
  | cur :: rest =>
      let '(weighted', old_wt') :=
        if is_obs weighted then
          let old_wt1 := (old_wt * (1 - alpha))%Qc in
          if is_obs cur then
            (if fne weighted cur
             then fdiv (fadd (fmul (Fin old_wt1) weighted) (fmul (Fin alpha) cur))
                       (Fin (old_wt1 + alpha)%Qc)
             else weighted, 1%Qc)
          else (weighted, old_wt1)
        else if is_obs cur then (cur, old_wt)
        else (weighted, old_wt) in
      weighted' :: ewm_loop alpha weighted' old_wt' rest
  end.

Definition ewm_mean (alpha : Qc) (s : Series) : Series :=
  match s with
  | [] => []
  | v0 :: rest => v0 :: ewm_loop alpha v0 1%Qc rest
  end.

(** [s.ewm(span=span, adjust=False).mean()] *)
Definition ewm_span (span : Z) (s : Series) : outcome Series :=
  if decide (span < 1)%Z
  then Raised (ValueError "span must satisfy: span >= 1")
  else Returned (ewm_mean (2 / (Qc_of_Z span + 1))%Qc s).

(** [s.ewm(alpha=alpha, adjust=False).mean()] *)
Definition ewm_alpha (alpha : Qc) (s : Series) : outcome Series :=
  if decide (0 < alpha ∧ alpha ≤ 1)%Qc
  then Returned (ewm_mean alpha s)
  else Raised (ValueError "alpha must satisfy: 0 < alpha <= 1").

End Pandas.

Export Pandas.

(** ** [TechnicalIndicators]: the indicator engine *)

Module TechnicalIndicators.

(** [s.pct_change()]: gaps are padded with the last observation, then each
    value is divided by its predecessor. *)
Fixpoint ffill_from (last : float) (s : Series) : Series :=
  match s with
  | [] => []
  | x :: rest =>
      let x' := if is_obs x then x else last in
      x' :: ffill_from x' rest
  end.

Definition pct_change (s : Series) : Series :=
  let padded := ffill_from NaN s in
  fmap (λ r, fsub r (of_Z 1)) (zip_with fdiv padded (shift padded)).

(** [numpy.cumsum] *)
Fixpoint cumsum_from (acc : float) (s : Series) : Series :=
  match s with
  | [] => []
  | x :: rest => let acc' := fadd acc x in acc' :: cumsum_from acc' rest
  end.

Definition cumsum (s : Series) : Series := cumsum_from (Fin 0%Qc) s.

(** [x[x < 0] = 0] *)
Definition clip_negative (s : Series) : Series :=
  fmap (λ x, if flt x (of_Z 0) then of_Z 0 else x) s.

(** [100 - (100 / (1 + rs))] *)
Definition rsi_of_rs (rs : float) : float :=
  fsub (of_Z 100) (fdiv (of_Z 100) (fadd (of_Z 1) rs)).

(** The literal [1e-9]. *)
Definition epsilon : Qc := (1 / Qc_of_Z 1000000000)%Qc.

Section engine.

(** The square root on the non-negative rationals, which the sample
    standard deviation of the Bollinger bands needs. *)
Variable sqrt : Qc → Qc.

Definition fsqrt (x : float) : float :=
  match x with
  | Fin q => if decide (q < 0)%Qc then NaN else Fin (sqrt q)
  | PInf => PInf
  | NInf | NaN => NaN
  end.

(** One window of [rolling(window=n).std()] (ddof = 1). *)
Definition window_std (minp : nat) (w : Series) : float :=
  let obs := observations w in
  if decide (minp ≤ length obs ∧ 1 < length obs)
  then
    let mean := fdiv (fsum obs) (of_Z (Z.of_nat (length obs))) in
    let sq := fmap (λ x, fmul (fsub x mean) (fsub x mean)) obs in
    fsqrt (fdiv (fsum sq) (of_Z (Z.of_nat (length obs) - 1)))
  else NaN.

Definition rolling_std : Z → Series → outcome Series := rolling window_std.

Definition calculate_ma (df : DataFrame) (column : string) (periods : list Z)
    : outcome DataFrame :=
  for_each periods df (λ result period,
    col ← get_column result column;
    ma ← rolling_mean period col;
    mret (<["MA" +:+ pretty period := ma]> result)).

Definition calculate_ema (df : DataFrame) (column : string) (periods : list Z)
    : outcome DataFrame :=
  for_each periods df (λ result period,
    col ← get_column result column;
    ema ← ewm_span period col;
    mret (<["EMA" +:+ pretty period := ema]> result)).

Definition calculate_macd (df : DataFrame) (column : string) (fast slow signal : Z)
    : outcome DataFrame :=
  col ← get_column df column;
  ema_fast ← ewm_span fast col;
  ema_slow ← ewm_span slow col;
  let dif := zip_with fsub ema_fast ema_slow in
  let result := <["MACD_DIF" := dif]> df in
  dea ← ewm_span signal dif;
  let result := <["MACD_DEA" := dea]> result in
  let hist := fmap (fmul (of_Z 2)) (zip_with fsub dif dea) in
  mret (<["MACD_HIST" := hist]> result).

Definition calculate_rsi (df : DataFrame) (column : string) (periods : list Z)
    : outcome DataFrame :=
  col ← get_column df column;
  let delta := diff col in
  for_each periods df (λ result period,
    let up := clip_negative delta in
    let down := clip_negative (fmap fneg delta) in
    avg_up ← rolling_mean period up;
    avg_down ← rolling_mean period down;
    let rs := zip_with fdiv avg_up avg_down in
    mret (<["RSI" +:+ pretty period := fmap rsi_of_rs rs]> result)).

Definition calculate_kdj (df : DataFrame) (high_column low_column close_column : string)
    (n m1 m2 : Z) : outcome DataFrame :=
  low ← get_column df low_column;
  low_n ← rolling_min n low;
  let result := <["low_n" := low_n]> df in
  high ← get_column result high_column;
  high_n ← rolling_max n high;
  let result := <["high_n" := high_n]> result in
  close ← get_column result close_column;
  let num := fmap (fmul (of_Z 100)) (zip_with fsub close low_n) in
  let den := fmap (λ x, fadd x (Fin epsilon)) (zip_with fsub high_n low_n) in
  let rsv := zip_with fdiv num den in
  let result := <["RSV" := rsv]> result in
  alpha1 ← (if decide (m1 = 0)%Z then Raised ZeroDivisionError
            else Returned (1 / Qc_of_Z m1)%Qc);
  k ← ewm_alpha alpha1 rsv;
  let result := <["K" := k]> result in
  alpha2 ← (if decide (m2 = 0)%Z then Raised ZeroDivisionError
            else Returned (1 / Qc_of_Z m2)%Qc);
  d ← ewm_alpha alpha2 k;
  let result := <["D" := d]> result in
  let j := zip_with fsub (fmap (fmul (of_Z 3)) k) (fmap (fmul (of_Z 2)) d) in
  let result := <["J" := j]> result in
  mret (delete "RSV" (delete "high_n" (delete "low_n" result))).

Definition calculate_bollinger_bands (df : DataFrame) (column : string) (window : Z)
    (num_std : float) : outcome DataFrame :=
  col ← get_column df column;
  bb_ma ← rolling_mean window col;
  let result := <["BB_MA" := bb_ma]> df in
  col ← get_column result column;
  bb_std ← rolling_std window col;
  let result := <["BB_STD" := bb_std]> result in
  let spread := fmap (λ s, fmul s num_std) bb_std in
  let upper := zip_with fadd bb_ma spread in
  let lower := zip_with fsub bb_ma spread in
  let result := <["BB_Lower" := lower]> (<["BB_Upper" := upper]> result) in
  let width := zip_with fdiv (zip_with fsub upper lower) bb_ma in
  mret (<["BB_Width" := width]> result).

(** One step of the OBV: the signed volume of the day. *)
Definition obv_step (price prev volume : float) : float :=
  if fgt price prev then volume
  else if flt price prev then fneg volume
  else of_Z 0.

Definition calculate_volume_indicators (df : DataFrame) (volume_column price_column : string)
    : outcome DataFrame :=
  vol ← get_column df volume_column;
  ma5 ← rolling_mean 5 vol;
  let result := <["Volume_MA5" := ma5]> df in
  vol ← get_column result volume_column;
  ma10 ← rolling_mean 10 vol;
  let result := <["Volume_MA10" := ma10]> result in
  vol ← get_column result volume_column;
  let result := <["Volume_Change" := fmap (λ x, fmul x (of_Z 100)) (pct_change vol)]> result in
  price ← get_column result price_column;
  vol ← get_column result volume_column;
  let steps := zip_with (λ pp v, obv_step pp.1 pp.2 v) (zip price (shift price)) vol in
  mret (<["OBV" := cumsum steps]> result).

Definition required_columns : list string := ["open"; "high"; "low"; "close"; "volume"].

(** [for col in required_columns: if col not in result.columns: ...]:
    the first required column that the frame lacks, if any. *)
Fixpoint first_missing (cols : list string) (df : DataFrame) : option string :=
  match cols with
  | [] => None
  | col :: rest =>
      match df !! col with
      | None => Some col
      | Some _ => first_missing rest df
      end
  end.

(** A missing required column is logged and the input is handed back. *)
Definition calculate_all_indicators (df : DataFrame) : outcome DataFrame :=
  match first_missing required_columns df with
  | Some _ => Returned df
  | None =>
      result ← calculate_ma df "close" [5; 10; 20; 60]%Z;
      result ← calculate_ema result "close" [5; 10; 20; 60]%Z;
      result ← calculate_macd result "close" 12 26 9;
      result ← calculate_rsi result "close" [6; 12; 24]%Z;
      result ← calculate_kdj result "high" "low" "close" 9 3 3;
      result ← calculate_bollinger_bands result "close" 20 (of_Z 2);
      calculate_volume_indicators result "volume" "close"
  end.

End engine.

End TechnicalIndicators.

(** ** The SQLite store read by the filters *)

Module Store.

(** A row of [daily_data]; the REAL columns may be NULL. *)
Record DailyRow : Type := {
  d_code : string;
  d_date : string;
  d_open : option Qc;
  d_high : option Qc;
  d_low : option Qc;
  d_close : option Qc;
  d_volume : option Qc;
  d_amount : option Qc;
  d_pct_change : option Qc;
  d_turnover : option Qc
}.

(** A row of [technical_indicators]. *)
Record IndicatorRow : Type := {
  t_code : string;
  t_date : string;
  t_ma5 : option Qc;
  t_ma10 : option Qc;
  t_ma20 : option Qc;
  t_ma60 : option Qc;
  t_macd_dif : option Qc;
  t_macd_dea : option Qc;
  t_macd_hist : option Qc;
  t_rsi6 : option Qc;
  t_rsi12 : option Qc;
  t_rsi24 : option Qc;
  t_k : option Qc;
  t_d : option Qc;
  t_j : option Qc;
  t_bb_upper : option Qc;
  t_bb_middle : option Qc;
  t_bb_lower : option Qc
}.

Record Database : Type := {
  daily_data : list DailyRow;
  technical_indicators : list IndicatorRow
}.

(** SQL comparisons and connectives: NULL in, NULL out. *)
Definition sql_lt (x y : option Qc) : option bool :=
  a ← x; b ← y; Some (bool_decide (a < b)%Qc).

Definition sql_gt (x y : option Qc) : option bool := sql_lt y x.

Definition sql_and (p q : option bool) : option bool :=
  match p, q with
  | Some false, _ | _, Some false => Some false
  | Some true, Some true => Some true
  | _, _ => None
  end.

(** The REAL that a query reads from a column or is handed as a
    parameter: the float64 nearest to the number written. *)
Definition sql_real (x : option Qc) : option float := round_float64 <$> x.

(** The result of an operation on REALs: SQLite turns NaN into NULL. *)
Definition sql_result (x : float) : option float :=
  if is_obs x then Some x else None.

(** [x + y], [x - y] and [x * y] on REALs, in float64. *)
Definition sql_add (x y : option float) : option float :=
  a ← x; b ← y; sql_result (fadd64 a b).

Definition sql_sub (x y : option float) : option float :=
  a ← x; b ← y; sql_result (fsub64 a b).

Definition sql_mul (x y : option float) : option float :=
  a ← x; b ← y; sql_result (fmul64 a b).

(** [x < y] and [x > y] on REALs. *)
Definition sql_real_lt (x y : option float) : option bool :=
  a ← x; b ← y; Some (flt a b).

Definition sql_real_gt (x y : option float) : option bool := sql_real_lt y x.

(** Text columns are NOT NULL, so their equality is two-valued. *)
Definition sql_text_eq (x y : string) : option bool := Some (bool_decide (x = y)).

(** A row is kept when its WHERE clause is true (not false, not NULL). *)
Definition emit (cond : option bool) (code : string) : list string :=
  match cond with
  | Some true => [code]
  | _ => []
  end.

Infix "&&&" := sql_and (at level 40, left associativity).

(** The text order of SQLite (bytewise), descending. *)
Definition date_ge (a b : string) : Prop := String.leb b a = true.

#[global] Instance date_ge_dec : RelDecision date_ge.
Proof. intros a b. unfold date_ge. apply _. Defined.

(** [SELECT DISTINCT date FROM ... ORDER BY date DESC LIMIT 2], given the
    date column of the table. *)
Definition latest_two_dates (dates : list string) : list string :=
  take 2 (merge_sort date_ge (remove_dups dates)).

(** [AVG(column)]: NULLs are skipped; NULL when nothing is left.  The mean
    is the exact one: the order in which SQLite adds up the values of a
    window frame is not fixed by the query. *)
Definition sql_avg (vals : list (option Qc)) : option Qc :=
  let present := omap id vals in
  match present with
  | [] => None
  | _ => Some (foldl Qcplus 0%Qc present / Qc_of_Z (Z.of_nat (length present)))%Qc
  end.

End Store.

Export Store.

(** ** [StockFilter]: the predicate evaluators and the combinator *)

Module StockFilter.

(** A number handed over by Python: SQLite binds an [int] as INTEGER and a
    [float] as REAL. *)
Inductive pynum : Type :=
  | PyInt (z : Z)
  | PyFloat (q : Qc).

(** [int(x)]: truncation towards zero. *)
Definition py_int (x : pynum) : Z :=
  match x with
  | PyInt z => z
  | PyFloat q => Z.quot (Qnum q) (Zpos (Qden q))
  end.

Definition py_le_zero (x : pynum) : bool :=
  match x with
  | PyInt z => bool_decide (z ≤ 0)%Z
  | PyFloat q => bool_decide (q ≤ 0)%Qc
  end.

(** A number inside a query: an INTEGER or a REAL. *)
Inductive sql_number : Type :=
  | Integer (z : Z)
  | Real (x : option float).

(** The SQL expression [?/100]: the division of two INTEGERs is the
    integer division, truncated towards zero; a REAL is divided by 100.0
    in float64. *)
Definition sql_div_100 (x : pynum) : sql_number :=
  match x with
  | PyInt z => Integer (Z.quot z 100)
  | PyFloat q => Real (a ← sql_real (Some q); sql_result (fdiv64 a (of_Z 100)))
  end.

(** [1 + x] and [1 - x]: an INTEGER for an INTEGER, a float64 sum for a
    REAL. *)
Definition sql_one_plus (x : sql_number) : sql_number :=
  match x with
  | Integer k => Integer (1 + k)
  | Real r => Real (sql_add (Some (of_Z 1)) r)
  end.

Definition sql_one_minus (x : sql_number) : sql_number :=
  match x with
  | Integer k => Integer (1 - k)
  | Real r => Real (sql_sub (Some (of_Z 1)) r)
  end.

(** An INTEGER that meets a REAL in an operation is turned into the
    nearest float64 first. *)
Definition sql_to_real (x : sql_number) : option float :=
  match x with
  | Integer k => Some (round_float64 (Qc_of_Z k))
  | Real r => r
  end.

(** The REAL columns of [daily_data] that can stand for the price. *)
Inductive price_column : Type :=
  | Open | High | Low | Close | Volume | Amount | PctChange | Turnover.

Definition daily_value (col : price_column) (d : DailyRow) : option Qc :=
  match col with
  | Open => d_open d
  | High => d_high d
  | Low => d_low d
  | Close => d_close d
  | Volume => d_volume d
  | Amount => d_amount d
  | PctChange => d_pct_change d
  | Turnover => d_turnover d
  end.

(** The column [f'ma{period}'] of [technical_indicators]; there is none for
    a period outside 5, 10, 20, 60, and SQLite then rejects the query. *)
Definition ma_column (period : Z) : option (IndicatorRow → option Qc) :=
  if decide (period = 5)%Z then Some t_ma5
  else if decide (period = 10)%Z then Some t_ma10
  else if decide (period = 20)%Z then Some t_ma20
  else if decide (period = 60)%Z then Some t_ma60
  else None.

(** [SELECT MAX(date) FROM ...] *)
Definition max_date (dates : list string) : option string :=
  head (merge_sort date_ge dates).

(** [[row[0] for row in result] if result else []], where [db.execute]
    answers None when SQLite rejects the query. *)
Definition stock_codes (result : option (list string)) : list string :=
  default [] result.

Definition filter_by_ma (db : Database) (period : Z) (relation : string)
    (price : price_column) : list string :=
  if decide (relation = "above" ∨ relation = "below") then
    stock_codes (
      ma ← ma_column period;
      Some (remove_dups (
        d ← daily_data db; t ← technical_indicators db;
        emit (sql_text_eq (d_code d) (t_code t) &&& sql_text_eq (d_date d) (t_date t)
              &&& (latest_date ← max_date (d_date <$> daily_data db);
                   sql_text_eq (d_date d) latest_date)
              &&& (if decide (relation = "above")
                   then sql_gt (daily_value price d) (ma t)
                   else sql_lt (daily_value price d) (ma t)))
             (d_code d))))
  else if decide (relation = "cross_above" ∨ relation = "cross_below") then
    match latest_two_dates (d_date <$> daily_data db) with
    | latest_date :: prev_date :: _ =>
        stock_codes (
          ma ← ma_column period;
          Some (remove_dups (
            d1 ← daily_data db; t1 ← technical_indicators db;
            d2 ← daily_data db; t2 ← technical_indicators db;
            emit (sql_text_eq (d_code d1) (t_code t1) &&& sql_text_eq (d_date d1) (t_date t1)
                  &&& sql_text_eq (d_code d1) (d_code d2) &&& sql_text_eq (d_date d2) prev_date
                  &&& sql_text_eq (d_code d2) (t_code t2) &&& sql_text_eq (d_date d2) (t_date t2)
                  &&& sql_text_eq (d_date d1) latest_date
                  &&& (if decide (relation = "cross_above")
                       then sql_lt (daily_value price d2) (ma t2)
                            &&& sql_gt (daily_value price d1) (ma t1)
                       else sql_gt (daily_value price d2) (ma t2)
                            &&& sql_lt (daily_value price d1) (ma t1)))
                 (d_code d1))))
    | _ => []
    end
  else [].

(** The self-join of [technical_indicators] on the latest and the previous
    date that the MACD, KDJ and squeeze queries share. *)
Definition select_pairs (db : Database) (latest_date prev_date : string)
    (cond : IndicatorRow → IndicatorRow → option bool) : list string :=
  remove_dups (
    t1 ← technical_indicators db; t2 ← technical_indicators db;
    emit (sql_text_eq (t_code t1) (t_code t2)
          &&& sql_text_eq (t_date t1) latest_date &&& sql_text_eq (t_date t2) prev_date
          &&& cond t1 t2)
         (t_code t1)).

(** [SELECT DISTINCT code FROM technical_indicators WHERE date = ? AND ...] *)
Definition select_latest (db : Database) (latest_date : string)
    (cond : IndicatorRow → option bool) : list string :=
  remove_dups (
    t ← technical_indicators db;
    emit (sql_text_eq (t_date t) latest_date &&& cond t) (t_code t)).

Definition filter_by_macd (db : Database) (condition : string) : list string :=
  match latest_two_dates (t_date <$> technical_indicators db) with
  | latest_date :: prev_date :: _ =>
      if decide (condition = "golden_cross") then
        select_pairs db latest_date prev_date (λ t1 t2,
          sql_lt (t_macd_dif t2) (t_macd_dea t2) &&& sql_gt (t_macd_dif t1) (t_macd_dea t1))
      else if decide (condition = "dead_cross") then
        select_pairs db latest_date prev_date (λ t1 t2,
          sql_gt (t_macd_dif t2) (t_macd_dea t2) &&& sql_lt (t_macd_dif t1) (t_macd_dea t1))
      else if decide (condition = "positive") then
        select_latest db latest_date (λ t,
          sql_gt (t_macd_dif t) (Some 0%Qc) &&& sql_gt (t_macd_hist t) (Some 0%Qc))
      else if decide (condition = "negative") then
        select_latest db latest_date (λ t,
          sql_lt (t_macd_dif t) (Some 0%Qc) &&& sql_lt (t_macd_hist t) (Some 0%Qc))
      else []
  | _ => []
  end.

Definition filter_by_kdj (db : Database) (condition : string) : list string :=
  match latest_two_dates (t_date <$> technical_indicators db) with
  | latest_date :: prev_date :: _ =>
      if decide (condition = "golden_cross") then
        select_pairs db latest_date prev_date (λ t1 t2,
          sql_lt (t_k t2) (t_d t2) &&& sql_gt (t_k t1) (t_d t1))
      else if decide (condition = "dead_cross") then
        select_pairs db latest_date prev_date (λ t1 t2,
          sql_gt (t_k t2) (t_d t2) &&& sql_lt (t_k t1) (t_d t1))
      else if decide (condition = "oversold") then
        select_latest db latest_date (λ t,
          sql_lt (t_k t) (Some (Qc_of_Z 20)) &&& sql_lt (t_d t) (Some (Qc_of_Z 20)))
      else if decide (condition = "overbought") then
        select_latest db latest_date (λ t,
          sql_gt (t_k t) (Some (Qc_of_Z 80)) &&& sql_gt (t_d t) (Some (Qc_of_Z 80)))
      else []
  | _ => []
  end.

Definition row_date_le (a b : DailyRow) : Prop := date_ge (d_date b) (d_date a).

#[global] Instance row_date_le_dec : RelDecision row_date_le.
Proof. intros a b. unfold row_date_le. apply _. Defined.

(** The frame [ROWS BETWEEN n-1 PRECEDING AND CURRENT ROW] of row [r] in
    its partition by code, ordered by date: the volumes of the last [n]
    rows of the symbol up to the date of [r]. *)
Definition volume_frame (rows : list DailyRow) (r : DailyRow) (n : nat) : list (option Qc) :=
  let partition := merge_sort row_date_le (filter (λ x, d_code x = d_code r) rows) in
  let upto := filter (λ x, row_date_le x r) partition in
  d_volume <$> drop (length upto - n) upto.

Definition filter_by_volume (db : Database) (condition : string) (threshold : option pynum)
    : list string :=
  match latest_two_dates (d_date <$> daily_data db) with
  | latest_date :: prev_date :: _ =>
      if decide (condition = "increase" ∨ condition = "decrease") then
        let threshold := default (PyInt 20) threshold in
        remove_dups (
          d1 ← daily_data db; d2 ← daily_data db;
          emit (sql_text_eq (d_code d1) (d_code d2)
                &&& sql_text_eq (d_date d1) latest_date &&& sql_text_eq (d_date d2) prev_date
                &&& (if decide (condition = "increase")
                     then sql_real_gt (sql_real (d_volume d1))
                            (sql_mul (sql_real (d_volume d2))
                                     (sql_to_real (sql_one_plus (sql_div_100 threshold))))
                     else sql_real_lt (sql_real (d_volume d1))
                            (sql_mul (sql_real (d_volume d2))
                                     (sql_to_real (sql_one_minus (sql_div_100 threshold))))))
               (d_code d1))
      else if decide (condition = "above_ma" ∨ condition = "below_ma") then
        let threshold :=
          match threshold with
          | None => PyInt 5
          | Some t => if py_le_zero t then PyInt 5 else t
          end in
        let preceding := (py_int threshold - 1)%Z in
        stock_codes (
          if decide (preceding < 0)%Z then None
          else Some (remove_dups (
            r ← daily_data db;
            let avg_volume := sql_avg (volume_frame (daily_data db) r (S (Z.to_nat preceding))) in
            emit (sql_text_eq (d_date r) latest_date
                  &&& (if decide (condition = "above_ma")
                       then sql_gt (d_volume r) avg_volume
                       else sql_lt (d_volume r) avg_volume))
                 (d_code r))))
      else []
  | _ => []
  end.

(** The join of the indicator rows of the two dates with their bars, shared
    by the four band-crossing queries. *)
Definition select_quads (db : Database) (latest_date prev_date : string)
    (cond : IndicatorRow → IndicatorRow → DailyRow → DailyRow → option bool) : list string :=
  remove_dups (
    t1 ← technical_indicators db; t2 ← technical_indicators db;
    d1 ← daily_data db; d2 ← daily_data db;
    emit (sql_text_eq (t_code t1) (t_code t2)
          &&& sql_text_eq (t_code t1) (d_code d1) &&& sql_text_eq (t_date t1) (d_date d1)
          &&& sql_text_eq (t_code t2) (d_code d2) &&& sql_text_eq (t_date t2) (d_date d2)
          &&& sql_text_eq (t_date t1) latest_date &&& sql_text_eq (t_date t2) prev_date
          &&& cond t1 t2 d1 d2)
         (t_code t1)).

(** The literal [0.9]: the float64 nearest to 9/10. *)
Definition squeeze_ratio : float := round_float64 (Qc_of_Z 9 / Qc_of_Z 10)%Qc.

(** [(t1.bb_upper - t1.bb_lower) < (t2.bb_upper - t2.bb_lower) * 0.9] *)
Definition squeeze_cond (t1 t2 : IndicatorRow) : option bool :=
  sql_real_lt (sql_sub (sql_real (t_bb_upper t1)) (sql_real (t_bb_lower t1)))
              (sql_mul (sql_sub (sql_real (t_bb_upper t2)) (sql_real (t_bb_lower t2)))
                       (Some squeeze_ratio)).

Definition filter_by_bollinger_bands (db : Database) (condition : string) : list string :=
  match latest_two_dates (t_date <$> technical_indicators db) with
  | latest_date :: prev_date :: _ =>
      if decide (condition = "upper_break") then
        select_quads db latest_date prev_date (λ t1 t2 d1 d2,
          sql_lt (d_close d2) (t_bb_upper t2) &&& sql_gt (d_close d1) (t_bb_upper t1))
      else if decide (condition = "lower_break") then
        select_quads db latest_date prev_date (λ t1 t2 d1 d2,
          sql_gt (d_close d2) (t_bb_lower t2) &&& sql_lt (d_close d1) (t_bb_lower t1))
      else if decide (condition = "middle_cross_above") then
        select_quads db latest_date prev_date (λ t1 t2 d1 d2,
          sql_lt (d_close d2) (t_bb_middle t2) &&& sql_gt (d_close d1) (t_bb_middle t1))
      else if decide (condition = "middle_cross_below") then
        select_quads db latest_date prev_date (λ t1 t2 d1 d2,
          sql_gt (d_close d2) (t_bb_middle t2) &&& sql_lt (d_close d1) (t_bb_middle t1))
      else if decide (condition = "squeeze") then
        select_pairs db latest_date prev_date squeeze_cond
      else []
  | _ => []
  end.

(** [combine_filters]: a Python [set] is a [gset]; [list(result)] lists its
    elements in an order that callers must not rely on. *)
Definition combine_filters (filter_results : list (list string)) (logic : string)
    : list string :=
  match filter_results with
  | [] => []
  | [only] => only
  | first :: rest =>
      if decide (logic = "and") then
        elements (foldl (λ (result : gset string) codes, result ∩ list_to_set codes)
                        (list_to_set first) rest)
      else
        elements (foldl (λ (result : gset string) codes, result ∪ list_to_set codes)
                        ∅ filter_results)
  end.

End StockFilter.

Import TechnicalIndicators StockFilter.

(** ** The rest of [StockFilter]: price and RSI ranges, the configuration
    driver and the details of a result *)

Module FilterPipeline.

Definition sql_le (x y : option Qc) : option bool :=
  a ← x; b ← y; Some (bool_decide (a ≤ b)%Qc).

Definition sql_ge (x y : option Qc) : option bool := sql_le y x.

(** [" AND column >= ?"] is appended only for a bound that is not None. *)
Definition lower_bound (bound : option Qc) (x : option Qc) : option bool :=
  match bound with
  | Some b => sql_ge x (Some b)
  | None => Some true
  end.

Definition upper_bound (bound : option Qc) (x : option Qc) : option bool :=
  match bound with
  | Some b => sql_le x (Some b)
  | None => Some true
  end.

(** [date = (SELECT MAX(date) FROM ...)]: NULL on an empty table. *)
Definition on_latest_date (dates : list string) (date : string) : option bool :=
  latest_date ← max_date dates; sql_text_eq date latest_date.

Definition filter_by_price (db : Database) (min_price max_price : option Qc) : list string :=
  stock_codes (Some (remove_dups (
    d ← daily_data db;
    emit (on_latest_date (d_date <$> daily_data db) (d_date d)
          &&& lower_bound min_price (d_close d) &&& upper_bound max_price (d_close d))
         (d_code d)))).

(** The column [f'rsi{period}'] of [technical_indicators]: it exists for the
    periods 6, 12 and 24 only. *)
Definition rsi_column (period : Z) : option (IndicatorRow → option Qc) :=
  if decide (period = 6)%Z then Some t_rsi6
  else if decide (period = 12)%Z then Some t_rsi12
  else if decide (period = 24)%Z then Some t_rsi24
  else None.

(** The query names the RSI column only when a bound is given; without
    any bound it is valid for every period. *)
Definition filter_by_rsi (db : Database) (period : Z) (min_value max_value : option Qc)
    : list string :=
  stock_codes (
    rsi ← (match min_value, max_value with
           | None, None => Some (λ _ : IndicatorRow, None)
           | _, _ => rsi_column period
           end);
    Some (remove_dups (
      t ← technical_indicators db;
      emit (on_latest_date (t_date <$> technical_indicators db) (t_date t)
            &&& lower_bound min_value (rsi t) &&& upper_bound max_value (rsi t))
           (t_code t)))).

(** The sections of a filter configuration; a key that the dictionary
    lacks is None, and so is a key that [.get] does not find. *)
Record PriceConfig : Type := { price_min : option Qc; price_max : option Qc }.
Record MaConfig : Type := { ma_period : option Z; ma_relation : option string }.
Record RsiConfig : Type := {
  rsi_period : option Z; rsi_min : option Qc; rsi_max : option Qc }.
Record ConditionConfig : Type := { condition : option string }.
Record VolumeConfig : Type := {
  volume_condition : option string; volume_threshold : option pynum }.

Record FilterConfig : Type := {
  cfg_price : option PriceConfig;
  cfg_ma : option MaConfig;
  cfg_rsi : option RsiConfig;
  cfg_macd : option ConditionConfig;
  cfg_kdj : option ConditionConfig;
  cfg_volume : option VolumeConfig;
  cfg_bollinger : option ConditionConfig;
  cfg_logic : option string
}.

(** The results that [apply_filters] collects, in the order of the code. *)
Definition collect_filters (db : Database) (cfg : FilterConfig) : list (list string) :=
  (match cfg_price cfg with
   | Some price =>
       match price_min price, price_max price with
       | None, None => []
       | lowest, highest => [filter_by_price db lowest highest]
       end
   | None => []
   end) ++
  (match cfg_ma cfg with
   | Some ma =>
       [filter_by_ma db (default 20%Z (ma_period ma)) (default "above" (ma_relation ma)) Close]
   | None => []
   end) ++
  (match cfg_rsi cfg with
   | Some rsi =>
       match rsi_min rsi, rsi_max rsi with
       | None, None => []
       | lowest, highest => [filter_by_rsi db (default 14%Z (rsi_period rsi)) lowest highest]
       end
   | None => []
   end) ++
  (match cfg_macd cfg with
   | Some macd => [filter_by_macd db (default "golden_cross" (condition macd))]
   | None => []
   end) ++
  (match cfg_kdj cfg with
   | Some kdj => [filter_by_kdj db (default "golden_cross" (condition kdj))]
   | None => []
   end) ++
  (match cfg_volume cfg with
   | Some volume =>
       [filter_by_volume db (default "increase" (volume_condition volume))
                         (volume_threshold volume)]
   | None => []
   end) ++
  (match cfg_bollinger cfg with
   | Some bollinger =>
       [filter_by_bollinger_bands db (default "upper_break" (condition bollinger))]
   | None => []
   end).

Definition apply_filters (db : Database) (cfg : FilterConfig) : list string :=
  combine_filters (collect_filters db cfg) (default "and" (cfg_logic cfg)).

(** A row of the [stocks] table, as far as the details read it. *)
Record StockRow : Type := {
  s_code : string;
  s_name : string;
  s_industry : option string
}.

(** A row of the details of a result. *)
Record DetailRow : Type := {
  r_code : string;
  r_name : string;
  r_industry : option string;
  r_date : string;
  r_open : option Qc;
  r_high : option Qc;
  r_low : option Qc;
  r_close : option Qc;
  r_volume : option Qc;
  r_pct_change : option Qc;
  r_ma5 : option Qc;
  r_ma10 : option Qc;
  r_ma20 : option Qc;
  r_rsi6 : option Qc;
  r_rsi12 : option Qc;
  r_rsi24 : option Qc
}.

Definition detail_row (s : StockRow) (d : DailyRow) (t : IndicatorRow) : DetailRow := {|
  r_code := s_code s; r_name := s_name s; r_industry := s_industry s;
  r_date := d_date d; r_open := d_open d; r_high := d_high d; r_low := d_low d;
  r_close := d_close d; r_volume := d_volume d; r_pct_change := d_pct_change d;
  r_ma5 := t_ma5 t; r_ma10 := t_ma10 t; r_ma20 := t_ma20 t;
  r_rsi6 := t_rsi6 t; r_rsi12 := t_rsi12 t; r_rsi24 := t_rsi24 t
|}.

(** [ORDER BY pct_change DESC]: SQLite puts NULL below every number. *)
Definition pct_change_ge (a b : DetailRow) : Prop :=
  match r_pct_change a, r_pct_change b with
  | _, None => True
  | None, Some _ => False
  | Some x, Some y => (y ≤ x)%Qc
  end.

#[global] Instance pct_change_ge_dec : RelDecision pct_change_ge.
Proof.
  intros a b. unfold pct_change_ge.
  destruct (r_pct_change a), (r_pct_change b); apply _.
Defined.

Section details.

(** The most host parameters SQLite accepts in one statement. *)
Variable max_variables : nat.

(** [stocks] is the table of that name of the same database.  The IN list
    takes one parameter for each code and the date one more; a statement
    with too many of them is rejected, and the details are then empty. *)
Definition get_filter_result_details (stocks : list StockRow) (db : Database)
    (stock_codes : list string) : list DetailRow :=
  match stock_codes with
  | [] => []
  | _ =>
      let latest_date := max_date (d_date <$> daily_data db) in
      if decide (max_variables < S (length stock_codes)) then []
      else
        merge_sort pct_change_ge (
          s ← stocks; d ← daily_data db; t ← technical_indicators db;
          match sql_text_eq (s_code s) (d_code d)
                &&& sql_text_eq (d_code d) (t_code t) &&& sql_text_eq (d_date d) (t_date t)
                &&& Some (bool_decide (s_code s ∈ stock_codes))
                &&& (latest ← latest_date; sql_text_eq (d_date d) latest) with
          | Some true => [detail_row s d t]
          | _ => []
          end)
  end.

End details.

End FilterPipeline.

Import FilterPipeline.

(** ** The vocabulary of the claims *)

(** The number of distinct dates of a table, given its date column. *)
Definition distinct_dates (dates : list string) : nat := length (remove_dups dates).

(** The conditions each evaluator recognises, as its docstring lists them. *)
Definition ma_relations : list string := ["above"; "below"; "cross_above"; "cross_below"].
Definition macd_conditions : list string := ["golden_cross"; "dead_cross"; "positive"; "negative"].
Definition kdj_conditions : list string := ["golden_cross"; "dead_cross"; "oversold"; "overbought"].
Definition bollinger_conditions : list string :=
  ["upper_break"; "lower_break"; "middle_cross_above"; "middle_cross_below"; "squeeze"].

(** The combinator as the specification words it: AND is the intersection
    of all the inputs, OR their union, and no input gives the empty set. *)
Fixpoint intersection_all (sets : list (gset string)) : gset string :=
  match sets with
  | [] => ∅
  | [only] => only
  | first :: rest => first ∩ intersection_all rest
  end.

Definition combine_reference (sets : list (gset string)) (logic : string) : gset string :=
  if decide (logic = "and") then intersection_all sets else ⋃ sets.

(** The symbols of a result, as a set. *)
Definition symbols (codes : list string) : gset string := list_to_set codes.




(** The bounds of the "increase" and the "decrease" query for a REAL
    threshold [t], as SQLite computes them: yesterday's volume times
    [1 + t/100], or [1 - t/100], each of the three steps in float64. *)
Definition increase_bound (v_yesterday t : Qc) : float :=
  fmul64 (round_float64 v_yesterday)
         (fadd64 (of_Z 1) (fdiv64 (round_float64 t) (of_Z 100))).

Definition decrease_bound (v_yesterday t : Qc) : float :=
  fmul64 (round_float64 v_yesterday)
         (fsub64 (of_Z 1) (fdiv64 (round_float64 t) (of_Z 100))).


(** The EMA as the specification words it: the smoothing factor is
    2/(n+1), the seed is the first close, and each later value is
    [alpha * close + (1 - alpha) * previous]. *)
Definition smoothing_factor (n : Z) : Qc := (2 / (Qc_of_Z n + 1))%Qc.

Fixpoint ema_reference_from (alpha previous : Qc) (closes : list Qc) : list Qc :=
  match closes with
  | [] => []
  | close :: rest =>
      let ema := (alpha * close + (1 - alpha) * previous)%Qc in
      ema :: ema_reference_from alpha ema rest
  end.

Definition ema_reference (n : Z) (closes : list Qc) : list Qc :=
  match closes with
  | [] => []
  | seed :: rest => seed :: ema_reference_from (smoothing_factor n) seed rest
  end.

(** The two windowed averages of [calculate_rsi] for one period. *)
Definition rsi_avg_up (n : Z) (s : Series) : outcome Series :=
  rolling_mean n (clip_negative (diff s)).

Definition rsi_avg_down (n : Z) (s : Series) : outcome Series :=
  rolling_mean n (clip_negative (fmap fneg (diff s))).

(** Every close is above the one before it. *)
Definition strictly_increasing (closes : list Qc) : Prop :=
  ∀ i a b, closes !! i = Some a → closes !! S i = Some b → (a < b)%Qc.

(** A series without a single value. *)
Definition undefined_everywhere (s : Series) : Prop := Forall (λ x, x = NaN) s.

(** A float that is a finite, positive number. *)
Definition finite_positive (x : float) : Prop := ∃ q, x = Fin q ∧ (0 < q)%Qc.

(** ** Sample inputs *)

(** Eight closes, each one above the previous. *)
Definition rising_closes : list Qc := Qc_of_Z <$> [10; 11; 12; 13; 14; 15; 16; 17]%Z.

Definition rising_bars : DataFrame := {[ "close" := Fin <$> rising_closes ]}.

(** Seven equal closes: no up move and no down move at all. *)
Definition flat_bars : DataFrame := {[ "close" := replicate 7 (of_Z 5) ]}.

(** The closes 10, 11, ..., 30 of the MA(20) scenario of the specification. *)
Definition scenario_closes : Series := of_Z <$> seqZ 10 21.

(** A single bar. *)
Definition single_bar : DataFrame := {[ "close" := [of_Z 10] ]}.

(** An indicator row that only carries Bollinger bands. *)
Definition band_row (code date : string) (upper middle lower : Qc) : IndicatorRow := {|
  t_code := code; t_date := date;
  t_ma5 := None; t_ma10 := None; t_ma20 := None; t_ma60 := None;
  t_macd_dif := None; t_macd_dea := None; t_macd_hist := None;
  t_rsi6 := None; t_rsi12 := None; t_rsi24 := None;
  t_k := None; t_d := None; t_j := None;
  t_bb_upper := Some upper; t_bb_middle := Some middle; t_bb_lower := Some lower
|}.

(** A bar that only carries a volume. *)
Definition volume_row (code date : string) (volume : Qc) : DailyRow := {|
  d_code := code; d_date := date;
  d_open := None; d_high := None; d_low := None; d_close := None;
  d_volume := Some volume; d_amount := None; d_pct_change := None; d_turnover := None
|}.


(** One symbol whose price fell from 100 to 10 while its band went from
    98..102 to 9..11: narrower in absolute terms, wider relative to the
    middle band. *)
Definition falling_yesterday : IndicatorRow :=
  band_row "600000" "2024-01-01" (Qc_of_Z 102) (Qc_of_Z 100) (Qc_of_Z 98).

Definition falling_today : IndicatorRow :=
  band_row "600000" "2024-01-02" (Qc_of_Z 11) (Qc_of_Z 10) (Qc_of_Z 9).

Definition falling_price_store : Database := {|
  daily_data := [];
  technical_indicators := [falling_yesterday; falling_today]
|}.

(** One symbol over two days, with yesterday's and today's volume. *)
Definition volume_change_store (yesterday today : Qc) : Database := {|
  daily_data := [
    volume_row "600000" "2024-01-01" yesterday;
    volume_row "600000" "2024-01-02" today ];
  technical_indicators := []
|}.

(** One symbol over two days: yesterday's volume is 100, today's is [today]. *)
Definition volume_store (today : Qc) : Database := {|
  daily_data := [
    volume_row "600000" "2024-01-01" (Qc_of_Z 100);
    volume_row "600000" "2024-01-02" today ];
  technical_indicators := []
|}.

(** A store whose two tables hold a single date. *)
Definition one_day_store : Database := {|
  daily_data := [
    {| d_code := "600000"; d_date := "2024-01-02"; d_open := Some (Qc_of_Z 10);
       d_high := Some (Qc_of_Z 12); d_low := Some (Qc_of_Z 9); d_close := Some (Qc_of_Z 11);
       d_volume := Some (Qc_of_Z 1000); d_amount := None; d_pct_change := None;
       d_turnover := None |} ];
  technical_indicators := [
    {| t_code := "600000"; t_date := "2024-01-02"; t_ma5 := Some (Qc_of_Z 10);
       t_ma10 := None; t_ma20 := None; t_ma60 := None;
       t_macd_dif := Some (Qc_of_Z 1); t_macd_dea := Some (Qc_of_Z 0);
       t_macd_hist := Some (Qc_of_Z 2); t_rsi6 := None; t_rsi12 := None; t_rsi24 := None;
       t_k := Some (Qc_of_Z 10); t_d := Some (Qc_of_Z 15); t_j := Some (Qc_of_Z 0);
       t_bb_upper := None; t_bb_middle := None; t_bb_lower := None |} ]
|}.

(** Three complete bars. *)
Definition complete_bars : DataFrame :=
  {[ "open" := [of_Z 10; of_Z 11; of_Z 12]; "high" := [of_Z 12; of_Z 12; of_Z 13];
     "low" := [of_Z 9; of_Z 10; of_Z 11]; "close" := [of_Z 11; of_Z 12; of_Z 11];
     "volume" := [of_Z 1000; of_Z 1500; of_Z 1200] ]}.

(** The columns of the engine's output: its input and the indicators. *)
Definition output_columns : gset string :=
  list_to_set [
    "open"; "high"; "low"; "close"; "volume";
    "MA5"; "MA10"; "MA20"; "MA60"; "EMA5"; "EMA10"; "EMA20"; "EMA60";
    "MACD_DIF"; "MACD_DEA"; "MACD_HIST"; "RSI6"; "RSI12"; "RSI24"; "K"; "D"; "J";
    "BB_MA"; "BB_STD"; "BB_Upper"; "BB_Lower"; "BB_Width";
    "Volume_MA5"; "Volume_MA10"; "Volume_Change"; "OBV" ].

(** Bars without a volume column. *)
Definition bars_without_volume : DataFrame :=
  {[ "open" := [of_Z 10; of_Z 11]; "high" := [of_Z 12; of_Z 12];
     "low" := [of_Z 9; of_Z 10]; "close" := [of_Z 11; of_Z 12] ]}.

(** ** The vocabulary of the further properties *)

(** The UNIQUE(code, date) constraint of the two tables. *)
Definition unique_bars (db : Database) : Prop :=
  ∀ d1 d2, d1 ∈ daily_data db → d2 ∈ daily_data db →
    d_code d1 = d_code d2 → d_date d1 = d_date d2 → d1 = d2.

Definition unique_indicators (db : Database) : Prop :=
  ∀ t1 t2, t1 ∈ technical_indicators db → t2 ∈ technical_indicators db →
    t_code t1 = t_code t2 → t_date t1 = t_date t2 → t1 = t2.

(** A bound that is absent holds; one that is given must be met. *)
Definition within (lowest highest : option Qc) (x : Qc) : Prop :=
  (∀ b, lowest = Some b → (b ≤ x)%Qc) ∧ (∀ b, highest = Some b → (x ≤ b)%Qc).

(** The value a range query keeps: anything without bounds, otherwise a
    number (not NULL) within the bounds that are given. *)
Definition in_range (lowest highest : option Qc) (x : option Qc) : Prop :=
  match lowest, highest with
  | None, None => True
  | _, _ => ∃ v, x = Some v ∧ within lowest highest v
  end.

(** A configuration without any section. *)
Definition empty_config : FilterConfig := {|
  cfg_price := None; cfg_ma := None; cfg_rsi := None; cfg_macd := None;
  cfg_kdj := None; cfg_volume := None; cfg_bollinger := None; cfg_logic := None
|}.

(** Two symbols over two days, with closes, MA5, RSI6, MACD and KDJ lines. *)
Definition sample_bar (code date : string) (close pct : Z) : DailyRow := {|
  d_code := code; d_date := date; d_open := None; d_high := None; d_low := None;
  d_close := Some (Qc_of_Z close); d_volume := Some (Qc_of_Z 1000); d_amount := None;
  d_pct_change := Some (Qc_of_Z pct); d_turnover := None
|}.

Definition sample_indicator (code date : string) (ma5 rsi6 dif dea k d : Z) : IndicatorRow := {|
  t_code := code; t_date := date;
  t_ma5 := Some (Qc_of_Z ma5); t_ma10 := None; t_ma20 := None; t_ma60 := None;
  t_macd_dif := Some (Qc_of_Z dif); t_macd_dea := Some (Qc_of_Z dea);
  t_macd_hist := Some (Qc_of_Z (2 * (dif - dea)));
  t_rsi6 := Some (Qc_of_Z rsi6); t_rsi12 := None; t_rsi24 := None;
  t_k := Some (Qc_of_Z k); t_d := Some (Qc_of_Z d); t_j := Some (Qc_of_Z (3 * k - 2 * d));
  t_bb_upper := None; t_bb_middle := None; t_bb_lower := None
|}.

Definition two_symbol_store : Database := {|
  daily_data := [
    sample_bar "600000" "2024-01-01" 9 1; sample_bar "600000" "2024-01-02" 12 3;
    sample_bar "600001" "2024-01-01" 30 0; sample_bar "600001" "2024-01-02" 28 (-2) ];
  technical_indicators := [
    sample_indicator "600000" "2024-01-01" 10 40 (-1) 0 15 18;
    sample_indicator "600000" "2024-01-02" 11 65 1 0 25 20;
    sample_indicator "600001" "2024-01-01" 29 55 2 1 85 82;
    sample_indicator "600001" "2024-01-02" 29 45 0 1 81 83 ]
|}.

Definition two_symbol_stocks : list StockRow := [
  {| s_code := "600000"; s_name := "PFYH"; s_industry := Some "bank" |};
  {| s_code := "600001"; s_name := "HDGT"; s_industry := None |} ].

(** The symbols that the store holds: the codes of its rows. *)
Definition store_symbols (db : Database) : list string :=
  (d_code <$> daily_data db) ++ (t_code <$> technical_indicators db).

(** A configuration with a price floor of 10 and the MA5 "above" relation. *)
Definition price_floor_config : FilterConfig := {|
  cfg_price := Some {| price_min := Some (Qc_of_Z 10); price_max := None |};
  cfg_ma := Some {| ma_period := Some 5%Z; ma_relation := None |};
  cfg_rsi := None; cfg_macd := None; cfg_kdj := None; cfg_volume := None;
  cfg_bollinger := None; cfg_logic := None
|}.

(** A configuration that bounds the RSI and leaves its period out. *)
Definition rsi_band_config : FilterConfig := {|
  cfg_price := Some {| price_min := Some (Qc_of_Z 10); price_max := None |};
  cfg_ma := None;
  cfg_rsi := Some {| rsi_period := None; rsi_min := Some (Qc_of_Z 30);
                     rsi_max := Some (Qc_of_Z 70) |};
  cfg_macd := None; cfg_kdj := None; cfg_volume := None;
  cfg_bollinger := None; cfg_logic := Some "and"
|}.

(** A configuration with a price floor and a MACD section. *)
Definition macd_config : FilterConfig := {|
  cfg_price := Some {| price_min := Some (Qc_of_Z 10); price_max := None |};
  cfg_ma := None; cfg_rsi := None;
  cfg_macd := Some {| condition := None |};
  cfg_kdj := None; cfg_volume := None; cfg_bollinger := None; cfg_logic := None
|}.

(** What every evaluator returns: each symbol once, and only symbols that
    the store holds. *)
Definition set_of_store (db : Database) (codes : list string) : Prop :=
  NoDup codes ∧ ∀ c, c ∈ codes → c ∈ store_symbols db.

(** The sum of a list of numbers. *)
Definition Qc_sum (l : list Qc) : Qc := foldl Qcplus 0%Qc l.

(** The mean of the [n] closes that end at position [i]. *)
Definition mean_of_last (n i : nat) (closes : list Qc) : Qc :=
  (Qc_sum (window n i closes) / Qc_of_Z (Z.of_nat n))%Qc.

(** A value of a percentage oscillator: undefined, or between 0 and 100. *)
Definition percentage (x : float) : Prop :=
  x = NaN ∨ ∃ q, x = Fin q ∧ (0 ≤ q)%Qc ∧ (q ≤ Qc_of_Z 100)%Qc.

(** The MACD lines as the formulas have them: DIF = EMA(fast) - EMA(slow),
    DEA = EMA(signal) of DIF, HIST = 2 * (DIF - DEA). *)
Definition macd_dif_reference (fast slow : Z) (closes : list Qc) : list Qc :=
  zip_with Qcminus (ema_reference fast closes) (ema_reference slow closes).

Definition macd_dea_reference (fast slow signal : Z) (closes : list Qc) : list Qc :=
  ema_reference signal (macd_dif_reference fast slow closes).

Definition macd_hist_reference (fast slow signal : Z) (closes : list Qc) : list Qc :=
  zip_with (λ dif dea, Qc_of_Z 2 * (dif - dea))%Qc
    (macd_dif_reference fast slow closes) (macd_dea_reference fast slow signal closes).

(** The on-balance volume as a running total: it starts at 0, adds the
    volume of a day that closes above the day before, and takes off the
    volume of a day that closes below it. *)
Fixpoint obv_reference_from (obv previous : Qc) (bars : list (Qc * Qc)) : list Qc :=
  match bars with
  | [] => []
  | (price, volume) :: rest =>
      let obv' := if decide (previous < price)%Qc then (obv + volume)%Qc
                  else if decide (price < previous)%Qc then (obv - volume)%Qc
                  else obv in
      obv' :: obv_reference_from obv' price rest
  end.

Definition obv_reference (bars : list (Qc * Qc)) : list Qc :=
  match bars with
  | [] => []
  | (price, _) :: rest => 0%Qc :: obv_reference_from 0%Qc price rest
  end.

(** The values of [rolling(window=n)] with a window that pandas accepts. *)
Definition rolled (agg : nat → Series → float) (n : Z) (s : Series) : Series :=
  imap (λ i _, agg (Z.to_nat n) (window (Z.to_nat n) i s)) s.

(** The columns that the engine adds, and the three that [calculate_kdj]
    uses on the way and drops. *)
Definition indicator_columns : list string := [
  "MA5"; "MA10"; "MA20"; "MA60"; "EMA5"; "EMA10"; "EMA20"; "EMA60";
  "MACD_DIF"; "MACD_DEA"; "MACD_HIST"; "RSI6"; "RSI12"; "RSI24"; "K"; "D"; "J";
  "BB_MA"; "BB_STD"; "BB_Upper"; "BB_Lower"; "BB_Width";
  "Volume_MA5"; "Volume_MA10"; "Volume_Change"; "OBV" ].

Definition scratch_columns : list string := ["low_n"; "high_n"; "RSV"].

(** A float that is not below zero: undefined, +inf, or a finite number
    that is at least 0. *)
Definition nonneg (x : float) : Prop :=
  x = NaN ∨ x = PInf ∨ ∃ q, x = Fin q ∧ (0 ≤ q)%Qc.

(** Both values are numbers (neither is NULL) and the first is strictly
    below the second. *)
Definition below (x y : option Qc) : Prop :=
  ∃ a b, x = Some a ∧ y = Some b ∧ (a < b)%Qc.

(** The indicator rows of symbol [c] on the latest and on the previous date. *)
Definition indicators_on_both_dates (db : Database) (latest_date prev_date c : string)
    (today yesterday : IndicatorRow) : Prop :=
  today ∈ technical_indicators db ∧ yesterday ∈ technical_indicators db ∧
  t_code today = c ∧ t_code yesterday = c ∧
  t_date today = latest_date ∧ t_date yesterday = prev_date.

(** The bars of symbol [c] on the latest and on the previous date. *)
Definition bars_on_both_dates (db : Database) (latest_date prev_date c : string)
    (today yesterday : DailyRow) : Prop :=
  today ∈ daily_data db ∧ yesterday ∈ daily_data db ∧
  d_code today = c ∧ d_code yesterday = c ∧
  d_date today = latest_date ∧ d_date yesterday = prev_date.

(** The indicator row of symbol [c] on the latest date. *)
Definition indicators_on_latest_date (db : Database) (latest_date c : string)
    (today : IndicatorRow) : Prop :=
  today ∈ technical_indicators db ∧ t_code today = c ∧ t_date today = latest_date.

(** One symbol whose close went from 9, below the upper band at 10, to 12,
    above the upper band at 11. *)
Definition breakout_store : Database := {|
  daily_data := [
    sample_bar "600000" "2024-01-01" 9 1; sample_bar "600000" "2024-01-02" 12 3 ];
  technical_indicators := [
    band_row "600000" "2024-01-01" (Qc_of_Z 10) (Qc_of_Z 8) (Qc_of_Z 6);
    band_row "600000" "2024-01-02" (Qc_of_Z 11) (Qc_of_Z 9) (Qc_of_Z 7) ]
|}.

(** The highs, lows, closes and volumes of [complete_bars]. *)
Definition sample_highs : list Qc := Qc_of_Z <$> [12; 12; 13]%Z.
Definition sample_lows : list Qc := Qc_of_Z <$> [9; 10; 11]%Z.
Definition sample_closes : list Qc := Qc_of_Z <$> [11; 12; 11]%Z.
Definition sample_volumes : list Qc := Qc_of_Z <$> [1000; 1500; 1200]%Z.

(** * Properties *)

(** A closed equation or comparison, decided by evaluation. *)
Ltac by_evaluation := apply (bool_decide_unpack _); vm_compute; exact I.

(** The last [else] of an evaluator, behind its guard on the two dates. *)
Ltac unknown_condition :=
  destruct (latest_two_dates _) as [|? [|? ?]]; [done..|];
  rewrite !decide_False; [done|set_solver..].

(** ** Missing input columns *)

Section missing_columns.

Variable sqrt : Qc → Qc.

Lemma first_missing_some (cols : list string) (df : DataFrame) (col : string) :
  col ∈ cols → df !! col = None → is_Some (first_missing cols df).
Proof.
  induction cols as [|c cols IH]; intros Hin Hnone; [by apply elem_of_nil in Hin|].
  simpl. destruct (df !! c) eqn:Hc; [|by eexists].
  apply elem_of_cons in Hin as [->|Hin]; [congruence|by apply IH].
Qed.

Lemma first_missing_none (cols : list string) (df : DataFrame) :
  first_missing cols df = None → Forall (λ col, is_Some (df !! col)) cols.
Proof.
  induction cols as [|c cols IH]; simpl; [constructor|].
  destruct (df !! c) eqn:Hc; [|done]. intros H. constructor; [by eexists|by apply IH].
Qed.

(** C1 (as the code has it): a frame that lacks one of open, high, low,
    close, volume makes [calculate_all_indicators] return normally, and
    what it returns is its input, without any indicator column. *)
Theorem calculate_all_indicators_missing_column (df : DataFrame) (col : string) :
  col ∈ required_columns → df !! col = None →
  calculate_all_indicators sqrt df = Returned df.
Proof.
  intros Hin Hnone. unfold calculate_all_indicators.
  by destruct (first_missing_some _ _ _ Hin Hnone) as [c ->].
Qed.

End missing_columns.

Lemma calculate_all_indicators_missing_column_witness :
  calculate_all_indicators (λ q, q) bars_without_volume = Returned bars_without_volume.
Proof.
  apply (calculate_all_indicators_missing_column (λ q, q) bars_without_volume "volume").
  - unfold required_columns. set_solver.
  - reflexivity.
Defined.

(** C1 (as the specification words it) does not hold: on bars without a
    volume column the computation raises nothing, whatever the square root
    is taken to be. *)
Lemma calculate_all_indicators_no_error :
  "volume" ∈ required_columns ∧ bars_without_volume !! "volume" = None ∧
  (∀ sqrt e, calculate_all_indicators sqrt bars_without_volume ≠ Raised e) ∧
  (∀ sqrt, calculate_all_indicators sqrt bars_without_volume = Returned bars_without_volume).
Proof.
  split; [set_solver|]. split; [done|]. split; [|done]. intros sqrt e. discriminate.
Qed.

(** ** The date query, too little history, and unknown conditions *)

Section guards.

Lemma latest_two_dates_short (dates : list string) :
  distinct_dates dates < 2 → length (latest_two_dates dates) < 2.
Proof.
  unfold distinct_dates, latest_two_dates. intros H.
  rewrite length_take, (Permutation_length (merge_sort_Permutation _ _)). lia.
Qed.

Lemma string_leb_trans (a b c : string) :
  String.leb a b = true → String.leb b c = true → String.leb a c = true.
Proof.
  unfold String.leb. revert b c.
  induction a as [|x a IH]; intros [|y b] [|z c]; simpl; try done.
  unfold Ascii.compare.
  destruct (N.compare_spec (Ascii.N_of_ascii x) (Ascii.N_of_ascii y)) as [Hxy|Hxy|Hxy];
  destruct (N.compare_spec (Ascii.N_of_ascii y) (Ascii.N_of_ascii z)) as [Hyz|Hyz|Hyz];
  destruct (N.compare_spec (Ascii.N_of_ascii x) (Ascii.N_of_ascii z)) as [Hxz|Hxz|Hxz];
  try done; try lia.
  apply IH.
Qed.

#[local] Instance date_ge_trans : Transitive date_ge.
Proof. intros a b c Hab Hbc. unfold date_ge in *. by eapply string_leb_trans. Qed.

#[local] Instance date_ge_total : Total date_ge.
Proof. intros a b. unfold date_ge. destruct (String.leb_total a b); auto. Qed.

(** The date query answers with the two most recent distinct dates of the
    table: the latest one bounds every date, the previous one every other
    date. *)
Lemma latest_two_dates_most_recent (dates : list string) (latest_date prev_date : string) :
  latest_two_dates dates = [latest_date; prev_date] →
  latest_date ∈ dates ∧ prev_date ∈ dates ∧ latest_date ≠ prev_date ∧
  ∀ d, d ∈ dates → date_ge latest_date d ∧ (d ≠ latest_date → date_ge prev_date d).
Proof.
  unfold latest_two_dates. intros Htake.
  pose proof (StronglySorted_merge_sort date_ge (remove_dups dates)) as Hsorted.
  pose proof (merge_sort_Permutation date_ge (remove_dups dates)) as Hperm.
  pose proof (NoDup_remove_dups dates) as Hnodup. rewrite <-Hperm in Hnodup.
  assert (∀ d, d ∈ dates ↔ d ∈ merge_sort date_ge (remove_dups dates)) as Hin.
  { intros d. by rewrite Hperm, elem_of_remove_dups. }
  destruct (merge_sort date_ge (remove_dups dates)) as [|a [|b rest]]; [done..|].
  simpl in Htake. injection Htake as -> ->.
  apply StronglySorted_inv in Hsorted as [Hsorted Hlatest].
  apply StronglySorted_inv in Hsorted as [_ Hprev].
  apply NoDup_cons in Hnodup as [Hne _].
  split; [apply Hin; by left|]. split; [apply Hin; right; by left|].
  split; [intros ->; apply Hne; by left|].
  intros d [->|[->|Hd]%elem_of_cons]%Hin%elem_of_cons.
  - split; [|done]. by destruct (date_ge_total latest_date latest_date).
  - split; [by apply Forall_cons in Hlatest as [? _]|].
    intros _. by destruct (date_ge_total prev_date prev_date).
  - split.
    + apply Forall_cons in Hlatest as [_ Hlatest]. by eapply Forall_forall in Hlatest.
    + intros _. by eapply Forall_forall in Hprev.
Qed.

(** With two distinct dates or more, the query does answer with a pair. *)
Lemma latest_two_dates_long (dates : list string) :
  2 ≤ distinct_dates dates →
  ∃ latest_date prev_date, latest_two_dates dates = [latest_date; prev_date].
Proof.
  unfold distinct_dates, latest_two_dates. intros Hlong.
  rewrite <-(Permutation_length (merge_sort_Permutation date_ge (remove_dups dates))) in Hlong.
  destruct (merge_sort date_ge (remove_dups dates)) as [|a [|b rest]]; simpl in Hlong; [lia..|].
  by exists a, b.
Qed.

(** What every evaluator does after its date query when the table is short. *)
Lemma latest_two_dates_guard {A : Type} (dates : list string)
    (k : string → string → list string → A) (fallback : A) :
  distinct_dates dates < 2 →
  match latest_two_dates dates with
  | latest_date :: prev_date :: rest => k latest_date prev_date rest
  | _ => fallback
  end = fallback.
Proof.
  intros H%latest_two_dates_short.
  destruct (latest_two_dates dates) as [|? [|? ?]]; simpl in *; [done|done|lia].
Qed.

Lemma filter_by_ma_short (db : Database) (period : Z) (relation : string) (price : price_column) :
  distinct_dates (d_date <$> daily_data db) < 2 →
  relation = "cross_above" ∨ relation = "cross_below" →
  filter_by_ma db period relation price = [].
Proof.
  intros Hshort Hrel. unfold filter_by_ma.
  rewrite decide_False by (intros [?|?]; destruct Hrel; congruence).
  rewrite decide_True by done.
  by apply latest_two_dates_guard.
Qed.

Lemma filter_by_macd_short (db : Database) (condition : string) :
  distinct_dates (t_date <$> technical_indicators db) < 2 →
  filter_by_macd db condition = [].
Proof. intros H. unfold filter_by_macd. by apply latest_two_dates_guard. Qed.

Lemma filter_by_kdj_short (db : Database) (condition : string) :
  distinct_dates (t_date <$> technical_indicators db) < 2 →
  filter_by_kdj db condition = [].
Proof. intros H. unfold filter_by_kdj. by apply latest_two_dates_guard. Qed.

Lemma filter_by_volume_short (db : Database) (condition : string) (threshold : option pynum) :
  distinct_dates (d_date <$> daily_data db) < 2 →
  filter_by_volume db condition threshold = [].
Proof. intros H. unfold filter_by_volume. by apply latest_two_dates_guard. Qed.

Lemma filter_by_bollinger_bands_short (db : Database) (condition : string) :
  distinct_dates (t_date <$> technical_indicators db) < 2 →
  filter_by_bollinger_bands db condition = [].
Proof. intros H. unfold filter_by_bollinger_bands. by apply latest_two_dates_guard. Qed.

(** C4: when neither table of the store reaches two distinct dates, every
    cross-over predicate is the empty list of symbols; the evaluators are
    total functions, so nothing is raised. *)
Theorem cross_over_needs_two_dates (db : Database) :
  distinct_dates (d_date <$> daily_data db) < 2 →
  distinct_dates (t_date <$> technical_indicators db) < 2 →
  (∀ period price, filter_by_ma db period "cross_above" price = []
                   ∧ filter_by_ma db period "cross_below" price = []) ∧
  filter_by_macd db "golden_cross" = [] ∧ filter_by_macd db "dead_cross" = [] ∧
  filter_by_kdj db "golden_cross" = [] ∧ filter_by_kdj db "dead_cross" = [] ∧
  (∀ threshold, filter_by_volume db "increase" threshold = []
                ∧ filter_by_volume db "decrease" threshold = []) ∧
  filter_by_bollinger_bands db "upper_break" = [] ∧
  filter_by_bollinger_bands db "lower_break" = [] ∧
  filter_by_bollinger_bands db "middle_cross_above" = [] ∧
  filter_by_bollinger_bands db "middle_cross_below" = [] ∧
  filter_by_bollinger_bands db "squeeze" = [].
Proof.
  intros Hd Ht.
  repeat split;
    first [ by apply filter_by_ma_short; auto
          | by apply filter_by_macd_short
          | by apply filter_by_kdj_short
          | by apply filter_by_volume_short
          | by apply filter_by_bollinger_bands_short ].
Qed.

Lemma cross_over_needs_two_dates_witness :
  filter_by_macd one_day_store "golden_cross" = [] ∧
  filter_by_ma one_day_store 5 "cross_above" Close = [].
Proof.
  destruct (cross_over_needs_two_dates one_day_store) as (Hma & Hmacd & _);
    [vm_compute; lia | vm_compute; lia |].
  split; [exact Hmacd | exact (proj1 (Hma 5%Z Close))].
Defined.

(** C9: with fewer than two distinct dates the static conditions of the
    MACD, KDJ and volume families are empty as well: the date guard of
    those evaluators stands before the choice of the condition. *)
Theorem static_conditions_need_two_dates (db : Database) :
  distinct_dates (d_date <$> daily_data db) < 2 →
  distinct_dates (t_date <$> technical_indicators db) < 2 →
  filter_by_macd db "positive" = [] ∧ filter_by_macd db "negative" = [] ∧
  filter_by_kdj db "oversold" = [] ∧ filter_by_kdj db "overbought" = [] ∧
  (∀ threshold, filter_by_volume db "above_ma" threshold = []
                ∧ filter_by_volume db "below_ma" threshold = []).
Proof.
  intros Hd Ht.
  repeat split;
    first [ by apply filter_by_macd_short
          | by apply filter_by_kdj_short
          | by apply filter_by_volume_short ].
Qed.

Lemma static_conditions_need_two_dates_witness :
  filter_by_macd one_day_store "positive" = [] ∧
  filter_by_kdj one_day_store "oversold" = [] ∧
  filter_by_volume one_day_store "above_ma" None = [].
Proof.
  destruct (static_conditions_need_two_dates one_day_store) as (Hmacd & _ & Hkdj & _ & Hvol);
    [vm_compute; lia | vm_compute; lia |].
  split; [exact Hmacd | split; [exact Hkdj | exact (proj1 (Hvol None))]].
Defined.

(** C10: a relation or condition outside the recognised ones makes the
    MA, MACD, KDJ and Bollinger evaluators return the empty list, on every
    store. *)
Theorem unsupported_condition_is_empty (db : Database) (period : Z) (price : price_column)
    (relation macd_condition kdj_condition bollinger_condition : string) :
  relation ∉ ma_relations →
  macd_condition ∉ macd_conditions →
  kdj_condition ∉ kdj_conditions →
  bollinger_condition ∉ bollinger_conditions →
  filter_by_ma db period relation price = [] ∧
  filter_by_macd db macd_condition = [] ∧
  filter_by_kdj db kdj_condition = [] ∧
  filter_by_bollinger_bands db bollinger_condition = [].
Proof.
  unfold ma_relations, macd_conditions, kdj_conditions, bollinger_conditions.
  intros Hma Hmacd Hkdj Hbb. repeat split.
  - unfold filter_by_ma. rewrite !decide_False; [done|set_solver..].
  - unfold filter_by_macd. unknown_condition.
  - unfold filter_by_kdj. unknown_condition.
  - unfold filter_by_bollinger_bands. unknown_condition.
Qed.

End guards.

(** ** The filter combinator *)

Section combinator.

Implicit Types (x : string) (codes : list string) (results : list (list string)).

Lemma elem_of_fold_intersection results (acc : gset string) x :
  x ∈ foldl (λ (result : gset string) codes, result ∩ list_to_set codes) acc results
  ↔ x ∈ acc ∧ ∀ codes, codes ∈ results → x ∈ codes.
Proof.
  revert acc. induction results as [|codes results IH]; intros acc; simpl.
  - split; [intros H; split; [done|] | by intros [? _]].
    intros codes Hin. by apply elem_of_nil in Hin.
  - rewrite IH, elem_of_intersection, elem_of_list_to_set. split.
    + intros [[Hacc Hx] Hall]. split; [done|].
      intros c [->|Hin]%elem_of_cons; auto.
    + intros [Hacc Hall]. split; [split; [done|]|].
      * apply Hall. by left.
      * intros c Hin. apply Hall. by right.
Qed.

Lemma elem_of_fold_union results (acc : gset string) x :
  x ∈ foldl (λ (result : gset string) codes, result ∪ list_to_set codes) acc results
  ↔ x ∈ acc ∨ ∃ codes, codes ∈ results ∧ x ∈ codes.
Proof.
  revert acc. induction results as [|codes results IH]; intros acc; simpl.
  - split; [by left|]. intros [?|(c & Hin & _)]; [done|]. by apply elem_of_nil in Hin.
  - rewrite IH, elem_of_union, elem_of_list_to_set. split.
    + intros [[Hacc|Hx]|(c & Hin & Hc)]; [by left| |].
      * right. exists codes. split; [by left|done].
      * right. exists c. split; [by right|done].
    + intros [Hacc|(c & [->|Hin]%elem_of_cons & Hc)].
      * by left; left.
      * by left; right.
      * right. by exists c.
Qed.

Lemma elem_of_combine_and results x :
  results ≠ [] →
  x ∈ combine_filters results "and" ↔ ∀ codes, codes ∈ results → x ∈ codes.
Proof.
  intros Hne. destruct results as [|first [|second rest]]; [done| |].
  - simpl. split.
    + by intros Hx codes ->%list_elem_of_singleton.
    + intros Hall. apply Hall. by left.
  - unfold combine_filters. rewrite decide_True by done.
    rewrite elem_of_elements, elem_of_fold_intersection, elem_of_list_to_set. split.
    + intros [Hfirst Hall] codes [->|Hin]%elem_of_cons; auto.
    + intros Hall. split; [apply Hall; by left|].
      intros codes Hin. apply Hall. by right.
Qed.

Lemma elem_of_combine_or results logic x :
  logic ≠ "and" →
  x ∈ combine_filters results logic ↔ ∃ codes, codes ∈ results ∧ x ∈ codes.
Proof.
  intros Hor. destruct results as [|first [|second rest]].
  - simpl. split; [by intros ?%elem_of_nil|]. by intros (c & ?%elem_of_nil & _).
  - simpl. split.
    + intros Hx. exists first. split; [by left|done].
    + by intros (c & ->%list_elem_of_singleton & Hx).
  - unfold combine_filters. rewrite decide_False by done.
    rewrite elem_of_elements, elem_of_fold_union. split.
    + by intros [?%elem_of_empty|?].
    + by right.
Qed.

Lemma elem_of_intersection_all (sets : list (gset string)) x :
  sets ≠ [] → x ∈ intersection_all sets ↔ ∀ s, s ∈ sets → x ∈ s.
Proof.
  intros Hne. induction sets as [|s sets IH]; [done|].
  destruct sets as [|s' sets].
  - simpl. split; [by intros Hx ? ->%list_elem_of_singleton|]. intros H. apply H. by left.
  - change (intersection_all (s :: s' :: sets)) with (s ∩ intersection_all (s' :: sets)).
    rewrite elem_of_intersection, IH by done. split.
    + intros [Hs Hall] t [->|Hin]%elem_of_cons; auto.
    + intros Hall. split; [apply Hall; by left|]. intros t Hin. apply Hall. by right.
Qed.

Lemma combine_refines_reference results logic :
  symbols (combine_filters results logic) = combine_reference (symbols <$> results) logic.
Proof.
  unfold symbols, combine_reference. apply set_eq. intros x.
  rewrite elem_of_list_to_set. destruct (decide (logic = "and")) as [->|Hor].
  - destruct results as [|first rest].
    { simpl. split; [by intros ?%elem_of_nil|by intros ?%elem_of_empty]. }
    rewrite elem_of_combine_and, elem_of_intersection_all by done. split.
    + intros Hall s (codes & -> & Hin)%list_elem_of_fmap.
      apply elem_of_list_to_set. by apply Hall.
    + intros Hall codes Hin. apply (elem_of_list_to_set (C:=gset string)), Hall.
      apply list_elem_of_fmap. by exists codes.
  - rewrite elem_of_combine_or, elem_of_union_list by done. split.
    + intros (codes & Hin & Hx). exists (list_to_set codes).
      split; [apply list_elem_of_fmap; by exists codes | by apply elem_of_list_to_set].
    + intros (s & (codes & -> & Hin)%list_elem_of_fmap & Hx).
      exists codes. split; [done|]. by apply elem_of_list_to_set in Hx.
Qed.

Lemma combine_permutation results results' logic :
  results ≡ₚ results' →
  symbols (combine_filters results logic) = symbols (combine_filters results' logic).
Proof.
  intros Hperm. unfold symbols. apply set_eq. intros x. rewrite !elem_of_list_to_set.
  destruct (decide (logic = "and")) as [->|Hor].
  - destruct (decide (results = [])) as [->|Hne].
    + by apply Permutation_nil_l in Hperm as ->.
    + assert (results' ≠ []) by (intros ->; by apply Permutation_nil_r in Hperm).
      rewrite !elem_of_combine_and by done.
      split; intros Hall codes Hin; apply Hall.
      * by rewrite Hperm.
      * by rewrite <-Hperm.
  - rewrite !elem_of_combine_or by done.
    split; intros (codes & Hin & Hx); exists codes; (split; [|done]).
    + by rewrite <-Hperm.
    + by rewrite Hperm.
Qed.

Lemma elem_of_concat (groups : list (list (list string))) codes :
  codes ∈ concat groups ↔ ∃ group, codes ∈ group ∧ group ∈ groups.
Proof.
  induction groups as [|g groups IH]; simpl.
  - split; [by intros ?%elem_of_nil|]. by intros (? & _ & ?%elem_of_nil).
  - rewrite elem_of_app, IH. split.
    + intros [Hg|(group & Hin & Hgroup)].
      * exists g. split; [done|by left].
      * exists group. split; [done|by right].
    + intros (group & Hin & [->|Hgroup]%elem_of_cons); [by left|].
      right. by exists group.
Qed.

Lemma combine_regroup (groups : list (list (list string))) logic :
  Forall (λ group, group ≠ []) groups →
  symbols (combine_filters ((λ group, combine_filters group logic) <$> groups) logic)
  = symbols (combine_filters (concat groups) logic).
Proof.
  intros Hne. unfold symbols. apply set_eq. intros x. rewrite !elem_of_list_to_set.
  destruct (decide (logic = "and")) as [->|Hor].
  - destruct groups as [|g groups]; [done|].
    assert (concat (g :: groups) ≠ []).
    { apply Forall_cons in Hne as [Hg _]. simpl. by destruct g. }
    rewrite !elem_of_combine_and by done. split.
    + intros Hall codes (group & Hin & Hgroup)%elem_of_concat.
      assert (group ≠ []) as Hgne by (by eapply Forall_forall in Hne).
      specialize (Hall (combine_filters group "and")).
      rewrite elem_of_combine_and in Hall by done.
      apply Hall; [|done]. apply list_elem_of_fmap. by exists group.
    + intros Hall combined (group & -> & Hgroup)%list_elem_of_fmap.
      assert (group ≠ []) as Hgne by (by eapply Forall_forall in Hne).
      apply elem_of_combine_and; [done|].
      intros codes Hin. apply Hall. apply elem_of_concat. by exists group.
  - rewrite !elem_of_combine_or by done. split.
    + intros (combined & (group & -> & Hgroup)%list_elem_of_fmap & Hx).
      apply elem_of_combine_or in Hx as (codes & Hin & Hx); [|done].
      exists codes. split; [|done]. apply elem_of_concat. by exists group.
    + intros (codes & (group & Hin & Hgroup)%elem_of_concat & Hx).
      exists (combine_filters group logic). split.
      * apply list_elem_of_fmap. by exists group.
      * apply elem_of_combine_or; [done|]. by exists codes.
Qed.

Lemma combine_and_subseteq_or results :
  symbols (combine_filters results "and") ⊆ symbols (combine_filters results "or").
Proof.
  unfold symbols. intros x. rewrite !elem_of_list_to_set.
  destruct results as [|first rest]; [done|].
  rewrite elem_of_combine_and, elem_of_combine_or by done.
  intros Hall. exists first. split; [by left|]. apply Hall. by left.
Qed.

(** C5: [combine_filters] is the set-algebra fold of the specification.
    No input gives the empty list and a single input is handed back as it
    is; the symbols of the result are the intersection of the inputs under
    "and" and their union under any other mode ("or"); they do not depend
    on the order of the inputs nor on combining them group by group first;
    and the AND result is contained in the OR result. *)
Theorem combine_filters_set_algebra :
  (∀ logic, combine_filters [] logic = []) ∧
  (∀ codes logic, combine_filters [codes] logic = codes) ∧
  (∀ results logic,
     symbols (combine_filters results logic) = combine_reference (symbols <$> results) logic) ∧
  (∀ results x, results ≠ [] →
     x ∈ combine_filters results "and" ↔ ∀ codes, codes ∈ results → x ∈ codes) ∧
  (∀ results x,
     x ∈ combine_filters results "or" ↔ ∃ codes, codes ∈ results ∧ x ∈ codes) ∧
  (∀ results results' logic, results ≡ₚ results' →
     symbols (combine_filters results logic) = symbols (combine_filters results' logic)) ∧
  (∀ (groups : list (list (list string))) logic, Forall (λ group, group ≠ []) groups →
     symbols (combine_filters ((λ group, combine_filters group logic) <$> groups) logic)
     = symbols (combine_filters (concat groups) logic)) ∧
  (∀ results,
     symbols (combine_filters results "and") ⊆ symbols (combine_filters results "or")).
Proof.
  split; [done|]. split; [done|].
  split; [apply combine_refines_reference|].
  split; [intros; by apply elem_of_combine_and|].
  split; [intros; by apply elem_of_combine_or|].
  split; [apply combine_permutation|].
  split; [apply combine_regroup|apply combine_and_subseteq_or].
Qed.

End combinator.

(** ** Two-day predicates over the store *)

Section two_day_predicates.

Lemma sql_and_true (p q : option bool) :
  p &&& q = Some true ↔ p = Some true ∧ q = Some true.
Proof. destruct p as [[]|], q as [[]|]; simpl; naive_solver. Qed.

Lemma sql_text_eq_true (a b : string) : sql_text_eq a b = Some true ↔ a = b.
Proof.
  unfold sql_text_eq. split.
  - intros [= H]. by apply bool_decide_eq_true in H.
  - intros ->. by rewrite bool_decide_eq_true_2.
Qed.

Lemma sql_lt_true (x y : option Qc) :
  sql_lt x y = Some true ↔ ∃ a b, x = Some a ∧ y = Some b ∧ (a < b)%Qc.
Proof.
  unfold sql_lt. destruct x as [a|], y as [b|]; simpl; [|naive_solver..]. split.
  - intros [= H]. apply bool_decide_eq_true in H. by exists a, b.
  - intros (a' & b' & [= <-] & [= <-] & H). by rewrite bool_decide_eq_true_2.
Qed.

Lemma elem_of_emit (cond : option bool) (code c : string) :
  c ∈ emit cond code ↔ cond = Some true ∧ c = code.
Proof.
  destruct cond as [[]|]; simpl.
  - rewrite list_elem_of_singleton. naive_solver.
  - split; [by intros ?%elem_of_nil|naive_solver].
  - split; [by intros ?%elem_of_nil|naive_solver].
Qed.

Lemma elem_of_select_pairs (db : Database) (latest_date prev_date : string)
    (cond : IndicatorRow → IndicatorRow → option bool) (c : string) :
  c ∈ select_pairs db latest_date prev_date cond ↔
  ∃ t1 t2, t1 ∈ technical_indicators db ∧ t2 ∈ technical_indicators db ∧
    t_code t1 = c ∧ t_code t2 = c ∧ t_date t1 = latest_date ∧ t_date t2 = prev_date ∧
    cond t1 t2 = Some true.
Proof.
  unfold select_pairs. rewrite elem_of_remove_dups, list_elem_of_bind. split.
  - intros (t1 & (t2 & Hc & Ht2)%list_elem_of_bind & Ht1).
    apply elem_of_emit in Hc as [Hcond ->].
    rewrite !sql_and_true, !sql_text_eq_true in Hcond.
    destruct Hcond as [[[Hcode Hd1] Hd2] Hcond]. by exists t1, t2.
  - intros (t1 & t2 & Ht1 & Ht2 & <- & Hcode & <- & <- & Hcond).
    exists t1. split; [|done]. apply list_elem_of_bind. exists t2. split; [|done].
    apply elem_of_emit. by rewrite !sql_and_true, !sql_text_eq_true.
Qed.








(** The product is rounded before it is compared: a band that went from 7
    to 6.3 wide, or from 2.9 to 2.61, is not squeezed, the float64 product
    with 0.9 being the float64 of the new width itself, although the
    float64 nearest to 6.3 lies below 7 times the float64 nearest to 0.9. *)
Lemma squeeze_rounds_the_product :
  flt (round_float64 (Qc_of_Z 63 / Qc_of_Z 10)) (fmul (of_Z 7) squeeze_ratio) = true ∧
  fmul64 (of_Z 7) squeeze_ratio = round_float64 (Qc_of_Z 63 / Qc_of_Z 10) ∧
  filter_by_bollinger_bands
    {| daily_data := [];
       technical_indicators := [
         band_row "600000" "2024-01-01" (Qc_of_Z 7) (Qc_of_Z 4) (Qc_of_Z 0);
         band_row "600000" "2024-01-02" (Qc_of_Z 63 / Qc_of_Z 10) (Qc_of_Z 3) (Qc_of_Z 0) ] |}
    "squeeze" = [] ∧
  filter_by_bollinger_bands
    {| daily_data := [];
       technical_indicators := [
         band_row "600000" "2024-01-01" (Qc_of_Z 29 / Qc_of_Z 10) (Qc_of_Z 2) (Qc_of_Z 0);
         band_row "600000" "2024-01-02" (Qc_of_Z 261 / Qc_of_Z 100) (Qc_of_Z 2) (Qc_of_Z 0) ] |}
    "squeeze" = [].
Proof.
  split; [by vm_compute|]. split; [apply (bool_decide_unpack _); by vm_compute|].
  split; by vm_compute.
Qed.














(** Where a step rounds, the bound is not the exact product.  A volume
    that went from 25 to 29 is an "increase" of 16 %, and one that went from
    100000 to 115000 an "increase" of 15 %, the float64 bound lying just
    below 29 and 115000; a volume that went from 10 to 3 is a "decrease" of
    70 %, the float64 bound lying just above 3. *)
Lemma volume_change_rounds_the_bound :
  bool_decide (Qc_of_Z 25 * (1 + Qc_of_Z 16 / Qc_of_Z 100) = Qc_of_Z 29)%Qc = true ∧
  flt (increase_bound (Qc_of_Z 25) (Qc_of_Z 16)) (of_Z 29) = true ∧
  filter_by_volume (volume_change_store (Qc_of_Z 25) (Qc_of_Z 29)) "increase"
    (Some (PyFloat (Qc_of_Z 16))) = ["600000"] ∧
  flt (increase_bound (Qc_of_Z 100000) (Qc_of_Z 15)) (of_Z 115000) = true ∧
  filter_by_volume (volume_change_store (Qc_of_Z 100000) (Qc_of_Z 115000)) "increase"
    (Some (PyFloat (Qc_of_Z 15))) = ["600000"] ∧
  flt (of_Z 3) (decrease_bound (Qc_of_Z 10) (Qc_of_Z 70)) = true ∧
  filter_by_volume (volume_change_store (Qc_of_Z 10) (Qc_of_Z 3)) "decrease"
    (Some (PyFloat (Qc_of_Z 70))) = ["600000"].
Proof. repeat split; by vm_compute. Qed.

(** Without a threshold the code binds the Python integer 20, SQLite
    evaluates [20/100] as an integer division, and the bound degenerates
    to yesterday's volume: a rise of 10 % passes the default "increase",
    which the float 20.0 rejects. *)
Lemma volume_default_threshold_truncates :
  sql_div_100 (PyInt 20) = Integer 0 ∧
  filter_by_volume (volume_store (Qc_of_Z 110)) "increase" None = ["600000"] ∧
  filter_by_volume (volume_store (Qc_of_Z 110)) "increase" (Some (PyFloat (Qc_of_Z 20))) = [].
Proof. repeat split; by vm_compute. Qed.

End two_day_predicates.

(** ** The exponential mean *)

Section exponential_mean.

Lemma for_each_singleton {A S : Type} (x : A) (acc : S) (body : S → A → outcome S) :
  for_each [x] acc body = body acc x.
Proof. simpl. by destruct (body acc x). Qed.

Lemma ewm_loop_finite (alpha : Qc) (closes : list Qc) (w : Qc) :
  ewm_loop alpha (Fin w) 1%Qc (Fin <$> closes) = Fin <$> ema_reference_from alpha w closes.
Proof.
  revert w. induction closes as [|c closes IH]; intros w; [done|].
  cbn [fmap list_fmap ewm_loop ema_reference_from is_obs].
  assert (1 * (1 - alpha) + alpha = 1)%Qc as Hone by ring.
  destruct (fne (Fin w) (Fin c)) eqn:Hne.
  - cbn [fmul fadd fdiv]. rewrite Hone, decide_False by done.
    replace ((1 * (1 - alpha) * w + alpha * c) / 1)%Qc
      with (alpha * c + (1 - alpha) * w)%Qc by (field; done).
    by rewrite IH.
  - cbn [fne] in Hne. apply bool_decide_eq_false in Hne.
    assert (w = c) as <- by (destruct (decide (w = c)); [done|]; exfalso; apply Hne; congruence).
    replace (alpha * w + (1 - alpha) * w)%Qc with w by ring.
    by rewrite IH.
Qed.

Lemma ewm_mean_finite (n : Z) (closes : list Qc) :
  ewm_mean (smoothing_factor n) (Fin <$> closes) = Fin <$> ema_reference n closes.
Proof. destruct closes as [|c closes]; [done|]. simpl. by rewrite ewm_loop_finite. Qed.

Lemma ema_reference_from_step (alpha : Qc) (closes : list Qc) (seed : Qc) (i : nat)
    (previous close : Qc) :
  (seed :: ema_reference_from alpha seed closes) !! i = Some previous →
  closes !! i = Some close →
  ema_reference_from alpha seed closes !! i
  = Some (alpha * close + (1 - alpha) * previous)%Qc.
Proof.
  revert seed i. induction closes as [|c closes IH]; intros seed i Hprev Hclose; [done|].
  destruct i as [|i]; simpl in *.
  - congruence.
  - by apply IH.
Qed.

Lemma length_ema_reference (n : Z) (closes : list Qc) :
  length (ema_reference n closes) = length closes.
Proof.
  destruct closes as [|seed closes]; [done|]. simpl. f_equal.
  generalize (smoothing_factor n). intros alpha.
  revert seed. induction closes as [|c closes IH]; intros seed; [done|].
  simpl. f_equal. apply IH.
Qed.

Lemma calculate_ema_finite (df : DataFrame) (column : string) (closes : list Qc) (n : Z) :
  (1 ≤ n)%Z →
  df !! column = Some (Fin <$> closes) →
  calculate_ema df column [n]
    = Returned (<["EMA" +:+ pretty n := Fin <$> ema_reference n closes]> df).
Proof.
  intros Hn Hcol. unfold calculate_ema. rewrite for_each_singleton.
  unfold get_column. rewrite Hcol. cbn [mbind outcome_bind].
  unfold ewm_span. rewrite decide_False by lia. cbn [mbind outcome_bind mret outcome_ret].
  fold (smoothing_factor n). by rewrite ewm_mean_finite.
Qed.

Lemma ema_reference_seed (n : Z) (closes : list Qc) :
  ema_reference n closes !! 0 = closes !! 0.
Proof. by destruct closes. Qed.

(** C7: on a series of finite closes and for a period n >= 1, the EMA(n)
    column that [calculate_ema] writes is the recurrence of the
    specification: its first value is the first close, and every later
    value is alpha * close + (1 - alpha) * previous EMA, alpha = 2/(n+1). *)
Theorem calculate_ema_is_the_recurrence (df : DataFrame) (column : string)
    (closes : list Qc) (n : Z) :
  (1 ≤ n)%Z →
  df !! column = Some (Fin <$> closes) →
  calculate_ema df column [n]
    = Returned (<["EMA" +:+ pretty n := Fin <$> ema_reference n closes]> df) ∧
  length (ema_reference n closes) = length closes ∧
  ema_reference n closes !! 0 = closes !! 0 ∧
  ∀ i previous close,
    ema_reference n closes !! i = Some previous →
    closes !! S i = Some close →
    ema_reference n closes !! S i
    = Some (smoothing_factor n * close + (1 - smoothing_factor n) * previous)%Qc.
Proof.
  intros Hn Hcol. split; [|split; [|split]].
  - by apply calculate_ema_finite.
  - apply length_ema_reference.
  - apply ema_reference_seed.
  - intros i previous close Hprev Hclose. destruct closes as [|seed closes]; [done|].
    simpl in *. by apply ema_reference_from_step.
Qed.

Lemma calculate_ema_is_the_recurrence_witness :
  calculate_ema rising_bars "close" [5%Z]
    = Returned (<["EMA" +:+ pretty 5%Z := Fin <$> ema_reference 5 rising_closes]> rising_bars) ∧
  take 3 (ema_reference 5 rising_closes)
    = [Qc_of_Z 10; (Qc_of_Z 31 / Qc_of_Z 3)%Qc; (Qc_of_Z 98 / Qc_of_Z 9)%Qc].
Proof.
  split.
  - apply (calculate_ema_is_the_recurrence rising_bars "close" rising_closes 5); [lia|done].
  - by_evaluation.
Defined.

End exponential_mean.

(** ** Rolling windows on short histories *)

Section rolling_windows.

Implicit Types (s w : Series) (n : Z) (i : nat).

Lemma length_shift s : length (shift s) = length s.
Proof. unfold shift. rewrite length_take. simpl. lia. Qed.

Lemma length_diff s : length (diff s) = length s.
Proof. unfold diff. rewrite length_zip_with, length_shift. lia. Qed.

Lemma length_clip_negative s : length (clip_negative s) = length s.
Proof. unfold clip_negative. by rewrite length_fmap. Qed.

Lemma length_window_le (k i : nat) s : length (window k i s) ≤ length s.
Proof. unfold window. rewrite length_drop, length_take. lia. Qed.

Lemma length_observations_le w : length (observations w) ≤ length w.
Proof. unfold observations. apply length_filter. Qed.

Lemma window_mean_short (minp : nat) w : length w < minp → window_mean minp w = NaN.
Proof.
  intros Hshort. unfold window_mean.
  pose proof (length_observations_le w). rewrite decide_False; [done|lia].
Qed.

Lemma imap_constant {A B : Type} (f : nat → A → B) (l : list A) (y : B) :
  (∀ i x, l !! i = Some x → f i x = y) → imap f l = replicate (length l) y.
Proof.
  intros Hf. apply list_eq. intros i. rewrite list_lookup_imap.
  destruct (l !! i) as [x|] eqn:Hi; simpl.
  - rewrite (Hf i x Hi). symmetry. apply lookup_replicate_2. by eapply lookup_lt_Some.
  - symmetry. apply lookup_replicate_None. by apply lookup_ge_None.
Qed.

Lemma rolling_mean_short n s :
  (Z.of_nat (length s) < n)%Z → rolling_mean n s = Returned (replicate (length s) NaN).
Proof.
  intros Hshort. unfold rolling_mean, rolling. rewrite decide_False by lia. f_equal.
  apply imap_constant. intros i x _. apply window_mean_short.
  pose proof (length_window_le (Z.to_nat n) i s). lia.
Qed.

(** On the closes 10..30, MA(20) has its first values on the 20th and the
    21st bar: 19.5 and 20.5. *)
Lemma rolling_mean_scenario :
  rolling_mean 20 scenario_closes
  = Returned (replicate 19 NaN ++ [Fin (Qc_of_Z 39 / Qc_of_Z 2)%Qc; Fin (Qc_of_Z 41 / Qc_of_Z 2)%Qc]).
Proof.
  unfold rolling_mean, rolling. rewrite decide_False by lia. f_equal. by_evaluation.
Qed.

Lemma rsi_of_rs_nan : rsi_of_rs NaN = NaN.
Proof. done. Qed.

Lemma ema_reference_finite n (closes : list Qc) :
  Forall (λ x, is_fin x = true) (Fin <$> ema_reference n closes).
Proof. apply Forall_fmap, Forall_true. done. Qed.

(** C2 (as the code has it): on a series shorter than n, the MA(n) and the
    RSI(n) columns are undefined at every position; the EMA(n) column is
    not: it is seeded with the first close and, on finite closes, carries
    a value at every position. *)
Theorem short_history_leaves_ma_and_rsi_undefined (df : DataFrame) (column : string)
    (s : Series) (n : Z) :
  df !! column = Some s →
  (Z.of_nat (length s) < n)%Z →
  calculate_ma df column [n]
    = Returned (<["MA" +:+ pretty n := replicate (length s) NaN]> df) ∧
  calculate_rsi df column [n]
    = Returned (<["RSI" +:+ pretty n := replicate (length s) NaN]> df) ∧
  undefined_everywhere (replicate (length s) NaN) ∧
  ∀ closes, s = Fin <$> closes →
    ∃ ema, calculate_ema df column [n] = Returned (<["EMA" +:+ pretty n := ema]> df) ∧
           length ema = length s ∧ Forall (λ x, is_fin x = true) ema ∧
           ema !! 0 = s !! 0.
Proof.
  intros Hcol Hshort. split; [|split; [|split]].
  - unfold calculate_ma. rewrite for_each_singleton.
    unfold get_column. rewrite Hcol. cbn [mbind outcome_bind].
    by rewrite rolling_mean_short.
  - unfold calculate_rsi, get_column. rewrite Hcol. cbn [mbind outcome_bind].
    rewrite for_each_singleton.
    rewrite !rolling_mean_short
      by (by rewrite length_clip_negative, ?length_fmap, length_diff).
    cbn [mbind outcome_bind mret outcome_ret].
    rewrite !length_clip_negative, length_fmap, length_diff.
    by rewrite zip_with_replicate, fmap_replicate.
  - unfold undefined_everywhere. by apply Forall_replicate.
  - intros closes ->. exists (Fin <$> ema_reference n closes).
    split; [apply calculate_ema_finite; [lia|done]|].
    split; [by rewrite !length_fmap, length_ema_reference|].
    split; [apply ema_reference_finite|].
    by rewrite !list_lookup_fmap, ema_reference_seed.
Qed.

Lemma short_history_leaves_ma_and_rsi_undefined_witness :
  calculate_ma single_bar "close" [5%Z]
    = Returned (<["MA" +:+ pretty 5%Z := [NaN]]> single_bar) ∧
  calculate_rsi single_bar "close" [6%Z]
    = Returned (<["RSI" +:+ pretty 6%Z := [NaN]]> single_bar).
Proof.
  split.
  - apply (short_history_leaves_ma_and_rsi_undefined single_bar "close" [of_Z 10] 5);
      [done|simpl; lia].
  - apply (short_history_leaves_ma_and_rsi_undefined single_bar "close" [of_Z 10] 6);
      [done|simpl; lia].
Defined.

(** C2 (as the specification words it) does not hold for the EMA: on a
    single bar, shorter than the period 5, EMA(5) is the close itself. *)
Lemma short_history_has_an_ema :
  single_bar !! "close" = Some [of_Z 10] ∧
  (Z.of_nat (length [of_Z 10]) < 5)%Z ∧
  calculate_ema single_bar "close" [5%Z] = Returned (<["EMA5" := [of_Z 10]]> single_bar) ∧
  ¬ undefined_everywhere [of_Z 10].
Proof.
  split; [done|]. split; [simpl; lia|]. split; [done|].
  unfold undefined_everywhere. intros H. apply Forall_cons_1 in H as [H _]. discriminate.
Qed.

End rolling_windows.

(** ** The RSI when nothing moves down *)

Section relative_strength.

Implicit Types (s w : Series) (n : Z) (i j : nat) (closes : list Qc).

Lemma lookup_shift_S s j : S j < length s → shift s !! S j = s !! j.
Proof. intros Hj. unfold shift. by rewrite lookup_take_lt. Qed.

Lemma lookup_diff_finite closes j a b :
  closes !! j = Some a → closes !! S j = Some b →
  diff (Fin <$> closes) !! S j = Some (Fin (b - a)%Qc).
Proof.
  intros Ha Hb. unfold diff. rewrite lookup_zip_with, lookup_shift_S.
  - by rewrite !list_lookup_fmap, Ha, Hb.
  - rewrite length_fmap. by eapply lookup_lt_Some.
Qed.

Lemma lookup_up_increasing closes j :
  strictly_increasing closes → S j < length closes →
  ∃ x, clip_negative (diff (Fin <$> closes)) !! S j = Some x ∧ finite_positive x.
Proof.
  intros Hinc Hj.
  destruct (lookup_lt_is_Some_2 closes j) as [a Ha]; [lia|].
  destruct (lookup_lt_is_Some_2 closes (S j)) as [b Hb]; [lia|].
  pose proof (Hinc j a b Ha Hb) as Hlt.
  assert (0 < b - a)%Qc as Hpos by (by apply Qclt_minus_iff in Hlt).
  exists (Fin (b - a)%Qc). split; [|by exists (b - a)%Qc].
  unfold clip_negative. rewrite list_lookup_fmap, (lookup_diff_finite closes j a b) by done.
  simpl. rewrite bool_decide_eq_false_2; [done|].
  apply Qcle_not_lt. by apply Qclt_le_weak.
Qed.

Lemma lookup_down_increasing closes j :
  strictly_increasing closes → S j < length closes →
  clip_negative (fneg <$> diff (Fin <$> closes)) !! S j = Some (of_Z 0).
Proof.
  intros Hinc Hj.
  destruct (lookup_lt_is_Some_2 closes j) as [a Ha]; [lia|].
  destruct (lookup_lt_is_Some_2 closes (S j)) as [b Hb]; [lia|].
  pose proof (Hinc j a b Ha Hb) as Hlt.
  unfold clip_negative.
  rewrite !list_lookup_fmap, (lookup_diff_finite closes j a b) by done.
  simpl. rewrite bool_decide_eq_true_2; [done|].
  apply Qclt_minus_iff in Hlt. apply Qclt_minus_iff. rewrite Z2Qc_inj_0.
  by replace (0 + - - (b - a))%Qc with (b + - a)%Qc by ring.
Qed.

Lemma length_window (k i : nat) s :
  i < length s → length (window k i s) = Nat.min k (S i).
Proof. intros Hi. unfold window. rewrite length_drop, length_take. lia. Qed.

Lemma Forall_window (P : float → Prop) (k i : nat) s :
  (∀ j x, S i - k ≤ j → j ≤ i → s !! j = Some x → P x) → Forall P (window k i s).
Proof.
  intros HP. apply Forall_lookup. intros m x Hm. unfold window in Hm.
  rewrite lookup_drop in Hm. apply lookup_take_Some in Hm as [Hm Hlt].
  apply (HP (S i - k + m)); [lia|lia|done].
Qed.

Lemma observations_all w : Forall (λ x, is_obs x = true) w → observations w = w.
Proof.
  unfold observations. induction 1 as [|x w Hx Hw IH]; [done|].
  rewrite filter_cons_True by done. by rewrite IH.
Qed.

Lemma foldl_fadd_positive w (a : Qc) :
  (0 < a)%Qc → Forall finite_positive w → ∃ u, foldl fadd (Fin a) w = Fin u ∧ (0 < u)%Qc.
Proof.
  intros Ha Hw. revert a Ha. induction Hw as [|x w (q & -> & Hq) Hw IH]; intros a Ha.
  - by exists a.
  - simpl. apply IH. by apply Qcplus_pos_pos.
Qed.

Lemma fsum_positive w : w ≠ [] → Forall finite_positive w → ∃ u, fsum w = Fin u ∧ (0 < u)%Qc.
Proof.
  intros Hne Hw. destruct Hw as [|x w (q & -> & Hq) Hw]; [done|].
  unfold fsum. simpl. apply foldl_fadd_positive; [|done]. by rewrite Qcplus_0_l.
Qed.

Lemma fsum_zero w : Forall (λ x, x = of_Z 0) w → fsum w = of_Z 0.
Proof.
  unfold fsum, of_Z. rewrite Z2Qc_inj_0.
  induction 1 as [|x w Hx Hw IH]; [done|].
  rewrite Hx. simpl. by rewrite Qcplus_0_l.
Qed.

Lemma Qc_of_nat_positive (k : nat) : 0 < k → (0 < Qc_of_Z (Z.of_nat k))%Qc.
Proof.
  intros Hk. rewrite <-Z2Qc_inj_0. apply (proj1 (Z2Qc_inj_lt 0 (Z.of_nat k))). lia.
Qed.

Lemma window_mean_positive (k : nat) w :
  0 < k → length w = k → Forall finite_positive w → finite_positive (window_mean k w).
Proof.
  intros Hk Hlen Hw. unfold window_mean.
  rewrite observations_all by (eapply Forall_impl; [done|]; by intros x (q & -> & _)).
  rewrite decide_True by lia.
  destruct (fsum_positive w) as (u & -> & Hu); [by destruct w; simpl in *; [lia|]|done|].
  pose proof (Qc_of_nat_positive (length w) ltac:(lia)) as Hpos.
  unfold of_Z. cbn [fdiv]. rewrite decide_False by (intros Heq; rewrite Heq in Hpos; done).
  eexists. split; [done|]. by apply Qcmult_pos_pos, Qcinv_pos.
Qed.

Lemma window_mean_zero (k : nat) w :
  0 < k → length w = k → Forall (λ x, x = of_Z 0) w → window_mean k w = of_Z 0.
Proof.
  intros Hk Hlen Hw. unfold window_mean.
  rewrite observations_all by (eapply Forall_impl; [done|]; by intros x ->).
  rewrite decide_True by lia. rewrite fsum_zero by done.
  pose proof (Qc_of_nat_positive (length w) ltac:(lia)) as Hpos.
  unfold of_Z. cbn [fdiv]. rewrite decide_False by (intros Heq; rewrite Heq in Hpos; done).
  f_equal. rewrite Z2Qc_inj_0. unfold Qcdiv. ring.
Qed.

Lemma rsi_of_rs_inf : rsi_of_rs PInf = of_Z 100.
Proof.
  unfold rsi_of_rs, of_Z. cbn [fadd fdiv fsub fneg]. f_equal. ring.
Qed.

Lemma lookup_rolling_mean n s i :
  (0 ≤ n)%Z → i < length s →
  ∃ means, rolling_mean n s = Returned means ∧ length means = length s ∧
    means !! i = Some (window_mean (Z.to_nat n) (window (Z.to_nat n) i s)).
Proof.
  intros Hn Hi. unfold rolling_mean, rolling. rewrite decide_False by lia.
  eexists. split; [done|]. split; [by rewrite length_imap|].
  rewrite list_lookup_imap. by destruct (lookup_lt_is_Some_2 s i Hi) as [x ->].
Qed.

(** What [calculate_rsi] writes at a position, from the two averages. *)
Lemma calculate_rsi_lookup (df : DataFrame) (column : string) s n (ups downs : Series)
    i (up down : float) :
  df !! column = Some s →
  rsi_avg_up n s = Returned ups → rsi_avg_down n s = Returned downs →
  ups !! i = Some up → downs !! i = Some down →
  ∃ rsi, calculate_rsi df column [n] = Returned (<["RSI" +:+ pretty n := rsi]> df) ∧
         rsi !! i = Some (rsi_of_rs (fdiv up down)).
Proof.
  intros Hcol Hups Hdowns Hup Hdown. unfold rsi_avg_up, rsi_avg_down in *.
  unfold calculate_rsi, get_column. rewrite Hcol. cbn [mbind outcome_bind].
  rewrite for_each_singleton, Hups. cbn [mbind outcome_bind]. rewrite Hdowns.
  cbn [mbind outcome_bind mret outcome_ret]. eexists. split; [done|].
  by rewrite list_lookup_fmap, lookup_zip_with, Hup, Hdown.
Qed.

Lemma rising_window_averages closes n i :
  strictly_increasing closes → (1 ≤ n)%Z → (n ≤ Z.of_nat i)%Z → i < length closes →
  ∃ ups downs up,
    rsi_avg_up n (Fin <$> closes) = Returned ups ∧
    rsi_avg_down n (Fin <$> closes) = Returned downs ∧
    ups !! i = Some up ∧ finite_positive up ∧ downs !! i = Some (of_Z 0).
Proof.
  intros Hinc Hn Hni Hi. unfold rsi_avg_up, rsi_avg_down.
  set (s := Fin <$> closes).
  assert (length s = length closes) as Hlen by (unfold s; by rewrite length_fmap).
  destruct (lookup_rolling_mean n (clip_negative (diff s)) i) as (ups & Hups & _ & Hup);
    [lia|by rewrite length_clip_negative, length_diff, Hlen|].
  destruct (lookup_rolling_mean n (clip_negative (fneg <$> diff s)) i)
    as (downs & Hdowns & _ & Hdown);
    [lia|by rewrite length_clip_negative, length_fmap, length_diff, Hlen|].
  exists ups, downs. eexists. split; [done|]. split; [done|]. split; [done|]. split.
  - apply window_mean_positive; [lia| |].
    + rewrite length_window by (by rewrite length_clip_negative, length_diff, Hlen). lia.
    + apply Forall_window. intros j x Hlo Hhi Hx.
      destruct j as [|j]; [lia|].
      destruct (lookup_up_increasing closes j Hinc) as (y & Hy & Hpos); [lia|].
      unfold s in Hx. by rewrite Hy in Hx; injection Hx as <-.
  - rewrite Hdown. f_equal. apply window_mean_zero; [lia| |].
    + rewrite length_window
        by (by rewrite length_clip_negative, length_fmap, length_diff, Hlen). lia.
    + apply Forall_window. intros j x Hlo Hhi Hx.
      destruct j as [|j]; [lia|].
      unfold s in Hx. rewrite lookup_down_increasing in Hx by (done || lia).
      by injection Hx as <-.
Qed.

(** C6 (as the code has it): where the windowed average of the down moves
    is exactly 0 and that of the up moves is finite_positive, the quotient is +inf
    and the RSI is exactly 100, without any exception; on strictly
    increasing closes this is so at every position from the n-th delta on
    (for n = 6: from the 6th). *)
Theorem rsi_is_100_without_down_moves :
  (∀ (df : DataFrame) (column : string) s n (ups downs : Series) i (up : Qc),
     df !! column = Some s →
     rsi_avg_up n s = Returned ups → rsi_avg_down n s = Returned downs →
     ups !! i = Some (Fin up) → (0 < up)%Qc → downs !! i = Some (of_Z 0) →
     ∃ rsi, calculate_rsi df column [n] = Returned (<["RSI" +:+ pretty n := rsi]> df) ∧
            rsi !! i = Some (of_Z 100)) ∧
  (∀ (df : DataFrame) (column : string) closes n i,
     df !! column = Some (Fin <$> closes) →
     strictly_increasing closes →
     (1 ≤ n)%Z → (n ≤ Z.of_nat i)%Z → i < length closes →
     ∃ rsi, calculate_rsi df column [n] = Returned (<["RSI" +:+ pretty n := rsi]> df) ∧
            rsi !! i = Some (of_Z 100)).
Proof.
  assert (∀ up : Qc, (0 < up)%Qc → rsi_of_rs (fdiv (Fin up) (of_Z 0)) = of_Z 100) as Hrsi.
  { intros up Hup. unfold of_Z at 1. cbn [fdiv].
    rewrite decide_True by apply Z2Qc_inj_0.
    unfold signed_inf. rewrite decide_True by done. apply rsi_of_rs_inf. }
  split.
  - intros df column s n ups downs i up Hcol Hups Hdowns Hup Hpos Hdown.
    destruct (calculate_rsi_lookup df column s n ups downs i (Fin up) (of_Z 0))
      as (rsi & Hrun & Hi); [done..|].
    exists rsi. split; [done|]. by rewrite Hi, Hrsi.
  - intros df column closes n i Hcol Hinc Hn Hni Hi.
    destruct (rising_window_averages closes n i)
      as (ups & downs & up & Hups & Hdowns & Hup & (q & -> & Hq) & Hdown); [done..|].
    destruct (calculate_rsi_lookup df column (Fin <$> closes) n ups downs i (Fin q) (of_Z 0))
      as (rsi & Hrun & Hrsi_i); [done..|].
    exists rsi. split; [done|]. by rewrite Hrsi_i, Hrsi.
Qed.

Lemma rising_closes_increase : strictly_increasing rising_closes.
Proof.
  intros i a b Ha Hb.
  do 8 (destruct i as [|i];
        [simpl in Ha, Hb; first [done | injection Ha as <-; injection Hb as <-; by vm_compute]|]).
  done.
Qed.

Lemma rsi_is_100_without_down_moves_witness :
  ∃ rsi, calculate_rsi rising_bars "close" [6%Z]
           = Returned (<["RSI" +:+ pretty 6%Z := rsi]> rising_bars) ∧
         rsi !! 6 = Some (of_Z 100).
Proof.
  apply (proj2 rsi_is_100_without_down_moves rising_bars "close" rising_closes 6%Z 6%nat).
  - done.
  - apply rising_closes_increase.
  - lia.
  - lia.
  - simpl. lia.
Defined.

(** C6 (as the specification words it) does not hold where the up moves
    average to 0 as well: on seven equal closes the average of the down
    moves at the 6th delta is exactly 0, the quotient is 0/0, and RSI(6)
    is undefined there, not 100. *)
Lemma rsi_is_undefined_on_flat_closes :
  flat_bars !! "close" = Some (replicate 7 (of_Z 5)) ∧
  (∃ downs, rsi_avg_down 6%Z (replicate 7 (of_Z 5)) = Returned downs ∧
            downs !! 6 = Some (of_Z 0)) ∧
  calculate_rsi flat_bars "close" [6%Z] = Returned (<["RSI6" := replicate 7 NaN]> flat_bars).
Proof.
  split; [done|]. split.
  - eexists. split; [reflexivity|]. by_evaluation.
  - by vm_compute.
Qed.

End relative_strength.

(** A condition that no evaluator knows, on a store with two dates. *)
Lemma unsupported_condition_is_empty_witness :
  filter_by_ma falling_price_store 20%Z "sideways" Close = [] ∧
  filter_by_macd falling_price_store "sideways" = [] ∧
  filter_by_kdj falling_price_store "sideways" = [] ∧
  filter_by_bollinger_bands falling_price_store "sideways" = [].
Proof.
  apply (unsupported_condition_is_empty falling_price_store 20%Z Close
           "sideways" "sideways" "sideways" "sideways");
    by_evaluation.
Defined.

(** ** Several periods in one call *)

(** The engine asks for all its periods at once ([5, 10, 20, 60] for the
    means, [6, 12, 24] for the RSI).  Each period writes a column of its
    own, so the column of a period is the one a call with that period
    alone writes: what is proved above of one period holds of each period
    of such a call. *)
Section several_periods.

Variables (key : Z → string) (value : Z → Series).
Hypothesis key_inj : Inj (=) (=) key.

Lemma lookup_foldl_insert_ne (periods : list Z) (df : DataFrame) (k : string) :
  Forall (λ p, key p ≠ k) periods →
  foldl (λ (r : DataFrame) p, <[key p := value p]> r) df periods !! k = df !! k.
Proof.
  intros Hne. revert df. induction Hne as [|p periods Hp Hne IH]; intros df; [done|].
  simpl. by rewrite IH, lookup_insert_ne.
Qed.

Lemma lookup_foldl_insert (periods : list Z) (df : DataFrame) (n : Z) :
  n ∈ periods →
  foldl (λ (r : DataFrame) p, <[key p := value p]> r) df periods !! key n = Some (value n).
Proof.
  revert df. induction periods as [|p periods IH]; intros df Hin; [by apply elem_of_nil in Hin|].
  simpl. destruct (decide (n ∈ periods)) as [Hn|Hn]; [by apply IH|].
  apply elem_of_cons in Hin as [->|Hin]; [|done].
  rewrite lookup_foldl_insert_ne, lookup_insert_eq; [done|].
  apply Forall_forall. intros q Hq Heq. apply key_inj in Heq as ->. done.
Qed.

Lemma for_each_inserts (I : DataFrame → Prop) (body : DataFrame → Z → outcome DataFrame)
    (periods : list Z) (df : DataFrame) :
  I df →
  (∀ result p, p ∈ periods → I result →
     body result p = Returned (<[key p := value p]> result) ∧ I (<[key p := value p]> result)) →
  for_each periods df body
  = Returned (foldl (λ (r : DataFrame) p, <[key p := value p]> r) df periods).
Proof.
  revert df. induction periods as [|p periods IH]; intros df HI Hbody; [done|].
  destruct (Hbody df p) as [Hrun HI']; [by left|done|].
  simpl. rewrite Hrun. cbn [mbind outcome_bind]. apply IH; [done|].
  intros result q Hq. apply Hbody. by right.
Qed.

End several_periods.

Section several_periods_of_the_engine.

Implicit Types (df : DataFrame) (s : Series) (periods : list Z) (n : Z).

Lemma column_name_inj (prefix : string) : Inj (=) (=) (λ p : Z, prefix +:+ pretty p).
Proof. intros p q Heq. by apply String.app_inj, pretty_Z_inj in Heq. Qed.

Lemma calculate_ma_periods df column s periods n :
  df !! column = Some s →
  Forall (λ p, (0 ≤ p)%Z ∧ "MA" +:+ pretty p ≠ column) periods →
  n ∈ periods →
  ∃ df' df_n,
    calculate_ma df column periods = Returned df' ∧
    calculate_ma df column [n] = Returned df_n ∧
    df' !! ("MA" +:+ pretty n) = df_n !! ("MA" +:+ pretty n).
Proof.
  intros Hcol Hperiods Hn.
  set (value := λ p : Z, imap (λ i _, window_mean (Z.to_nat p) (window (Z.to_nat p) i s)) s).
  assert (∀ ps, Forall (λ p, (0 ≤ p)%Z ∧ "MA" +:+ pretty p ≠ column) ps →
    calculate_ma df column ps
    = Returned (foldl (λ (r : DataFrame) p, <["MA" +:+ pretty p := value p]> r) df ps)) as Hrun.
  { intros ps Hps. unfold calculate_ma.
    apply (for_each_inserts _ value (λ result, result !! column = Some s)); [done|].
    intros result p Hp Hres. eapply Forall_forall in Hps as [Hpos Hne]; [|done].
    split; [|by rewrite lookup_insert_ne].
    unfold get_column. rewrite Hres. cbn [mbind outcome_bind].
    unfold rolling_mean, rolling. by rewrite decide_False by lia. }
  eexists _, _. split; [by apply Hrun|]. split.
  - apply Hrun. constructor; [|done]. by eapply Forall_forall in Hperiods.
  - rewrite (lookup_foldl_insert (λ p, "MA" +:+ pretty p) value (column_name_inj "MA")) by done.
    simpl. by rewrite lookup_insert_eq.
Qed.

Lemma calculate_ema_periods df column s periods n :
  df !! column = Some s →
  Forall (λ p, (1 ≤ p)%Z ∧ "EMA" +:+ pretty p ≠ column) periods →
  n ∈ periods →
  ∃ df' df_n,
    calculate_ema df column periods = Returned df' ∧
    calculate_ema df column [n] = Returned df_n ∧
    df' !! ("EMA" +:+ pretty n) = df_n !! ("EMA" +:+ pretty n).
Proof.
  intros Hcol Hperiods Hn.
  set (value := λ p : Z, ewm_mean (2 / (Qc_of_Z p + 1))%Qc s).
  assert (∀ ps, Forall (λ p, (1 ≤ p)%Z ∧ "EMA" +:+ pretty p ≠ column) ps →
    calculate_ema df column ps
    = Returned (foldl (λ (r : DataFrame) p, <["EMA" +:+ pretty p := value p]> r) df ps)) as Hrun.
  { intros ps Hps. unfold calculate_ema.
    apply (for_each_inserts _ value (λ result, result !! column = Some s)); [done|].
    intros result p Hp Hres. eapply Forall_forall in Hps as [Hpos Hne]; [|done].
    split; [|by rewrite lookup_insert_ne].
    unfold get_column. rewrite Hres. cbn [mbind outcome_bind].
    unfold ewm_span. by rewrite decide_False by lia. }
  eexists _, _. split; [by apply Hrun|]. split.
  - apply Hrun. constructor; [|done]. by eapply Forall_forall in Hperiods.
  - rewrite (lookup_foldl_insert (λ p, "EMA" +:+ pretty p) value (column_name_inj "EMA")) by done.
    simpl. by rewrite lookup_insert_eq.
Qed.

Lemma calculate_rsi_periods df column s periods n :
  df !! column = Some s →
  Forall (λ p, (0 ≤ p)%Z) periods →
  n ∈ periods →
  ∃ df' df_n,
    calculate_rsi df column periods = Returned df' ∧
    calculate_rsi df column [n] = Returned df_n ∧
    df' !! ("RSI" +:+ pretty n) = df_n !! ("RSI" +:+ pretty n).
Proof.
  intros Hcol Hperiods Hn.
  set (mean := λ (p : Z) (w : Series),
         imap (λ i _, window_mean (Z.to_nat p) (window (Z.to_nat p) i w)) w).
  set (value := λ p : Z,
         rsi_of_rs <$> zip_with fdiv (mean p (clip_negative (diff s)))
                                     (mean p (clip_negative (fneg <$> diff s)))).
  assert (∀ ps, Forall (λ p, (0 ≤ p)%Z) ps →
    calculate_rsi df column ps
    = Returned (foldl (λ (r : DataFrame) p, <["RSI" +:+ pretty p := value p]> r) df ps)) as Hrun.
  { intros ps Hps. unfold calculate_rsi, get_column. rewrite Hcol. cbn [mbind outcome_bind].
    apply (for_each_inserts _ value (λ _, True)); [done|].
    intros result p Hp _. eapply Forall_forall in Hps; [|done].
    split; [|done]. unfold rolling_mean, rolling. by rewrite !decide_False by lia. }
  eexists _, _. split; [by apply Hrun|]. split.
  - apply Hrun. constructor; [|done]. by eapply Forall_forall in Hperiods.
  - rewrite (lookup_foldl_insert (λ p, "RSI" +:+ pretty p) value (column_name_inj "RSI")) by done.
    simpl. by rewrite lookup_insert_eq.
Qed.

End several_periods_of_the_engine.

(** * Further properties of the filters *)

(** ** Ranges on the latest date *)

Section ranges.

Lemma sql_le_true (x y : option Qc) :
  sql_le x y = Some true ↔ ∃ a b, x = Some a ∧ y = Some b ∧ (a ≤ b)%Qc.
Proof.
  unfold sql_le. destruct x as [a|], y as [b|]; simpl; [|naive_solver..]. split.
  - intros [= H]. apply bool_decide_eq_true in H. by exists a, b.
  - intros (a' & b' & [= <-] & [= <-] & H). by rewrite bool_decide_eq_true_2.
Qed.

Lemma on_latest_date_true (dates : list string) (date : string) :
  on_latest_date dates date = Some true ↔ max_date dates = Some date.
Proof.
  unfold on_latest_date. destruct (max_date dates) as [latest|]; simpl; [|done].
  rewrite sql_text_eq_true. naive_solver.
Qed.

Lemma bounds_true (lowest highest : option Qc) (x : option Qc) :
  lower_bound lowest x = Some true → upper_bound highest x = Some true →
  in_range lowest highest x.
Proof.
  unfold lower_bound, upper_bound, sql_ge, in_range, within.
  intros Hlo Hhi.
  destruct lowest as [lo|], highest as [hi|]; [| | |done].
  - apply sql_le_true in Hlo as (a & b & [= <-] & -> & Hlo).
    apply sql_le_true in Hhi as (a' & b' & [= <-] & [= <-] & Hhi).
    exists b. naive_solver.
  - apply sql_le_true in Hlo as (a & b & [= <-] & -> & Hlo). exists b. naive_solver.
  - apply sql_le_true in Hhi as (a' & b' & -> & [= <-] & Hhi). exists a'. naive_solver.
Qed.

Lemma bounds_true_2 (lowest highest : option Qc) (x y : option Qc) :
  in_range lowest highest x → (is_Some lowest ∨ is_Some highest → y = x) →
  lower_bound lowest y = Some true ∧ upper_bound highest y = Some true.
Proof.
  unfold in_range, within, lower_bound, upper_bound, sql_ge. intros Hin Hy.
  destruct lowest as [lo|], highest as [hi|]; [| | |done].
  - destruct Hin as (v & -> & Hlo & Hhi). rewrite Hy by (left; by eexists).
    split; apply sql_le_true; [exists lo, v|exists v, hi]; naive_solver.
  - destruct Hin as (v & -> & Hlo & Hhi). rewrite Hy by (left; by eexists).
    split; [|done]. apply sql_le_true. exists lo, v. naive_solver.
  - destruct Hin as (v & -> & Hlo & Hhi). rewrite Hy by (right; by eexists).
    split; [done|]. apply sql_le_true. exists v, hi. naive_solver.
Qed.

(** A list without elements is the empty list. *)
Lemma no_elements {A : Type} (l : list A) : (∀ x, x ∉ l) → l = [].
Proof. destruct l as [|x l]; [done|]. intros H. destruct (H x). by left. Qed.

Lemma filter_by_price_in_range (db : Database) (lowest highest : option Qc) (c : string) :
  c ∈ filter_by_price db lowest highest →
  ∃ d, d ∈ daily_data db ∧ d_code d = c ∧
       max_date (d_date <$> daily_data db) = Some (d_date d) ∧
       in_range lowest highest (d_close d).
Proof.
  unfold filter_by_price, stock_codes. simpl.
  rewrite elem_of_remove_dups, list_elem_of_bind.
  intros (d & Hc & Hd). apply elem_of_emit in Hc as [Hcond ->].
  rewrite !sql_and_true in Hcond. destruct Hcond as [[Hdate Hlo] Hhi].
  exists d. repeat (split; [done|]). split; [by apply on_latest_date_true|].
  by apply bounds_true.
Qed.

(** X1: [filter_by_price] selects exactly the symbols that have a bar on
    the latest date of [daily_data] whose close is a number within the
    bounds given; without any bound it selects every symbol of that date,
    and a NULL close never meets a bound. *)
Theorem filter_by_price_selects (db : Database) (lowest highest : option Qc) (c : string) :
  c ∈ filter_by_price db lowest highest ↔
  ∃ d, d ∈ daily_data db ∧ d_code d = c ∧
       max_date (d_date <$> daily_data db) = Some (d_date d) ∧
       in_range lowest highest (d_close d).
Proof.
  split; [apply filter_by_price_in_range|].
  unfold filter_by_price, stock_codes. simpl.
  rewrite elem_of_remove_dups, list_elem_of_bind.
  intros (d & Hd & <- & Hdate & Hrange). exists d. split; [|done].
  apply elem_of_emit. split; [|done].
  destruct (bounds_true_2 lowest highest (d_close d) (d_close d)); [done..|].
  rewrite !sql_and_true. by rewrite on_latest_date_true.
Qed.

(** X2: a price range whose lower bound is above its upper bound selects
    nothing. *)
Theorem filter_by_price_empty_range (db : Database) (lowest highest : Qc) :
  (highest < lowest)%Qc → filter_by_price db (Some lowest) (Some highest) = [].
Proof.
  intros Hlt. apply no_elements. intros c Hc.
  apply filter_by_price_in_range in Hc as (d & _ & _ & _ & v & _ & Hlo & Hhi).
  apply (Qclt_not_le _ _ Hlt). etrans; [by apply Hlo|by apply Hhi].
Qed.

Lemma filter_by_price_empty_range_witness :
  filter_by_price two_symbol_store (Some (Qc_of_Z 50)) (Some (Qc_of_Z 10)) = [].
Proof.
  apply (filter_by_price_empty_range two_symbol_store (Qc_of_Z 50) (Qc_of_Z 10)).
  by vm_compute.
Defined.

Lemma rsi_column_read (period : Z) (rsi : IndicatorRow → option Qc)
    (lowest highest : option Qc) :
  rsi_column period = Some rsi →
  ∃ rsi', match lowest, highest with
          | None, None => Some (λ _ : IndicatorRow, None)
          | _, _ => rsi_column period
          end = Some rsi' ∧
          ∀ t, is_Some lowest ∨ is_Some highest → rsi' t = rsi t.
Proof.
  intros Hcol. destruct lowest, highest; rewrite ?Hcol; eexists; (split; [done|]);
    try done. by intros t [[? [=]]|[? [=]]].
Qed.

Lemma filter_by_rsi_in_range (db : Database) (period : Z) (rsi : IndicatorRow → option Qc)
    (lowest highest : option Qc) (c : string) :
  rsi_column period = Some rsi →
  c ∈ filter_by_rsi db period lowest highest →
  ∃ t, t ∈ technical_indicators db ∧ t_code t = c ∧
       max_date (t_date <$> technical_indicators db) = Some (t_date t) ∧
       in_range lowest highest (rsi t).
Proof.
  intros Hcol. unfold filter_by_rsi.
  destruct (rsi_column_read period rsi lowest highest Hcol) as (rsi' & -> & Hsame).
  unfold stock_codes. simpl. rewrite elem_of_remove_dups, list_elem_of_bind.
  intros (t & Hc & Ht). apply elem_of_emit in Hc as [Hcond ->].
  rewrite !sql_and_true in Hcond. destruct Hcond as [[Hdate Hlo] Hhi].
  exists t. repeat (split; [done|]). split; [by apply on_latest_date_true|].
  pose proof (bounds_true _ _ _ Hlo Hhi) as Hrange. unfold in_range in *.
  destruct lowest, highest; try done; rewrite <-Hsame; try done; auto.
Qed.

(** X3: for the periods 6, 12 and 24 [filter_by_rsi] selects exactly the
    symbols that have an indicator row on the latest date of
    [technical_indicators] whose RSI of that period is a number within the
    bounds given; an undefined (NULL) RSI never meets a bound. *)
Theorem filter_by_rsi_selects (db : Database) (period : Z) (rsi : IndicatorRow → option Qc)
    (lowest highest : option Qc) (c : string) :
  rsi_column period = Some rsi →
  c ∈ filter_by_rsi db period lowest highest ↔
  ∃ t, t ∈ technical_indicators db ∧ t_code t = c ∧
       max_date (t_date <$> technical_indicators db) = Some (t_date t) ∧
       in_range lowest highest (rsi t).
Proof.
  intros Hcol. split; [by apply filter_by_rsi_in_range|].
  unfold filter_by_rsi.
  destruct (rsi_column_read period rsi lowest highest Hcol) as (rsi' & -> & Hsame).
  unfold stock_codes. simpl. rewrite elem_of_remove_dups, list_elem_of_bind.
  intros (t & Ht & <- & Hdate & Hrange). exists t. split; [|done].
  apply elem_of_emit. split; [|done].
  destruct (bounds_true_2 lowest highest (rsi t) (rsi' t)); [done|by apply Hsame|].
  rewrite !sql_and_true. by rewrite on_latest_date_true.
Qed.

Lemma filter_by_rsi_selects_witness :
  "600000" ∈ filter_by_rsi two_symbol_store 6 (Some (Qc_of_Z 60)) None.
Proof.
  apply (filter_by_rsi_selects two_symbol_store 6 t_rsi6 (Some (Qc_of_Z 60)) None "600000");
    [done|].
  exists (sample_indicator "600000" "2024-01-02" 11 65 1 0 25 20).
  split; [unfold two_symbol_store; simpl; set_solver|]. split; [done|].
  split; [by vm_compute|].
  exists (Qc_of_Z 65). split; [done|]. split; [|done].
  intros b [= <-]. by vm_compute.
Defined.

Lemma filter_by_rsi_no_column (db : Database) (period : Z) (lowest highest : option Qc) :
  rsi_column period = None → is_Some lowest ∨ is_Some highest →
  filter_by_rsi db period lowest highest = [].
Proof.
  intros Hcol Hbound. unfold filter_by_rsi.
  destruct Hbound as [[lo ->]|[hi ->]]; [|destruct lowest]; by rewrite Hcol.
Qed.

(** X4: for every period other than 6, 12 and 24 (the default 14 is one),
    [filter_by_rsi] with a bound names a column that the table does not
    have; the failure of the query is swallowed and the result is empty. *)
Theorem filter_by_rsi_unknown_period (db : Database) (period : Z)
    (lowest highest : option Qc) :
  period ∉ [6; 12; 24]%Z →
  is_Some lowest ∨ is_Some highest →
  filter_by_rsi db period lowest highest = [].
Proof.
  intros Hperiod. apply filter_by_rsi_no_column.
  unfold rsi_column. rewrite !decide_False; [done|set_solver..].
Qed.

Lemma filter_by_rsi_unknown_period_witness :
  filter_by_rsi two_symbol_store 14 (Some (Qc_of_Z 30)) (Some (Qc_of_Z 70)) = [].
Proof.
  apply (filter_by_rsi_unknown_period two_symbol_store 14 (Some (Qc_of_Z 30))
           (Some (Qc_of_Z 70))).
  - apply (bool_decide_unpack _). by vm_compute.
  - left. by eexists.
Defined.

(** X5: for every period other than 5, 10, 20 and 60 [filter_by_ma] is
    empty, whatever the relation: the query names a column [ma<period>]
    that the table does not have. *)
Theorem filter_by_ma_unknown_period (db : Database) (period : Z) (relation : string)
    (price : price_column) :
  period ∉ [5; 10; 20; 60]%Z →
  filter_by_ma db period relation price = [].
Proof.
  intros Hperiod. unfold filter_by_ma.
  assert (ma_column period = None) as ->.
  { unfold ma_column. rewrite !decide_False; [done|set_solver..]. }
  repeat case_decide; try done; by destruct (latest_two_dates _) as [|? [|? ?]].
Qed.

Lemma filter_by_ma_unknown_period_witness :
  filter_by_ma two_symbol_store 30 "above" Close = [].
Proof.
  apply (filter_by_ma_unknown_period two_symbol_store 30 "above" Close).
  apply (bool_decide_unpack _). by vm_compute.
Defined.

End ranges.

(** ** Conditions that exclude each other *)

Section exclusive_conditions.

Implicit Types (db : Database) (c : string).

#[local] Arguments sql_lt : simpl never.
#[local] Arguments sql_gt : simpl never.

Lemma elem_of_select_latest db (latest_date : string)
    (cond : IndicatorRow → option bool) c :
  c ∈ select_latest db latest_date cond ↔
  ∃ t, t ∈ technical_indicators db ∧ t_code t = c ∧ t_date t = latest_date ∧
       cond t = Some true.
Proof.
  unfold select_latest. rewrite elem_of_remove_dups, list_elem_of_bind. split.
  - intros (t & Hc & Ht). apply elem_of_emit in Hc as [Hcond ->].
    rewrite !sql_and_true, !sql_text_eq_true in Hcond. destruct Hcond. by exists t.
  - intros (t & Ht & <- & <- & Hcond). exists t. split; [|done].
    apply elem_of_emit. by rewrite !sql_and_true, !sql_text_eq_true.
Qed.

Lemma sql_lt_gt_exclusive (x y : option Qc) :
  sql_lt x y = Some true → sql_gt x y = Some true → False.
Proof.
  unfold sql_gt. rewrite !sql_lt_true.
  intros (a & b & -> & -> & Hlt) (b' & a' & [= <-] & [= <-] & Hgt).
  by apply (Qclt_not_le _ _ Hlt), Qclt_le_weak.
Qed.

Lemma select_pairs_exclusive db (latest_date prev_date : string)
    (cond cond' : IndicatorRow → IndicatorRow → option bool) c :
  unique_indicators db →
  (∀ t1 t2, cond t1 t2 = Some true → cond' t1 t2 = Some true → False) →
  c ∈ select_pairs db latest_date prev_date cond →
  c ∈ select_pairs db latest_date prev_date cond' → False.
Proof.
  intros Huniq Hexcl
    (t1 & t2 & Ht1 & Ht2 & Hc1 & Hc2 & Hd1 & Hd2 & Hcond)%elem_of_select_pairs
    (t1' & t2' & Ht1' & Ht2' & Hc1' & Hc2' & Hd1' & Hd2' & Hcond')%elem_of_select_pairs.
  assert (t1' = t1) as -> by (apply Huniq; congruence).
  assert (t2' = t2) as -> by (apply Huniq; congruence).
  by eapply Hexcl.
Qed.

Lemma select_latest_exclusive db (latest_date : string)
    (cond cond' : IndicatorRow → option bool) c :
  unique_indicators db →
  (∀ t, cond t = Some true → cond' t = Some true → False) →
  c ∈ select_latest db latest_date cond →
  c ∈ select_latest db latest_date cond' → False.
Proof.
  intros Huniq Hexcl (t & Ht & Hc & Hd & Hcond)%elem_of_select_latest
    (t' & Ht' & Hc' & Hd' & Hcond')%elem_of_select_latest.
  assert (t' = t) as -> by (apply Huniq; congruence).
  by eapply Hexcl.
Qed.

(** The two halves of a crossing, and of a two-sided static condition. *)
Ltac exclusive_lines :=
  intros; cbv beta in *;
  repeat match goal with
  | H : _ &&& _ = Some true |- _ => apply sql_and_true in H as [? ?]
  end;
  match goal with
  | H1 : sql_lt ?x ?y = Some true, H2 : sql_gt ?x ?y = Some true |- _ =>
      exact (sql_lt_gt_exclusive x y H1 H2)
  end.

(** X6: when the indicator table holds one row for a symbol and a date
    (its UNIQUE constraint), no symbol is at once a MACD golden cross and
    a dead cross, nor at once "positive" and "negative". *)
Theorem macd_conditions_exclude_each_other db c :
  unique_indicators db →
  ¬ (c ∈ filter_by_macd db "golden_cross" ∧ c ∈ filter_by_macd db "dead_cross") ∧
  ¬ (c ∈ filter_by_macd db "positive" ∧ c ∈ filter_by_macd db "negative").
Proof.
  intros Huniq. unfold filter_by_macd.
  destruct (latest_two_dates _) as [|latest [|prev rest]];
    [by split; intros [?%elem_of_nil _]..|].
  split; intros [H1 H2]; simpl in H1, H2.
  - eapply (select_pairs_exclusive db latest prev); [done| |exact H1|exact H2].
    exclusive_lines.
  - eapply (select_latest_exclusive db latest); [done| |exact H1|exact H2].
    exclusive_lines.
Qed.

(** X7: under the same constraint no symbol is at once a KDJ golden cross
    and a dead cross, nor at once oversold and overbought. *)
Theorem kdj_conditions_exclude_each_other db c :
  unique_indicators db →
  ¬ (c ∈ filter_by_kdj db "golden_cross" ∧ c ∈ filter_by_kdj db "dead_cross") ∧
  ¬ (c ∈ filter_by_kdj db "oversold" ∧ c ∈ filter_by_kdj db "overbought").
Proof.
  intros Huniq. unfold filter_by_kdj.
  destruct (latest_two_dates _) as [|latest [|prev rest]];
    [by split; intros [?%elem_of_nil _]..|].
  split; intros [H1 H2]; simpl in H1, H2.
  - eapply (select_pairs_exclusive db latest prev); [done| |exact H1|exact H2].
    exclusive_lines.
  - eapply (select_latest_exclusive db latest); [done| |exact H1|exact H2].
    intros t [Hk _]%sql_and_true [Hk' _]%sql_and_true.
    apply sql_lt_true in Hk as (k & twenty & Hk & [= <-] & Hlt).
    unfold sql_gt in Hk'. apply sql_lt_true in Hk' as (eighty & k' & [= <-] & Hk' & Hgt).
    rewrite Hk in Hk'. injection Hk' as <-.
    apply (Qclt_not_le _ _ Hlt). apply Qclt_le_weak. etrans; [|exact Hgt]. by vm_compute.
Qed.

Lemma two_symbol_store_unique : unique_bars two_symbol_store ∧ unique_indicators two_symbol_store.
Proof.
  split; intros r1 r2 H1 H2 Hcode Hdate; unfold two_symbol_store in H1, H2; simpl in H1, H2;
    set_unfold;
    repeat match goal with H : _ ∨ _ |- _ => destruct H end; subst; done.
Qed.

Lemma macd_conditions_exclude_each_other_witness :
  "600000" ∈ filter_by_macd two_symbol_store "golden_cross" ∧
  ¬ ("600000" ∈ filter_by_macd two_symbol_store "golden_cross" ∧
     "600000" ∈ filter_by_macd two_symbol_store "dead_cross").
Proof.
  split; [apply (bool_decide_unpack _); by vm_compute|].
  apply (macd_conditions_exclude_each_other two_symbol_store "600000").
  apply two_symbol_store_unique.
Defined.

Lemma kdj_conditions_exclude_each_other_witness :
  "600000" ∈ filter_by_kdj two_symbol_store "golden_cross" ∧
  ¬ ("600000" ∈ filter_by_kdj two_symbol_store "golden_cross" ∧
     "600000" ∈ filter_by_kdj two_symbol_store "dead_cross").
Proof.
  split; [apply (bool_decide_unpack _); by vm_compute|].
  apply (kdj_conditions_exclude_each_other two_symbol_store "600000").
  apply two_symbol_store_unique.
Defined.

End exclusive_conditions.

(** ** Price against its moving average *)

Section price_and_average.

Implicit Types (db : Database) (c : string) (dates : list string).

#[local] Arguments sql_lt : simpl never.
#[local] Arguments sql_gt : simpl never.
#[local] Arguments sql_and : simpl never.
#[local] Arguments sql_text_eq : simpl never.

#[local] Instance date_order_trans : Transitive date_ge.
Proof. intros a b c' Hab Hbc. unfold date_ge in *. by eapply string_leb_trans. Qed.

#[local] Instance date_order_total : Total date_ge.
Proof. intros a b. unfold date_ge. destruct (String.leb_total a b); auto. Qed.

Lemma date_ge_antisym (a b : string) : date_ge a b → date_ge b a → a = b.
Proof. unfold date_ge. intros Hab Hba. by apply String.leb_antisym. Qed.

(** The head of a list sorted downwards is its greatest element. *)
Lemma head_merge_sort_greatest dates (a : string) :
  head (merge_sort date_ge dates) = Some a →
  a ∈ dates ∧ ∀ d, d ∈ dates → date_ge a d.
Proof.
  intros Hhead.
  pose proof (StronglySorted_merge_sort date_ge dates) as Hsorted.
  pose proof (merge_sort_Permutation date_ge dates) as Hperm.
  destruct (merge_sort date_ge dates) as [|x sorted]; [done|]. injection Hhead as ->.
  apply StronglySorted_inv in Hsorted as [_ Hall].
  split; [rewrite <-Hperm; by left|].
  intros d Hd. rewrite <-Hperm in Hd. apply elem_of_cons in Hd as [->|Hd].
  - by destruct (date_order_total a a).
  - by eapply Forall_forall in Hall.
Qed.

(** The latest date of the two-date query is the MAX(date) of the table. *)
Lemma latest_date_is_max_date dates (latest_date prev_date : string) (rest : list string) :
  latest_two_dates dates = latest_date :: prev_date :: rest →
  max_date dates = Some latest_date.
Proof.
  unfold latest_two_dates, max_date. intros Htake.
  assert (head (merge_sort date_ge (remove_dups dates)) = Some latest_date) as Hhead.
  { destruct (merge_sort date_ge (remove_dups dates)) as [|x [|y l]]; simpl in *; congruence. }
  apply head_merge_sort_greatest in Hhead as [Hin Hmax].
  rewrite elem_of_remove_dups in Hin.
  destruct (head (merge_sort date_ge dates)) as [m|] eqn:Hm.
  - apply head_merge_sort_greatest in Hm as [Hmin Hmmax]. f_equal.
    apply date_ge_antisym; [by apply Hmmax|]. apply Hmax. by rewrite elem_of_remove_dups.
  - pose proof (merge_sort_Permutation date_ge dates) as Hperm.
    destruct (merge_sort date_ge dates); [|done].
    rewrite <-Hperm in Hin. by apply elem_of_nil in Hin.
Qed.

Lemma elem_of_filter_by_ma_static db (period : Z) (ma : IndicatorRow → option Qc)
    (relation : string) (price : price_column) c :
  ma_column period = Some ma →
  relation = "above" ∨ relation = "below" →
  c ∈ filter_by_ma db period relation price ↔
  ∃ d t, d ∈ daily_data db ∧ t ∈ technical_indicators db ∧
    d_code d = c ∧ t_code t = c ∧ t_date t = d_date d ∧
    max_date (d_date <$> daily_data db) = Some (d_date d) ∧
    (if decide (relation = "above")
     then sql_gt (daily_value price d) (ma t)
     else sql_lt (daily_value price d) (ma t)) = Some true.
Proof.
  intros Hma Hrel. unfold filter_by_ma. rewrite decide_True by done. rewrite Hma.
  unfold stock_codes. simpl. rewrite elem_of_remove_dups, list_elem_of_bind. split.
  - intros (d & (t & Hc & Ht)%list_elem_of_bind & Hd).
    apply elem_of_emit in Hc as [Hcond ->].
    rewrite !sql_and_true, !sql_text_eq_true in Hcond.
    destruct Hcond as [[[Hcode Hdate] Hlatest] Hcmp].
    exists d, t. repeat (split; [done|]). split; [|done].
    by apply (on_latest_date_true (d_date <$> daily_data db)).
  - intros (d & t & Hd & Ht & <- & Hcode & Hdate & Hlatest & Hcmp).
    exists d. split; [|done]. apply list_elem_of_bind. exists t. split; [|done].
    apply elem_of_emit. split; [|done].
    rewrite !sql_and_true, !sql_text_eq_true. repeat split; [done..| |done].
    by apply (on_latest_date_true (d_date <$> daily_data db)).
Qed.

Lemma elem_of_filter_by_ma_cross db (period : Z) (ma : IndicatorRow → option Qc)
    (relation : string) (price : price_column) (latest_date prev_date : string)
    (rest : list string) c :
  ma_column period = Some ma →
  relation = "cross_above" ∨ relation = "cross_below" →
  latest_two_dates (d_date <$> daily_data db) = latest_date :: prev_date :: rest →
  c ∈ filter_by_ma db period relation price →
  ∃ d1 t1 d2 t2,
    d1 ∈ daily_data db ∧ t1 ∈ technical_indicators db ∧
    d2 ∈ daily_data db ∧ t2 ∈ technical_indicators db ∧
    d_code d1 = c ∧ t_code t1 = c ∧ d_code d2 = c ∧ t_code t2 = c ∧
    d_date d1 = latest_date ∧ t_date t1 = latest_date ∧
    d_date d2 = prev_date ∧ t_date t2 = prev_date ∧
    (if decide (relation = "cross_above")
     then sql_lt (daily_value price d2) (ma t2) &&& sql_gt (daily_value price d1) (ma t1)
     else sql_gt (daily_value price d2) (ma t2) &&& sql_lt (daily_value price d1) (ma t1))
    = Some true.
Proof.
  intros Hma Hrel Hdates. unfold filter_by_ma.
  rewrite decide_False by (intros [?|?]; destruct Hrel; congruence).
  rewrite decide_True by done. rewrite Hdates, Hma.
  unfold stock_codes. simpl. rewrite elem_of_remove_dups.
  intros (d1 & (t1 & (d2 & (t2 & Hc & Ht2)%list_elem_of_bind & Hd2)%list_elem_of_bind
              & Ht1)%list_elem_of_bind & Hd1)%list_elem_of_bind.
  apply elem_of_emit in Hc as [Hcond ->].
  rewrite !sql_and_true, !sql_text_eq_true in Hcond.
  destruct Hcond as [[[[[[[Hc1 Hdt1] Hc12] Hd2p] Hc2] Hdt2] Hd1l] Hcmp].
  exists d1, t1, d2, t2. repeat (split; [done || congruence|]). done.
Qed.

(** X8: for the periods 5, 10, 20 and 60, "above" selects exactly the
    symbols whose bar on the latest date has a price strictly above the
    moving average stored for that symbol and date, and "below" those
    strictly below it; a symbol whose average is undefined (NULL) or that
    has no indicator row on that date is in neither. *)
Theorem filter_by_ma_static_selects db (period : Z) (ma : IndicatorRow → option Qc)
    (price : price_column) c :
  ma_column period = Some ma →
  (c ∈ filter_by_ma db period "above" price ↔
   ∃ d t close average, d ∈ daily_data db ∧ t ∈ technical_indicators db ∧
     d_code d = c ∧ t_code t = c ∧ t_date t = d_date d ∧
     max_date (d_date <$> daily_data db) = Some (d_date d) ∧
     daily_value price d = Some close ∧ ma t = Some average ∧ (average < close)%Qc) ∧
  (c ∈ filter_by_ma db period "below" price ↔
   ∃ d t close average, d ∈ daily_data db ∧ t ∈ technical_indicators db ∧
     d_code d = c ∧ t_code t = c ∧ t_date t = d_date d ∧
     max_date (d_date <$> daily_data db) = Some (d_date d) ∧
     daily_value price d = Some close ∧ ma t = Some average ∧ (close < average)%Qc).
Proof.
  intros Hma. split; split.
  - intros Hin.
    apply (elem_of_filter_by_ma_static db period ma "above" price c Hma) in Hin; [|by left].
    destruct Hin as (d & t & Hd & Ht & Hc & Hc' & Hdate & Hmax & Hcmp).
    rewrite decide_True in Hcmp by done.
    apply sql_lt_true in Hcmp as (average & close & Havg & Hclose & Hlt).
    by exists d, t, close, average.
  - intros (d & t & close & average & Hd & Ht & Hc & Hc' & Hdate & Hmax & Hclose & Havg & Hlt).
    apply (elem_of_filter_by_ma_static db period ma "above" price c Hma); [by left|].
    exists d, t. repeat (split; [done|]). rewrite decide_True by done.
    apply sql_lt_true. by exists average, close.
  - intros Hin.
    apply (elem_of_filter_by_ma_static db period ma "below" price c Hma) in Hin; [|by right].
    destruct Hin as (d & t & Hd & Ht & Hc & Hc' & Hdate & Hmax & Hcmp).
    rewrite decide_False in Hcmp by done.
    apply sql_lt_true in Hcmp as (close & average & Hclose & Havg & Hlt).
    by exists d, t, close, average.
  - intros (d & t & close & average & Hd & Ht & Hc & Hc' & Hdate & Hmax & Hclose & Havg & Hlt).
    apply (elem_of_filter_by_ma_static db period ma "below" price c Hma); [by right|].
    exists d, t. repeat (split; [done|]). rewrite decide_False by done.
    apply sql_lt_true. by exists close, average.
Qed.

Lemma filter_by_ma_static_selects_witness :
  "600000" ∈ filter_by_ma two_symbol_store 5 "above" Close.
Proof.
  apply (filter_by_ma_static_selects two_symbol_store 5 t_ma5 Close "600000"); [done|].
  exists (sample_bar "600000" "2024-01-02" 12 3),
         (sample_indicator "600000" "2024-01-02" 11 65 1 0 25 20),
         (Qc_of_Z 12), (Qc_of_Z 11).
  unfold two_symbol_store; simpl.
  split; [set_solver|]. split; [set_solver|]. do 3 (split; [done|]).
  split; [by vm_compute|]. do 2 (split; [done|]). by vm_compute.
Defined.

(** X9: when both tables hold one row for a symbol and a date, no symbol
    is at once "above" and "below" its moving average, every symbol that
    crossed above is above and every symbol that crossed below is below,
    and no symbol crossed both ways. *)
Theorem ma_relations_are_consistent db (period : Z) (price : price_column) c :
  unique_bars db → unique_indicators db →
  ¬ (c ∈ filter_by_ma db period "above" price ∧ c ∈ filter_by_ma db period "below" price) ∧
  (c ∈ filter_by_ma db period "cross_above" price → c ∈ filter_by_ma db period "above" price) ∧
  (c ∈ filter_by_ma db period "cross_below" price → c ∈ filter_by_ma db period "below" price) ∧
  ¬ (c ∈ filter_by_ma db period "cross_above" price ∧
     c ∈ filter_by_ma db period "cross_below" price).
Proof.
  intros Hbars Hind.
  destruct (ma_column period) as [ma|] eqn:Hma; cycle 1.
  { assert (∀ relation, filter_by_ma db period relation price = []) as Hnone.
    { intros relation. unfold filter_by_ma. rewrite Hma.
      repeat case_decide; try done; by destruct (latest_two_dates _) as [|? [|? ?]]. }
    rewrite !Hnone. repeat split; by intros ?%elem_of_nil || by intros [?%elem_of_nil _]. }
  assert (¬ (c ∈ filter_by_ma db period "above" price
             ∧ c ∈ filter_by_ma db period "below" price)) as Hstatic.
  { intros [Ha Hb].
    apply (elem_of_filter_by_ma_static db period ma "above" price c Hma) in Ha; [|by left].
    apply (elem_of_filter_by_ma_static db period ma "below" price c Hma) in Hb; [|by right].
    destruct Ha as (d & t & Hd & Ht & Hc & Hc' & Hdate & Hmax & Ha).
    destruct Hb as (d' & t' & Hd' & Ht' & Hc2 & Hc2' & Hdate' & Hmax' & Hb).
    assert (d' = d) as -> by (apply Hbars; congruence).
    assert (t' = t) as -> by (apply Hind; congruence).
    rewrite decide_True in Ha by done. rewrite decide_False in Hb by done.
    by eapply sql_lt_gt_exclusive. }
  assert (∀ relation, relation = "cross_above" ∨ relation = "cross_below" →
            c ∈ filter_by_ma db period relation price →
            c ∈ filter_by_ma db period
                  (if decide (relation = "cross_above") then "above" else "below") price)
    as Hcross.
  { intros relation Hrel Hin.
    destruct (latest_two_dates (d_date <$> daily_data db)) as [|latest [|prev rest]] eqn:Hdates.
    1,2: unfold filter_by_ma in Hin;
         rewrite decide_False in Hin by (intros [?|?]; destruct Hrel; congruence);
         rewrite decide_True, Hdates in Hin by done; by apply elem_of_nil in Hin.
    pose proof (latest_date_is_max_date _ _ _ _ Hdates) as Hmax.
    destruct (elem_of_filter_by_ma_cross db period ma relation price latest prev rest c Hma Hrel
                Hdates Hin)
      as (d1 & t1 & d2 & t2 & Hd1 & Ht1 & Hd2 & Ht2 & Hc1 & Hc1' & Hc2 & Hc2' &
          Hl1 & Hl1' & Hp2 & Hp2' & Hcmp).
    apply (elem_of_filter_by_ma_static db period ma); [done|case_decide; auto|].
    exists d1, t1. repeat (split; [done || congruence|]).
    destruct Hrel as [-> | ->].
    - rewrite decide_True in Hcmp by done. rewrite !decide_True by done.
      by apply sql_and_true in Hcmp as [_ ?].
    - rewrite decide_False in Hcmp by done. rewrite !decide_False by done.
      by apply sql_and_true in Hcmp as [_ ?]. }
  split; [done|]. split; [|split].
  - intros Hin. by apply (Hcross "cross_above") in Hin; [|by left].
  - intros Hin. by apply (Hcross "cross_below") in Hin; [|by right].
  - intros [Ha Hb]. apply Hstatic. split.
    + by apply (Hcross "cross_above") in Ha; [|by left].
    + by apply (Hcross "cross_below") in Hb; [|by right].
Qed.

Lemma ma_relations_are_consistent_witness :
  "600000" ∈ filter_by_ma two_symbol_store 5 "cross_above" Close ∧
  "600000" ∈ filter_by_ma two_symbol_store 5 "above" Close.
Proof.
  assert ("600000" ∈ filter_by_ma two_symbol_store 5 "cross_above" Close) as Hcross
    by (apply (bool_decide_unpack _); by vm_compute).
  split; [done|].
  by apply (ma_relations_are_consistent two_symbol_store 5 Close "600000");
    [apply two_symbol_store_unique..|].
Defined.

End price_and_average.

(** ** Results as sets of symbols of the store *)

Section results_are_sets.

Implicit Types (db : Database) (c : string) (cfg : FilterConfig).

#[local] Arguments sql_lt : simpl never.
#[local] Arguments sql_gt : simpl never.
#[local] Arguments sql_and : simpl never.
#[local] Arguments sql_text_eq : simpl never.

Lemma set_of_store_nil db : set_of_store db [].
Proof. split; [constructor|]. by intros c ?%elem_of_nil. Qed.

Lemma bar_symbol db (d : DailyRow) : d ∈ daily_data db → d_code d ∈ store_symbols db.
Proof. intros Hd. apply elem_of_app. left. apply list_elem_of_fmap. by exists d. Qed.

Lemma indicator_symbol db (t : IndicatorRow) :
  t ∈ technical_indicators db → t_code t ∈ store_symbols db.
Proof. intros Ht. apply elem_of_app. right. apply list_elem_of_fmap. by exists t. Qed.

Ltac rows_of_the_store :=
  repeat match goal with
  | H : _ ∈ remove_dups _ |- _ => rewrite elem_of_remove_dups in H
  | H : _ ∈ _ ≫= _ |- _ => apply list_elem_of_bind in H as (? & H & ?)
  | H : _ ∈ emit _ _ |- _ => apply elem_of_emit in H as [_ ->]
  end;
  by (apply bar_symbol || apply indicator_symbol).

Ltac set_of_rows :=
  split; [apply NoDup_remove_dups|intros ? ?; rows_of_the_store].

Lemma select_pairs_set db latest prev cond : set_of_store db (select_pairs db latest prev cond).
Proof. unfold select_pairs. set_of_rows. Qed.

Lemma select_latest_set db latest cond : set_of_store db (select_latest db latest cond).
Proof. unfold select_latest. set_of_rows. Qed.

Lemma select_quads_set db latest prev cond : set_of_store db (select_quads db latest prev cond).
Proof. unfold select_quads. set_of_rows. Qed.

(** The branches of an evaluator, one by one. *)
Ltac branches :=
  cbv zeta;
  repeat match goal with
  | |- set_of_store _ [] => apply set_of_store_nil
  | |- set_of_store _ (select_pairs _ _ _ _) => apply select_pairs_set
  | |- set_of_store _ (select_latest _ _ _) => apply select_latest_set
  | |- set_of_store _ (select_quads _ _ _ _) => apply select_quads_set
  | |- set_of_store _ (remove_dups _) => set_of_rows
  | |- set_of_store _ (stock_codes None) => apply set_of_store_nil
  | |- set_of_store _ (stock_codes (Some _)) => cbn [stock_codes default from_option id]
  | |- set_of_store _ (stock_codes (?x ≫= _)) => destruct x; cbn [mbind option_bind]
  | |- set_of_store _ (stock_codes (match ?x with _ => _ end)) => destruct x
  | |- set_of_store _ (match ?x with _ => _ end) => destruct x
  end.

Lemma filter_by_price_set db lowest highest : set_of_store db (filter_by_price db lowest highest).
Proof. unfold filter_by_price. branches. Qed.

Lemma filter_by_rsi_set db period lowest highest :
  set_of_store db (filter_by_rsi db period lowest highest).
Proof. unfold filter_by_rsi. branches. Qed.

Lemma filter_by_ma_set db period relation price :
  set_of_store db (filter_by_ma db period relation price).
Proof. unfold filter_by_ma. branches. Qed.

Lemma filter_by_macd_set db condition : set_of_store db (filter_by_macd db condition).
Proof. unfold filter_by_macd. branches. Qed.

Lemma filter_by_kdj_set db condition : set_of_store db (filter_by_kdj db condition).
Proof. unfold filter_by_kdj. branches. Qed.

Lemma filter_by_bollinger_bands_set db condition :
  set_of_store db (filter_by_bollinger_bands db condition).
Proof. unfold filter_by_bollinger_bands. branches. Qed.

Lemma filter_by_volume_set db condition threshold :
  set_of_store db (filter_by_volume db condition threshold).
Proof. unfold filter_by_volume. branches. Qed.

Lemma collect_filters_sets db cfg : Forall (set_of_store db) (collect_filters db cfg).
Proof.
  unfold collect_filters.
  repeat (apply Forall_app_2);
    repeat match goal with |- context [match ?x with _ => _ end] => destruct x end;
    (apply Forall_nil_2 || apply Forall_singleton);
    auto using filter_by_price_set, filter_by_rsi_set, filter_by_ma_set, filter_by_macd_set,
      filter_by_kdj_set, filter_by_bollinger_bands_set, filter_by_volume_set.
Qed.

Lemma elem_of_combine_some (results : list (list string)) (logic : string) c :
  c ∈ combine_filters results logic → ∃ codes, codes ∈ results ∧ c ∈ codes.
Proof.
  intros Hc. destruct (decide (results = [])) as [->|Hne]; [by apply elem_of_nil in Hc|].
  destruct (decide (logic = "and")) as [->|Hlogic].
  - rewrite elem_of_combine_and in Hc by done.
    destruct results as [|first rest]; [done|].
    exists first. split; [by left|]. apply Hc. by left.
  - by rewrite elem_of_combine_or in Hc.
Qed.

Lemma combine_filters_set db (results : list (list string)) (logic : string) :
  Forall (set_of_store db) results → set_of_store db (combine_filters results logic).
Proof.
  intros Hsets. split.
  - destruct results as [|first [|second rest]]; [constructor| |].
    + by apply Forall_inv in Hsets as [? _].
    + unfold combine_filters. case_decide; apply NoDup_elements.
  - intros c (codes & Hcodes & Hc)%elem_of_combine_some.
    eapply Forall_forall in Hsets as [_ Hsub]; [|done]. by apply Hsub.
Qed.

(** X10: what [apply_filters] returns, whatever the configuration, and
    what each evaluator returns, is a set of symbols of the store: it lists
    each symbol at most once, and each symbol it lists is the code of a row
    of [daily_data] or of [technical_indicators]. *)
Theorem results_are_sets_of_stored_symbols db cfg :
  set_of_store db (apply_filters db cfg) ∧
  (∀ lowest highest, set_of_store db (filter_by_price db lowest highest)) ∧
  (∀ period relation price, set_of_store db (filter_by_ma db period relation price)) ∧
  (∀ period lowest highest, set_of_store db (filter_by_rsi db period lowest highest)) ∧
  (∀ condition, set_of_store db (filter_by_macd db condition)) ∧
  (∀ condition, set_of_store db (filter_by_kdj db condition)) ∧
  (∀ condition threshold, set_of_store db (filter_by_volume db condition threshold)) ∧
  (∀ condition, set_of_store db (filter_by_bollinger_bands db condition)).
Proof.
  split; [apply (combine_filters_set db), collect_filters_sets|].
  split; [intros; apply filter_by_price_set|].
  split; [intros; apply filter_by_ma_set|].
  split; [intros; apply filter_by_rsi_set|].
  split; [intros; apply filter_by_macd_set|].
  split; [intros; apply filter_by_kdj_set|].
  split; [intros; apply filter_by_volume_set|].
  intros; apply filter_by_bollinger_bands_set.
Qed.

End results_are_sets.

(** ** The configuration driver *)

Section configurations.

Implicit Types (db : Database) (c : string) (cfg : FilterConfig).

Lemma apply_filters_and db cfg (codes : list string) c :
  default "and" (cfg_logic cfg) = "and" →
  codes ∈ collect_filters db cfg →
  c ∈ apply_filters db cfg → c ∈ codes.
Proof.
  intros Hlogic Hcodes. unfold apply_filters. rewrite Hlogic.
  rewrite elem_of_combine_and; [by intros Hall; apply Hall|].
  intros Hnil. rewrite Hnil in Hcodes. by apply elem_of_nil in Hcodes.
Qed.

Lemma apply_filters_and_nil db cfg :
  default "and" (cfg_logic cfg) = "and" →
  [] ∈ collect_filters db cfg →
  apply_filters db cfg = [].
Proof.
  intros Hlogic Hnil. apply no_elements. intros c Hc.
  by apply (apply_filters_and db cfg [] c Hlogic Hnil), elem_of_nil in Hc.
Qed.

Lemma collect_price db cfg (price : PriceConfig) :
  cfg_price cfg = Some price →
  is_Some (price_min price) ∨ is_Some (price_max price) →
  filter_by_price db (price_min price) (price_max price) ∈ collect_filters db cfg.
Proof.
  intros Hprice Hbound. unfold collect_filters. rewrite Hprice.
  apply elem_of_app. left.
  destruct (price_min price), (price_max price); try by left.
  by destruct Hbound as [[? [=]]|[? [=]]].
Qed.

Lemma collect_ma db cfg (ma : MaConfig) :
  cfg_ma cfg = Some ma →
  filter_by_ma db (default 20%Z (ma_period ma)) (default "above" (ma_relation ma)) Close
    ∈ collect_filters db cfg.
Proof.
  intros Hma. unfold collect_filters. rewrite Hma.
  apply elem_of_app. right. apply elem_of_app. left. by left.
Qed.

Lemma collect_rsi db cfg (rsi : RsiConfig) :
  cfg_rsi cfg = Some rsi →
  is_Some (rsi_min rsi) ∨ is_Some (rsi_max rsi) →
  filter_by_rsi db (default 14%Z (rsi_period rsi)) (rsi_min rsi) (rsi_max rsi)
    ∈ collect_filters db cfg.
Proof.
  intros Hrsi Hbound. unfold collect_filters. rewrite Hrsi.
  do 2 (apply elem_of_app; right). apply elem_of_app. left.
  destruct (rsi_min rsi), (rsi_max rsi); try by left.
  by destruct Hbound as [[? [=]]|[? [=]]].
Qed.

Lemma collect_macd db cfg (macd : ConditionConfig) :
  cfg_macd cfg = Some macd →
  filter_by_macd db (default "golden_cross" (condition macd)) ∈ collect_filters db cfg.
Proof.
  intros Hmacd. unfold collect_filters. rewrite Hmacd.
  do 3 (apply elem_of_app; right). apply elem_of_app. left. by left.
Qed.

Lemma collect_kdj db cfg (kdj : ConditionConfig) :
  cfg_kdj cfg = Some kdj →
  filter_by_kdj db (default "golden_cross" (condition kdj)) ∈ collect_filters db cfg.
Proof.
  intros Hkdj. unfold collect_filters. rewrite Hkdj.
  do 4 (apply elem_of_app; right). apply elem_of_app. left. by left.
Qed.

Lemma collect_volume db cfg (volume : VolumeConfig) :
  cfg_volume cfg = Some volume →
  filter_by_volume db (default "increase" (volume_condition volume)) (volume_threshold volume)
    ∈ collect_filters db cfg.
Proof.
  intros Hvolume. unfold collect_filters. rewrite Hvolume.
  do 5 (apply elem_of_app; right). apply elem_of_app. left. by left.
Qed.

Lemma collect_bollinger db cfg (bollinger : ConditionConfig) :
  cfg_bollinger cfg = Some bollinger →
  filter_by_bollinger_bands db (default "upper_break" (condition bollinger))
    ∈ collect_filters db cfg.
Proof.
  intros Hbollinger. unfold collect_filters. rewrite Hbollinger.
  do 6 (apply elem_of_app; right). by left.
Qed.

(** Without any section nothing is selected. *)
Lemma apply_filters_without_sections db : apply_filters db empty_config = [].
Proof. done. Qed.

Lemma in_range_bounded (lowest highest x : option Qc) :
  is_Some lowest ∨ is_Some highest → in_range lowest highest x →
  ∃ v, x = Some v ∧ within lowest highest v.
Proof.
  unfold in_range. intros Hbound Hrange.
  destruct lowest, highest; try done. by destruct Hbound as [[? [=]]|[? [=]]].
Qed.

(** X11: under the logic "and" (the default), a symbol that [apply_filters]
    returns meets the ranges of the configuration.  With a price section
    that gives a bound, its close on the latest date of [daily_data] is a
    number within the price bounds; with an RSI section that gives a bound,
    the period is 6, 12 or 24 and its RSI on the latest date of
    [technical_indicators] is a number within the RSI bounds. *)
Theorem apply_filters_and_meets_the_ranges db cfg c :
  default "and" (cfg_logic cfg) = "and" →
  c ∈ apply_filters db cfg →
  (∀ price, cfg_price cfg = Some price →
     is_Some (price_min price) ∨ is_Some (price_max price) →
     ∃ d close, d ∈ daily_data db ∧ d_code d = c ∧
       max_date (d_date <$> daily_data db) = Some (d_date d) ∧
       d_close d = Some close ∧ within (price_min price) (price_max price) close) ∧
  (∀ rsi, cfg_rsi cfg = Some rsi →
     is_Some (rsi_min rsi) ∨ is_Some (rsi_max rsi) →
     ∃ column t value, rsi_column (default 14%Z (rsi_period rsi)) = Some column ∧
       t ∈ technical_indicators db ∧ t_code t = c ∧
       max_date (t_date <$> technical_indicators db) = Some (t_date t) ∧
       column t = Some value ∧ within (rsi_min rsi) (rsi_max rsi) value).
Proof.
  intros Hlogic Hc. split.
  - intros price Hprice Hbound.
    pose proof (apply_filters_and db cfg _ c Hlogic (collect_price db cfg price Hprice Hbound) Hc)
      as Hin.
    apply filter_by_price_in_range in Hin as (d & Hd & Hcode & Hdate & Hrange).
    apply in_range_bounded in Hrange as (close & Hclose & Hwithin); [|done].
    by exists d, close.
  - intros rsi Hrsi Hbound.
    pose proof (apply_filters_and db cfg _ c Hlogic (collect_rsi db cfg rsi Hrsi Hbound) Hc)
      as Hin.
    destruct (rsi_column (default 14%Z (rsi_period rsi))) as [column|] eqn:Hcol; cycle 1.
    { rewrite filter_by_rsi_no_column in Hin by done. by apply elem_of_nil in Hin. }
    destruct (filter_by_rsi_in_range db _ column _ _ c Hcol Hin)
      as (t & Ht & Hcode & Hdate & Hrange).
    apply in_range_bounded in Hrange as (value & Hvalue & Hwithin); [|done].
    by exists column, t, value.
Qed.

(** X12: under the logic "and", an RSI section that gives a bound and whose
    period is not 6, 12 or 24 empties the whole result, whatever the other
    sections select; a section without a period has the period 14, which
    is such a period. *)
Theorem apply_filters_and_unknown_rsi_period db cfg (rsi : RsiConfig) :
  default "and" (cfg_logic cfg) = "and" →
  cfg_rsi cfg = Some rsi →
  is_Some (rsi_min rsi) ∨ is_Some (rsi_max rsi) →
  default 14%Z (rsi_period rsi) ∉ [6; 12; 24]%Z →
  apply_filters db cfg = [].
Proof.
  intros Hlogic Hrsi Hbound Hperiod. apply apply_filters_and_nil; [done|].
  rewrite <-(filter_by_rsi_no_column db (default 14%Z (rsi_period rsi))
               (rsi_min rsi) (rsi_max rsi)); [by apply collect_rsi| |done].
  unfold rsi_column. rewrite !decide_False; [done|set_solver..].
Qed.

(** X13: under the logic "and", a configuration with a MACD, KDJ or
    Bollinger section selects nothing when [technical_indicators] holds
    fewer than two dates, and a configuration with a volume section selects
    nothing when [daily_data] holds fewer than two dates. *)
Theorem apply_filters_and_needs_two_dates db cfg :
  default "and" (cfg_logic cfg) = "and" →
  (distinct_dates (t_date <$> technical_indicators db) < 2 →
   is_Some (cfg_macd cfg) ∨ is_Some (cfg_kdj cfg) ∨ is_Some (cfg_bollinger cfg) →
   apply_filters db cfg = []) ∧
  (distinct_dates (d_date <$> daily_data db) < 2 →
   is_Some (cfg_volume cfg) →
   apply_filters db cfg = []).
Proof.
  intros Hlogic. split.
  - intros Hshort [[macd Hmacd]|[[kdj Hkdj]|[bollinger Hbollinger]]];
      apply apply_filters_and_nil; try done.
    + rewrite <-(filter_by_macd_short db (default "golden_cross" (condition macd))) by done.
      by apply collect_macd.
    + rewrite <-(filter_by_kdj_short db (default "golden_cross" (condition kdj))) by done.
      by apply collect_kdj.
    + rewrite <-(filter_by_bollinger_bands_short db
                   (default "upper_break" (condition bollinger))) by done.
      by apply collect_bollinger.
  - intros Hshort [volume Hvolume]. apply apply_filters_and_nil; [done|].
    rewrite <-(filter_by_volume_short db (default "increase" (volume_condition volume))
                 (volume_threshold volume)) by done.
    by apply collect_volume.
Qed.

Lemma apply_filters_and_meets_the_ranges_witness :
  "600000" ∈ apply_filters two_symbol_store price_floor_config ∧
  ∃ d close, d ∈ daily_data two_symbol_store ∧ d_code d = "600000" ∧
    max_date (d_date <$> daily_data two_symbol_store) = Some (d_date d) ∧
    d_close d = Some close ∧ within (Some (Qc_of_Z 10)) None close.
Proof.
  assert ("600000" ∈ apply_filters two_symbol_store price_floor_config) as Hin
    by (apply (bool_decide_unpack _); by vm_compute).
  split; [done|].
  destruct (apply_filters_and_meets_the_ranges two_symbol_store price_floor_config "600000")
    as [Hprice _]; [done..|].
  apply (Hprice {| price_min := Some (Qc_of_Z 10); price_max := None |}); [done|].
  left. by eexists.
Defined.

Lemma apply_filters_and_unknown_rsi_period_witness :
  filter_by_price two_symbol_store (Some (Qc_of_Z 10)) None = ["600000"; "600001"] ∧
  apply_filters two_symbol_store rsi_band_config = [].
Proof.
  split; [by vm_compute|].
  apply (apply_filters_and_unknown_rsi_period two_symbol_store rsi_band_config
           {| rsi_period := None; rsi_min := Some (Qc_of_Z 30); rsi_max := Some (Qc_of_Z 70) |});
    [done|done|left; by eexists|].
  apply (bool_decide_unpack _). by vm_compute.
Defined.

Lemma apply_filters_and_needs_two_dates_witness :
  apply_filters one_day_store macd_config = [].
Proof.
  destruct (apply_filters_and_needs_two_dates one_day_store macd_config) as [Hshort _];
    [done|].
  apply Hshort.
  - apply (bool_decide_unpack _). by vm_compute.
  - left. by eexists.
Defined.

End configurations.

(** ** The details of a result *)

Section details_of_a_result.

Variable max_variables : nat.

Implicit Types (db : Database) (stocks : list StockRow) (codes : list string) (r : DetailRow).

#[local] Arguments sql_and : simpl never.
#[local] Arguments sql_text_eq : simpl never.

#[local] Instance pct_change_ge_total : Total pct_change_ge.
Proof.
  intros a b. unfold pct_change_ge.
  destruct (r_pct_change a) as [x|], (r_pct_change b) as [y|]; auto.
  destruct (Qclt_le_dec x y); [right|left]; [by apply Qclt_le_weak|done].
Qed.

#[local] Instance pct_change_ge_trans : Transitive pct_change_ge.
Proof.
  intros a b c. unfold pct_change_ge.
  destruct (r_pct_change a) as [x|], (r_pct_change b) as [y|], (r_pct_change c) as [z|];
    try done.
  intros Hyx Hzy. by etrans.
Qed.

Lemma elem_of_details stocks db codes r :
  r ∈ get_filter_result_details max_variables stocks db codes →
  S (length codes) ≤ max_variables ∧
  ∃ s d t, s ∈ stocks ∧ d ∈ daily_data db ∧ t ∈ technical_indicators db ∧
    r = detail_row s d t ∧ s_code s ∈ codes ∧
    d_code d = s_code s ∧ t_code t = s_code s ∧ t_date t = d_date d ∧
    max_date (d_date <$> daily_data db) = Some (d_date d).
Proof.
  unfold get_filter_result_details.
  destruct codes as [|code rest]; [by intros ?%elem_of_nil|].
  cbv iota zeta. generalize (code :: rest). clear code rest. intros codes.
  destruct (decide (max_variables < S (length _))) as [Hmany|Hfew];
    [by intros ?%elem_of_nil|].
  rewrite merge_sort_Permutation.
  intros (s & (d & (t & Hr & Ht)%list_elem_of_bind & Hd)%list_elem_of_bind
            & Hs)%list_elem_of_bind.
  destruct (_ &&& _) as [[|]|] eqn:Hcond; try by apply elem_of_nil in Hr.
  apply list_elem_of_singleton in Hr as ->.
  rewrite !sql_and_true, !sql_text_eq_true in Hcond.
  destruct Hcond as [[[[Hsd Hdt] Hdate] Hin] Hlatest].
  injection Hin as Hin%bool_decide_eq_true.
  split; [lia|]. exists s, d, t. repeat (split; [done || congruence|]).
  by apply (on_latest_date_true (d_date <$> daily_data db)).
Qed.

(** X14: the details of a result hold exactly the rows that join a stock
    whose code is in the list asked for, its bar on the latest date of
    [daily_data] and the indicator row of that symbol and date; when the
    codes and the date are more parameters than one statement takes, there
    is no row at all.  The rows come in descending order of [pct_change],
    the rows without one (NULL) last. *)
Theorem details_rows stocks db codes :
  (∀ r, r ∈ get_filter_result_details max_variables stocks db codes ↔
     S (length codes) ≤ max_variables ∧
     ∃ s d t, s ∈ stocks ∧ d ∈ daily_data db ∧ t ∈ technical_indicators db ∧
       r = detail_row s d t ∧ s_code s ∈ codes ∧
       d_code d = s_code s ∧ t_code t = s_code s ∧ t_date t = d_date d ∧
       max_date (d_date <$> daily_data db) = Some (d_date d)) ∧
  StronglySorted pct_change_ge (get_filter_result_details max_variables stocks db codes).
Proof.
  split.
  - intros r. split; [apply elem_of_details|].
    intros (Hfew & s & d & t & Hs & Hd & Ht & -> & Hin & Hsd & Hst & Hdate & Hlatest).
    unfold get_filter_result_details.
    destruct codes as [|code rest]; [by apply elem_of_nil in Hin|].
    cbv iota zeta. revert Hfew Hin. generalize (code :: rest). clear code rest.
    intros codes Hfew Hin. rewrite decide_False by lia.
    rewrite merge_sort_Permutation.
    apply list_elem_of_bind. exists s. split; [|done].
    apply list_elem_of_bind. exists d. split; [|done].
    apply list_elem_of_bind. exists t. split; [|done].
    assert (sql_text_eq (s_code s) (d_code d) &&& sql_text_eq (d_code d) (t_code t)
            &&& sql_text_eq (d_date d) (t_date t)
            &&& Some (bool_decide (s_code s ∈ codes))
            &&& (max_date (d_date <$> daily_data db) ≫= λ latest, sql_text_eq (d_date d) latest)
            = Some true) as ->; [|by left].
    rewrite !sql_and_true, !sql_text_eq_true. repeat split; try congruence.
    + by rewrite bool_decide_eq_true_2.
    + by apply (on_latest_date_true (d_date <$> daily_data db)).
  - unfold get_filter_result_details.
    destruct codes; [constructor|]. case_decide; [constructor|].
    apply (StronglySorted_merge_sort _).
Qed.

End details_of_a_result.

(** The details of the two sample symbols: the rising one first; with room
    for two parameters only, the three of the query are refused. *)
Lemma details_of_the_sample :
  r_code <$> get_filter_result_details 999 two_symbol_stocks two_symbol_store
               ["600001"; "600000"] = ["600000"; "600001"] ∧
  get_filter_result_details 2 two_symbol_stocks two_symbol_store ["600001"; "600000"] = [].
Proof. split; by vm_compute. Qed.

(** ** Volume against its average *)

Section volume_against_its_average.

Implicit Types (db : Database).

Lemma py_int_fraction (q : Qc) : (0 < q)%Qc → (q < 1)%Qc → py_int (PyFloat q) = 0%Z.
Proof.
  unfold Qclt, Qlt. destruct q as [[num den] Hcanon]. simpl. intros Hpos Hone.
  apply Z.quot_small. lia.
Qed.

(** X15: with the conditions "above_ma" and "below_ma" a number of days
    strictly between 0 and 1 is truncated to 0: the window frame then
    starts at -1 PRECEDING, SQLite rejects the query and the result is
    empty. *)
Theorem filter_by_volume_fractional_days db (condition : string) (days : Qc) :
  condition = "above_ma" ∨ condition = "below_ma" →
  (0 < days)%Qc → (days < 1)%Qc →
  filter_by_volume db condition (Some (PyFloat days)) = [].
Proof.
  intros Hcondition Hpos Hone. unfold filter_by_volume.
  destruct (latest_two_dates _) as [|latest [|prev rest]]; [done..|].
  rewrite decide_False by (intros [?|?]; destruct Hcondition; congruence).
  rewrite decide_True by done.
  assert (py_le_zero (PyFloat days) = false) as ->.
  { simpl. apply bool_decide_eq_false. by apply Qclt_not_le. }
  by rewrite py_int_fraction.
Qed.

Lemma filter_by_volume_fractional_days_witness :
  filter_by_volume two_symbol_store "above_ma" (Some (PyFloat (1 / Qc_of_Z 2)%Qc)) = [].
Proof.
  apply (filter_by_volume_fractional_days two_symbol_store "above_ma" (1 / Qc_of_Z 2)%Qc);
    [by left|by vm_compute..].
Defined.

End volume_against_its_average.

(** ** What the conditions select *)

Section what_the_conditions_select.

Implicit Types (db : Database) (c : string).

#[local] Arguments sql_lt : simpl never.
#[local] Arguments sql_gt : simpl never.
#[local] Arguments sql_and : simpl never.
#[local] Arguments sql_text_eq : simpl never.

Lemma below_true (x y : option Qc) : sql_lt x y = Some true ↔ below x y.
Proof. apply sql_lt_true. Qed.

Lemma above_true (x y : option Qc) : sql_gt x y = Some true ↔ below y x.
Proof. apply sql_lt_true. Qed.

Lemma select_pairs_selects db (latest_date prev_date : string)
    (cond : IndicatorRow → IndicatorRow → option bool) c :
  c ∈ select_pairs db latest_date prev_date cond ↔
  ∃ today yesterday, indicators_on_both_dates db latest_date prev_date c today yesterday ∧
    cond today yesterday = Some true.
Proof.
  rewrite elem_of_select_pairs. unfold indicators_on_both_dates. split.
  - intros (t1 & t2 & ? & ? & ? & ? & ? & ? & ?). by exists t1, t2.
  - intros (t1 & t2 & (? & ? & ? & ? & ? & ?) & ?). by exists t1, t2.
Qed.

Lemma select_latest_selects db (latest_date : string) (cond : IndicatorRow → option bool) c :
  c ∈ select_latest db latest_date cond ↔
  ∃ today, indicators_on_latest_date db latest_date c today ∧ cond today = Some true.
Proof.
  rewrite elem_of_select_latest. unfold indicators_on_latest_date. split.
  - intros (t & ? & ? & ? & ?). by exists t.
  - intros (t & (? & ? & ?) & ?). by exists t.
Qed.

Lemma select_quads_selects db (latest_date prev_date : string)
    (cond : IndicatorRow → IndicatorRow → DailyRow → DailyRow → option bool) c :
  c ∈ select_quads db latest_date prev_date cond ↔
  ∃ today yesterday bar_today bar_yesterday,
    indicators_on_both_dates db latest_date prev_date c today yesterday ∧
    bars_on_both_dates db latest_date prev_date c bar_today bar_yesterday ∧
    cond today yesterday bar_today bar_yesterday = Some true.
Proof.
  unfold select_quads, indicators_on_both_dates, bars_on_both_dates.
  rewrite elem_of_remove_dups. split.
  - intros (t1 & (t2 & (d1 & (d2 & Hc & Hd2)%list_elem_of_bind & Hd1)%list_elem_of_bind
                 & Ht2)%list_elem_of_bind & Ht1)%list_elem_of_bind.
    apply elem_of_emit in Hc as [Hcond ->].
    rewrite !sql_and_true, !sql_text_eq_true in Hcond.
    destruct Hcond as [[[[[[[H12 H1d] H1date] H2d] H2date] Hlatest] Hprev] Hcond].
    exists t1, t2, d1, d2. repeat split; congruence.
  - intros (t1 & t2 & d1 & d2 & (Ht1 & Ht2 & <- & Hc2 & Hl & Hp)
              & (Hd1 & Hd2 & Hc1' & Hc2' & Hl' & Hp') & Hcond).
    apply list_elem_of_bind. exists t1. split; [|done].
    apply list_elem_of_bind. exists t2. split; [|done].
    apply list_elem_of_bind. exists d1. split; [|done].
    apply list_elem_of_bind. exists d2. split; [|done].
    apply elem_of_emit. split; [|done].
    rewrite !sql_and_true, !sql_text_eq_true. repeat split; congruence.
Qed.

(** Turns the WHERE clause of a crossing into its two comparisons. *)
Ltac comparisons :=
  repeat setoid_rewrite sql_and_true;
  repeat setoid_rewrite below_true; repeat setoid_rewrite above_true.

(** X16: on a store whose indicators span two dates or more, the MACD
    "golden_cross" selects exactly the symbols whose DIF was strictly below
    DEA on the previous date and is strictly above DEA on the latest date,
    "dead_cross" the symbols with the two comparisons reversed, "positive"
    the symbols whose DIF and HIST on the latest date are both strictly
    above 0, and "negative" those with both strictly below 0.  A NULL value
    never qualifies. *)
Theorem filter_by_macd_selects db (latest_date prev_date : string) c :
  latest_two_dates (t_date <$> technical_indicators db) = [latest_date; prev_date] →
  (c ∈ filter_by_macd db "golden_cross" ↔
   ∃ today yesterday, indicators_on_both_dates db latest_date prev_date c today yesterday ∧
     below (t_macd_dif yesterday) (t_macd_dea yesterday) ∧
     below (t_macd_dea today) (t_macd_dif today)) ∧
  (c ∈ filter_by_macd db "dead_cross" ↔
   ∃ today yesterday, indicators_on_both_dates db latest_date prev_date c today yesterday ∧
     below (t_macd_dea yesterday) (t_macd_dif yesterday) ∧
     below (t_macd_dif today) (t_macd_dea today)) ∧
  (c ∈ filter_by_macd db "positive" ↔
   ∃ today, indicators_on_latest_date db latest_date c today ∧
     below (Some 0%Qc) (t_macd_dif today) ∧ below (Some 0%Qc) (t_macd_hist today)) ∧
  (c ∈ filter_by_macd db "negative" ↔
   ∃ today, indicators_on_latest_date db latest_date c today ∧
     below (t_macd_dif today) (Some 0%Qc) ∧ below (t_macd_hist today) (Some 0%Qc)).
Proof.
  intros Hdates. unfold filter_by_macd. rewrite Hdates.
  repeat split; intros H; simpl in H |- *;
    (apply select_pairs_selects in H || apply select_latest_selects in H
     || apply select_pairs_selects || apply select_latest_selects);
    revert H; comparisons; done.
Qed.

(** X17: on a store whose indicators span two dates or more, the KDJ
    "golden_cross" selects exactly the symbols whose K was strictly below D
    on the previous date and is strictly above D on the latest date,
    "dead_cross" the symbols with the two comparisons reversed, "oversold"
    the symbols whose K and D on the latest date are both strictly below
    20, and "overbought" those with both strictly above 80. *)
Theorem filter_by_kdj_selects db (latest_date prev_date : string) c :
  latest_two_dates (t_date <$> technical_indicators db) = [latest_date; prev_date] →
  (c ∈ filter_by_kdj db "golden_cross" ↔
   ∃ today yesterday, indicators_on_both_dates db latest_date prev_date c today yesterday ∧
     below (t_k yesterday) (t_d yesterday) ∧ below (t_d today) (t_k today)) ∧
  (c ∈ filter_by_kdj db "dead_cross" ↔
   ∃ today yesterday, indicators_on_both_dates db latest_date prev_date c today yesterday ∧
     below (t_d yesterday) (t_k yesterday) ∧ below (t_k today) (t_d today)) ∧
  (c ∈ filter_by_kdj db "oversold" ↔
   ∃ today, indicators_on_latest_date db latest_date c today ∧
     below (t_k today) (Some (Qc_of_Z 20)) ∧ below (t_d today) (Some (Qc_of_Z 20))) ∧
  (c ∈ filter_by_kdj db "overbought" ↔
   ∃ today, indicators_on_latest_date db latest_date c today ∧
     below (Some (Qc_of_Z 80)) (t_k today) ∧ below (Some (Qc_of_Z 80)) (t_d today)).
Proof.
  intros Hdates. unfold filter_by_kdj. rewrite Hdates.
  repeat split; intros H; simpl in H |- *;
    (apply select_pairs_selects in H || apply select_latest_selects in H
     || apply select_pairs_selects || apply select_latest_selects);
    revert H; comparisons; done.
Qed.

(** X18: on a store whose indicators span two dates or more, each band
    crossing selects exactly the symbols that have an indicator row and a
    bar on both dates and whose close went strictly across the band:
    "upper_break" from below the upper band to above it, "lower_break" from
    above the lower band to below it, "middle_cross_above" and
    "middle_cross_below" across the middle band, upwards and downwards. *)
Theorem filter_by_bollinger_bands_selects db (latest_date prev_date : string) c :
  latest_two_dates (t_date <$> technical_indicators db) = [latest_date; prev_date] →
  (c ∈ filter_by_bollinger_bands db "upper_break" ↔
   ∃ today yesterday bar_today bar_yesterday,
     indicators_on_both_dates db latest_date prev_date c today yesterday ∧
     bars_on_both_dates db latest_date prev_date c bar_today bar_yesterday ∧
     below (d_close bar_yesterday) (t_bb_upper yesterday) ∧
     below (t_bb_upper today) (d_close bar_today)) ∧
  (c ∈ filter_by_bollinger_bands db "lower_break" ↔
   ∃ today yesterday bar_today bar_yesterday,
     indicators_on_both_dates db latest_date prev_date c today yesterday ∧
     bars_on_both_dates db latest_date prev_date c bar_today bar_yesterday ∧
     below (t_bb_lower yesterday) (d_close bar_yesterday) ∧
     below (d_close bar_today) (t_bb_lower today)) ∧
  (c ∈ filter_by_bollinger_bands db "middle_cross_above" ↔
   ∃ today yesterday bar_today bar_yesterday,
     indicators_on_both_dates db latest_date prev_date c today yesterday ∧
     bars_on_both_dates db latest_date prev_date c bar_today bar_yesterday ∧
     below (d_close bar_yesterday) (t_bb_middle yesterday) ∧
     below (t_bb_middle today) (d_close bar_today)) ∧
  (c ∈ filter_by_bollinger_bands db "middle_cross_below" ↔
   ∃ today yesterday bar_today bar_yesterday,
     indicators_on_both_dates db latest_date prev_date c today yesterday ∧
     bars_on_both_dates db latest_date prev_date c bar_today bar_yesterday ∧
     below (t_bb_middle yesterday) (d_close bar_yesterday) ∧
     below (d_close bar_today) (t_bb_middle today)).
Proof.
  intros Hdates. unfold filter_by_bollinger_bands. rewrite Hdates.
  repeat split; intros H; simpl in H |- *;
    (apply select_quads_selects in H || apply select_quads_selects);
    revert H; comparisons; done.
Qed.

End what_the_conditions_select.

Lemma filter_by_macd_selects_witness :
  ∃ today yesterday,
    indicators_on_both_dates two_symbol_store "2024-01-02" "2024-01-01" "600000"
      today yesterday ∧
    below (t_macd_dif yesterday) (t_macd_dea yesterday) ∧
    below (t_macd_dea today) (t_macd_dif today).
Proof.
  destruct (filter_by_macd_selects two_symbol_store "2024-01-02" "2024-01-01" "600000")
    as [Hgolden _]; [by vm_compute|].
  apply Hgolden. apply (bool_decide_unpack _). by vm_compute.
Defined.

Lemma filter_by_kdj_selects_witness :
  ∃ today yesterday,
    indicators_on_both_dates two_symbol_store "2024-01-02" "2024-01-01" "600000"
      today yesterday ∧
    below (t_k yesterday) (t_d yesterday) ∧ below (t_d today) (t_k today).
Proof.
  destruct (filter_by_kdj_selects two_symbol_store "2024-01-02" "2024-01-01" "600000")
    as [Hgolden _]; [by vm_compute|].
  apply Hgolden. apply (bool_decide_unpack _). by vm_compute.
Defined.

Lemma filter_by_bollinger_bands_selects_witness :
  ∃ today yesterday bar_today bar_yesterday,
    indicators_on_both_dates breakout_store "2024-01-02" "2024-01-01" "600000"
      today yesterday ∧
    bars_on_both_dates breakout_store "2024-01-02" "2024-01-01" "600000"
      bar_today bar_yesterday ∧
    below (d_close bar_yesterday) (t_bb_upper yesterday) ∧
    below (t_bb_upper today) (d_close bar_today).
Proof.
  destruct (filter_by_bollinger_bands_selects breakout_store "2024-01-02" "2024-01-01"
              "600000") as [Hbreak _]; [by vm_compute|].
  apply Hbreak. apply (bool_decide_unpack _). by vm_compute.
Defined.

(** * Further properties of the engine *)

(** ** The simple mean *)

Section moving_average.

Implicit Types (df : DataFrame) (s w : Series) (n : Z) (i k : nat) (closes : list Qc).

Lemma window_fmap {A B : Type} (f : A → B) k i (l : list A) :
  window k i (f <$> l) = f <$> window k i l.
Proof. unfold window. by rewrite fmap_drop, fmap_take. Qed.

Lemma foldl_fadd_finite closes (a : Qc) :
  foldl fadd (Fin a) (Fin <$> closes) = Fin (foldl Qcplus a closes).
Proof. revert a. induction closes as [|c closes IH]; intros a; [done|]. simpl. apply IH. Qed.

Lemma fsum_finite closes : fsum (Fin <$> closes) = Fin (Qc_sum closes).
Proof. apply foldl_fadd_finite. Qed.

Lemma observations_finite closes : observations (Fin <$> closes) = Fin <$> closes.
Proof. apply observations_all, Forall_fmap, Forall_true. done. Qed.

Lemma window_mean_finite k closes :
  0 < k → length closes = k →
  window_mean k (Fin <$> closes) = Fin (Qc_sum closes / Qc_of_Z (Z.of_nat k))%Qc.
Proof.
  intros Hk Hlen. unfold window_mean. rewrite observations_finite, length_fmap, Hlen.
  rewrite decide_True by lia. rewrite fsum_finite. unfold of_Z, fdiv.
  rewrite decide_False; [done|].
  intros Hzero. apply (Qclt_not_eq _ _ (Qc_of_nat_positive k Hk)). by rewrite Hzero.
Qed.

(** X19: on finite closes and for a period n >= 1, MA(n) has one value for
    each row; it is undefined (NaN) on the first n-1 rows and is, on every
    later row, the sum of the last n closes divided by n. *)
Theorem calculate_ma_is_the_mean df (column : string) closes n :
  (1 ≤ n)%Z →
  df !! column = Some (Fin <$> closes) →
  ∃ ma, calculate_ma df column [n] = Returned (<["MA" +:+ pretty n := ma]> df) ∧
    length ma = length closes ∧
    ∀ i, i < length closes →
      ma !! i = Some (if decide (Z.to_nat n ≤ S i)
                      then Fin (mean_of_last (Z.to_nat n) i closes) else NaN).
Proof.
  intros Hn Hcol. unfold calculate_ma. rewrite for_each_singleton.
  unfold get_column. rewrite Hcol. cbn [mbind outcome_bind].
  unfold rolling_mean, rolling. rewrite decide_False by lia.
  cbn [mbind outcome_bind mret outcome_ret].
  eexists. split; [done|]. split; [by rewrite length_imap, length_fmap|].
  intros i Hi. rewrite list_lookup_imap.
  destruct (lookup_lt_is_Some_2 (Fin <$> closes) i) as [x ->]; [by rewrite length_fmap|].
  cbn [fmap option_fmap option_map]. f_equal. rewrite window_fmap.
  case_decide as Hfull.
  - apply window_mean_finite; [lia|]. unfold window. rewrite length_drop, length_take. lia.
  - apply window_mean_short. rewrite length_fmap.
    unfold window. rewrite length_drop, length_take. lia.
Qed.

End moving_average.

Lemma calculate_ma_is_the_mean_witness :
  ∃ ma, calculate_ma rising_bars "close" [5%Z] = Returned (<["MA5" := ma]> rising_bars) ∧
    ma !! 3 = Some NaN ∧ ma !! 4 = Some (of_Z 12).
Proof.
  destruct (calculate_ma_is_the_mean rising_bars "close" rising_closes 5)
    as (ma & Hrun & Hlen & Hma); [lia|done|].
  exists ma. split; [exact Hrun|].
  split; (rewrite Hma by (apply (bool_decide_unpack _); by vm_compute)); by_evaluation.
Defined.

(** ** The range of the RSI *)

Section rsi_range.

Implicit Types (df : DataFrame) (s w : Series) (n : Z) (i k : nat) (x y : float).

Lemma nonneg_finite (q : Qc) : (0 ≤ q)%Qc → nonneg (Fin q).
Proof. intros Hq. right. right. by exists q. Qed.

Lemma clip_negative_nonneg s : Forall nonneg (clip_negative s).
Proof.
  unfold clip_negative. apply Forall_fmap, Forall_true. intros x.
  destruct x as [q| | |]; cbn [flt of_Z compose].
  - case_bool_decide as Hq.
    + by apply nonneg_finite.
    + by apply nonneg_finite, Qcnot_lt_le.
  - right. by left.
  - by apply nonneg_finite.
  - by left.
Qed.

Lemma fadd_nonneg x y :
  nonneg x → is_obs x = true → nonneg y → is_obs y = true →
  nonneg (fadd x y) ∧ is_obs (fadd x y) = true.
Proof.
  intros [->|[->|(a & -> & Ha)]] Hx [->|[->|(b & -> & Hb)]] Hy; try done;
    cbn [fadd is_obs]; (split; [|done]); try (right; by left).
  by apply nonneg_finite, Qcplus_nonneg_nonneg.
Qed.

Lemma fsum_nonneg w :
  Forall (λ x, nonneg x ∧ is_obs x = true) w → nonneg (fsum w) ∧ is_obs (fsum w) = true.
Proof.
  unfold fsum. assert (nonneg (Fin 0) ∧ is_obs (Fin 0) = true) as Hzero.
  { split; [|done]. by apply nonneg_finite. }
  revert Hzero. generalize (Fin 0). intros a Ha Hw. revert a Ha.
  induction Hw as [|x w [Hx Hobs] Hw IH]; intros a [Ha Haobs]; [done|].
  simpl. apply IH. by apply fadd_nonneg.
Qed.

Lemma fdiv_nonneg x y : nonneg x → nonneg y → nonneg (fdiv x y).
Proof.
  intros [->|[->|(a & -> & Ha)]] [->|[->|(b & -> & Hb)]]; cbn [fdiv]; try by left.
  - rewrite decide_False by by apply Qcle_not_lt. right. by left.
  - by apply nonneg_finite.
  - case_decide as Hzero.
    + unfold signed_inf. case_decide; [right; by left|].
      rewrite decide_False by by apply Qcle_not_lt. by left.
    + apply nonneg_finite. unfold Qcdiv. apply Qcmult_nonneg_nonneg; [done|].
      apply Qclt_le_weak, Qcinv_pos.
      destruct (Qcle_lt_or_eq _ _ Hb) as [?|?]; [done|congruence].
Qed.

Lemma window_mean_nonneg k w : Forall nonneg w → nonneg (window_mean k w).
Proof.
  intros Hw. unfold window_mean. case_decide as Hlen; [|by left].
  apply fdiv_nonneg.
  - apply fsum_nonneg. unfold observations. apply Forall_forall.
    intros x [Hobs Hx]%list_elem_of_filter. split; [|done]. by eapply Forall_forall in Hw.
  - apply nonneg_finite, Qclt_le_weak, Qc_of_nat_positive. lia.
Qed.

Lemma Forall_window_of (P : float → Prop) k i s : Forall P s → Forall P (window k i s).
Proof. intros Hs. unfold window. by apply Forall_drop, Forall_take. Qed.

Lemma rsi_of_rs_percentage x : nonneg x → percentage (rsi_of_rs x).
Proof.
  intros [->|[->|(r & -> & Hr)]].
  - rewrite rsi_of_rs_nan. by left.
  - rewrite rsi_of_rs_inf. right. exists (Qc_of_Z 100). by split.
  - unfold rsi_of_rs, of_Z, fsub. cbn [fadd]. rewrite Z2Qc_inj_1.
    assert (0 < 1 + r)%Qc as Hpos by (by apply Qcplus_pos_nonneg).
    assert (1 + r ≠ 0)%Qc as Hne by (intros Hzero; by rewrite Hzero in Hpos).
    cbn [fdiv]. rewrite decide_False by done.
    cbn [fneg fadd]. right. eexists. split; [done|].
    assert (0 ≤ / (1 + r))%Qc as Hinv by (by apply Qclt_le_weak, Qcinv_pos).
    assert (/ (1 + r) ≤ 1)%Qc as Hone.
    { apply (Qcmult_le_mono_pos_r _ _ (1 + r)%Qc); [done|].
      rewrite Qcmult_inv_l, Qcmult_1_l by done.
      rewrite <-(Qcplus_0_r 1) at 1. by apply Qcplus_le_mono_l. }
    assert (0 ≤ Qc_of_Z 100)%Qc as Hhundred by done.
    unfold Qcdiv. split.
    + apply (proj1 (Qcle_minus_iff _ _)). rewrite <-(Qcmult_1_r (Qc_of_Z 100)) at 2.
      by apply Qcmult_le_mono_nonneg_l.
    + apply (proj2 (Qcle_minus_iff _ _)).
      replace (Qc_of_Z 100 + - (Qc_of_Z 100 + - (Qc_of_Z 100 * / (1 + r))))%Qc
        with (Qc_of_Z 100 * / (1 + r))%Qc by ring.
      by apply Qcmult_nonneg_nonneg.
Qed.

(** X20: for every input series and every period n >= 0, the RSI column
    has one value for each row, and each value is undefined (NaN) or lies
    between 0 and 100. *)
Theorem calculate_rsi_stays_in_range df (column : string) s n :
  (0 ≤ n)%Z →
  df !! column = Some s →
  ∃ rsi, calculate_rsi df column [n] = Returned (<["RSI" +:+ pretty n := rsi]> df) ∧
    length rsi = length s ∧ Forall percentage rsi.
Proof.
  intros Hn Hcol. unfold calculate_rsi, get_column. rewrite Hcol.
  cbn [mbind outcome_bind]. rewrite for_each_singleton.
  unfold rolling_mean, rolling. rewrite !decide_False by lia.
  cbn [mbind outcome_bind mret outcome_ret].
  eexists. split; [done|]. split.
  - rewrite length_fmap, length_zip_with, !length_imap, !length_clip_negative, length_fmap,
      length_diff. lia.
  - apply Forall_fmap, Forall_forall. intros rs Hrs. cbn [compose].
    apply rsi_of_rs_percentage.
    apply list_elem_of_lookup in Hrs as [i Hrs].
    apply lookup_zip_with_Some in Hrs as (up & down & -> & Hup & Hdown).
    rewrite list_lookup_imap in Hup. rewrite list_lookup_imap in Hdown.
    destruct (clip_negative (diff s) !! i); [|done].
    destruct (clip_negative (fneg <$> diff s) !! i); [|done].
    injection Hup as <-. injection Hdown as <-.
    apply fdiv_nonneg; apply window_mean_nonneg, Forall_window_of, clip_negative_nonneg.
Qed.

End rsi_range.

Lemma calculate_rsi_stays_in_range_witness :
  ∃ rsi, calculate_rsi rising_bars "close" [6%Z] = Returned (<["RSI6" := rsi]> rising_bars) ∧
    length rsi = length (Fin <$> rising_closes) ∧ Forall percentage rsi.
Proof.
  apply (calculate_rsi_stays_in_range rising_bars "close" (Fin <$> rising_closes) 6);
    [lia|done].
Defined.

(** ** The lines of the MACD *)

Section macd_lines.

Implicit Types (df : DataFrame) (closes : list Qc).

Lemma zip_with_finite (f : float → float → float) (g : Qc → Qc → Qc) (l k : list Qc) :
  (∀ a b, f (Fin a) (Fin b) = Fin (g a b)) →
  zip_with f (Fin <$> l) (Fin <$> k) = Fin <$> zip_with g l k.
Proof.
  intros Hfg. revert k. induction l as [|a l IH]; intros [|b k]; try done.
  cbn [fmap list_fmap zip_with]. by rewrite Hfg, <-IH.
Qed.

Lemma fmap_zip_with {A B C D : Type} (g : C → D) (f : A → B → C) (l : list A) (k : list B) :
  g <$> zip_with f l k = zip_with (λ a b, g (f a b)) l k.
Proof. revert k. induction l as [|a l IH]; intros [|b k]; try done. simpl. by rewrite <-IH. Qed.

Lemma ema_reference_zero (n : Z) closes : ema_reference n closes !! 0 = closes !! 0.
Proof. by destruct closes. Qed.

(** X21: on finite closes and for periods >= 1, [calculate_macd] writes the
    lines of the formulas: DIF = EMA(fast) - EMA(slow), DEA = EMA(signal)
    of DIF and HIST = 2 * (DIF - DEA), with the EMA of the recurrence; each
    line has one value for each row, and on the first row all three are 0. *)
Theorem calculate_macd_is_the_reference df (column : string) closes (fast slow signal : Z) :
  (1 ≤ fast)%Z → (1 ≤ slow)%Z → (1 ≤ signal)%Z →
  df !! column = Some (Fin <$> closes) →
  calculate_macd df column fast slow signal
  = Returned (<["MACD_HIST" := Fin <$> macd_hist_reference fast slow signal closes]>
             (<["MACD_DEA" := Fin <$> macd_dea_reference fast slow signal closes]>
             (<["MACD_DIF" := Fin <$> macd_dif_reference fast slow closes]> df))) ∧
  length (macd_dif_reference fast slow closes) = length closes ∧
  length (macd_dea_reference fast slow signal closes) = length closes ∧
  length (macd_hist_reference fast slow signal closes) = length closes ∧
  (closes ≠ [] →
   macd_dif_reference fast slow closes !! 0 = Some 0%Qc ∧
   macd_dea_reference fast slow signal closes !! 0 = Some 0%Qc ∧
   macd_hist_reference fast slow signal closes !! 0 = Some 0%Qc).
Proof.
  intros Hfast Hslow Hsignal Hcol.
  assert (length (macd_dif_reference fast slow closes) = length closes) as Hdif.
  { unfold macd_dif_reference. rewrite length_zip_with, !length_ema_reference. lia. }
  assert (length (macd_dea_reference fast slow signal closes) = length closes) as Hdea.
  { unfold macd_dea_reference. by rewrite length_ema_reference. }
  split; [|split; [done|split; [done|split]]].
  - unfold calculate_macd, get_column. rewrite Hcol. cbn [mbind outcome_bind].
    unfold ewm_span. rewrite !decide_False by lia. cbn [mbind outcome_bind mret outcome_ret].
    fold (smoothing_factor fast) (smoothing_factor slow) (smoothing_factor signal).
    rewrite !ewm_mean_finite.
    rewrite (zip_with_finite fsub Qcminus) by done.
    fold (macd_dif_reference fast slow closes). rewrite ewm_mean_finite.
    fold (macd_dea_reference fast slow signal closes).
    rewrite decide_False by lia. cbn [mbind outcome_bind mret outcome_ret].
    rewrite (zip_with_finite fsub Qcminus) by done.
    rewrite <-list_fmap_compose.
    unfold macd_hist_reference.
    replace (zip_with (λ dif dea, Qc_of_Z 2 * (dif - dea))%Qc
               (macd_dif_reference fast slow closes)
               (macd_dea_reference fast slow signal closes))
      with (Qcmult (Qc_of_Z 2) <$> zip_with Qcminus (macd_dif_reference fast slow closes)
                                     (macd_dea_reference fast slow signal closes)).
    + by rewrite <-list_fmap_compose.
    + by rewrite fmap_zip_with.
  - unfold macd_hist_reference. rewrite length_zip_with. lia.
  - intros Hne. destruct closes as [|seed closes]; [done|].
    unfold macd_hist_reference, macd_dea_reference, macd_dif_reference.
    cbn [ema_reference zip_with lookup list_lookup].
    replace (seed - seed)%Qc with 0%Qc by ring.
    split; [done|]. split; [done|]. apply (f_equal Some). ring.
Qed.

End macd_lines.

Lemma calculate_macd_is_the_reference_witness :
  calculate_macd rising_bars "close" 12 26 9
  = Returned (<["MACD_HIST" := Fin <$> macd_hist_reference 12 26 9 rising_closes]>
             (<["MACD_DEA" := Fin <$> macd_dea_reference 12 26 9 rising_closes]>
             (<["MACD_DIF" := Fin <$> macd_dif_reference 12 26 rising_closes]> rising_bars))) ∧
  macd_dif_reference 12 26 rising_closes !! 0 = Some 0%Qc.
Proof.
  destruct (calculate_macd_is_the_reference rising_bars "close" rising_closes 12 26 9)
    as (Hrun & _ & _ & _ & Hzero); [lia..|done|].
  split; [exact Hrun|]. by apply Hzero.
Defined.

(** ** The on-balance volume *)

Section on_balance_volume.

Implicit Types (df : DataFrame) (prices volumes : list Qc).

Lemma obv_steps_finite (obv previous : Qc) prices volumes :
  cumsum_from (Fin obv)
    (zip_with (λ pp v, obv_step pp.1 pp.2 v)
       (zip (Fin <$> prices) (Fin previous :: (Fin <$> prices))) (Fin <$> volumes))
  = Fin <$> obv_reference_from obv previous (zip prices volumes).
Proof.
  revert obv previous volumes.
  induction prices as [|price prices IH]; intros obv previous [|volume volumes]; try done.
  cbn [fmap list_fmap zip zip_with cumsum_from obv_reference_from fst snd].
  assert (fadd (Fin obv) (obv_step (Fin price) (Fin previous) (Fin volume))
          = Fin (if decide (previous < price)%Qc then (obv + volume)%Qc
                 else if decide (price < previous)%Qc then (obv - volume)%Qc else obv)) as ->.
  { unfold obv_step, fgt. cbn [flt].
    case_bool_decide; [by rewrite decide_True|rewrite decide_False by done].
    case_bool_decide; [by rewrite decide_True|rewrite decide_False by done].
    unfold of_Z. cbn [fadd]. f_equal. rewrite Z2Qc_inj_0. ring. }
  f_equal. apply IH.
Qed.

Lemma obv_finite prices volumes :
  cumsum (zip_with (λ pp v, obv_step pp.1 pp.2 v)
            (zip (Fin <$> prices) (shift (Fin <$> prices))) (Fin <$> volumes))
  = Fin <$> obv_reference (zip prices volumes).
Proof.
  unfold shift, cumsum. destruct prices as [|price prices]; [done|].
  destruct volumes as [|volume volumes]; [done|].
  cbn [fmap list_fmap length take zip zip_with cumsum_from obv_reference fst snd].
  assert (fadd (Fin 0) (obv_step (Fin price) NaN (Fin volume)) = Fin 0) as ->.
  { unfold obv_step, fgt, of_Z. cbn [flt fadd]. apply (f_equal Fin). rewrite Z2Qc_inj_0. ring. }
  f_equal.
  rewrite <-(obv_steps_finite 0 price prices volumes). f_equal.
  f_equal. apply zip_with_take_r.
Qed.

Lemma calculate_volume_indicators_obv_column df (volume_column price_column : string)
    (price volume : Series) :
  df !! price_column = Some price →
  df !! volume_column = Some volume →
  price_column ∉ ["Volume_MA5"; "Volume_MA10"; "Volume_Change"] →
  volume_column ∉ ["Volume_MA5"; "Volume_MA10"; "Volume_Change"] →
  ∃ result, calculate_volume_indicators df volume_column price_column = Returned result ∧
    result !! "OBV"
    = Some (cumsum (zip_with (λ pp v, obv_step pp.1 pp.2 v) (zip price (shift price)) volume)).
Proof.
  intros Hprice Hvolume Hpc Hvc.
  assert (price_column ≠ "Volume_MA5" ∧ price_column ≠ "Volume_MA10"
          ∧ price_column ≠ "Volume_Change") as (? & ? & ?) by set_solver.
  assert (volume_column ≠ "Volume_MA5" ∧ volume_column ≠ "Volume_MA10"
          ∧ volume_column ≠ "Volume_Change") as (? & ? & ?) by set_solver.
  unfold calculate_volume_indicators, get_column, rolling_mean, rolling.
  repeat first
    [ rewrite Hvolume | rewrite Hprice | rewrite lookup_insert_ne by done
    | rewrite decide_False by lia | progress cbn [mbind outcome_bind mret outcome_ret] ].
  eexists. split; [done|]. by rewrite lookup_insert_eq.
Qed.

(** X22: on finite prices and volumes, the OBV column is the running
    total that starts at 0 on the first row, adds the volume of a row whose
    price is above the price of the row before, takes off the volume of a
    row whose price is below it, and stays where it is on an equal price. *)
Theorem calculate_volume_indicators_obv df (volume_column price_column : string)
    prices volumes :
  df !! price_column = Some (Fin <$> prices) →
  df !! volume_column = Some (Fin <$> volumes) →
  length prices = length volumes →
  price_column ∉ ["Volume_MA5"; "Volume_MA10"; "Volume_Change"] →
  volume_column ∉ ["Volume_MA5"; "Volume_MA10"; "Volume_Change"] →
  ∃ result, calculate_volume_indicators df volume_column price_column = Returned result ∧
    result !! "OBV" = Some (Fin <$> obv_reference (zip prices volumes)).
Proof.
  intros Hprice Hvolume _ Hpc Hvc.
  destruct (calculate_volume_indicators_obv_column df volume_column price_column
              (Fin <$> prices) (Fin <$> volumes)) as (result & Hrun & Hobv); [done..|].
  exists result. split; [done|]. by rewrite Hobv, obv_finite.
Qed.

End on_balance_volume.

Lemma calculate_volume_indicators_obv_witness :
  ∃ result, calculate_volume_indicators complete_bars "volume" "close" = Returned result ∧
    result !! "OBV" = Some [of_Z 0; of_Z 1500; of_Z 300].
Proof.
  destruct (calculate_volume_indicators_obv complete_bars "volume" "close"
              sample_closes sample_volumes) as (result & Hrun & Hobv);
    [done|done|done|apply (bool_decide_unpack _); by vm_compute..|].
  exists result. split; [exact Hrun|]. rewrite Hobv. by_evaluation.
Defined.

(** ** The seven stages in a row *)

Section the_whole_engine.

Variable sqrt : Qc → Qc.

Implicit Types (df : DataFrame) (s : Series) (n : Z).

Lemma rolling_rolled (agg : nat → Series → float) n s :
  (0 ≤ n)%Z → rolling agg n s = Returned (rolled agg n s).
Proof. intros Hn. unfold rolling. by rewrite decide_False by lia. Qed.

Lemma length_rolled (agg : nat → Series → float) n s : length (rolled agg n s) = length s.
Proof. apply length_imap. Qed.

Lemma length_ewm_loop (alpha : Qc) (weighted : float) (old_wt : Qc) s :
  length (ewm_loop alpha weighted old_wt s) = length s.
Proof.
  revert weighted old_wt. induction s as [|x s IH]; intros weighted old_wt; [done|].
  cbn [ewm_loop]. destruct (is_obs weighted), (is_obs x), (fne weighted x);
    cbn [length]; by rewrite IH.
Qed.

Lemma length_ewm_mean (alpha : Qc) s : length (ewm_mean alpha s) = length s.
Proof. destruct s; [done|]. cbn [ewm_mean length]. by rewrite length_ewm_loop. Qed.

Lemma length_cumsum s : length (cumsum s) = length s.
Proof.
  unfold cumsum. generalize (Fin 0%Qc). induction s as [|x s IH]; intros acc; [done|].
  cbn [cumsum_from length]. by rewrite IH.
Qed.

Lemma length_pct_change s : length (pct_change s) = length s.
Proof.
  assert (∀ last, length (ffill_from last s) = length s) as Hfill.
  { induction s as [|x s IH]; intros last; [done|]. cbn [ffill_from length]. by rewrite IH. }
  unfold pct_change. rewrite length_fmap, length_zip_with, length_shift, Hfill. lia.
Qed.

(** The names of the columns of a period. *)
Ltac column_names :=
  repeat match goal with
  | |- context [?prefix +:+ pretty ?period] =>
      let name := eval vm_compute in (prefix +:+ pretty period) in
      change (prefix +:+ pretty period) with name
  end.

(** Runs a stage on a frame whose input columns are known. *)
Ltac run_stage :=
  cbn [for_each]; column_names;
  repeat first
    [ match goal with H : _ !! _ = Some _ |- _ => rewrite H end
    | rewrite lookup_insert_ne by done
    | rewrite rolling_rolled by lia
    | rewrite decide_False by lia
    | rewrite decide_True by (split; by vm_compute)
    | progress cbn [mbind outcome_bind mret outcome_ret] ].

(** The lengths of the columns of a stage. *)
Ltac lengths :=
  repeat first
    [ rewrite length_rolled | rewrite length_ewm_mean | rewrite length_fmap
    | rewrite length_zip_with | rewrite length_cumsum | rewrite length_pct_change
    | rewrite length_clip_negative | rewrite length_diff | rewrite length_shift
    | rewrite length_zip ];
  repeat split; lia.

Lemma calculate_ma_stage s :
  ∃ ma5 ma10 ma20 ma60,
    (length ma5 = length s ∧ length ma10 = length s ∧ length ma20 = length s
     ∧ length ma60 = length s) ∧
    ∀ df, df !! "close" = Some s →
      calculate_ma df "close" [5; 10; 20; 60]%Z
      = Returned (<["MA60" := ma60]> (<["MA20" := ma20]> (<["MA10" := ma10]>
                 (<["MA5" := ma5]> df)))).
Proof.
  do 4 eexists. split; cycle 1.
  - intros df Hclose. unfold calculate_ma, get_column, rolling_mean. run_stage. reflexivity.
  - lengths.
Qed.

Lemma calculate_ema_stage s :
  ∃ ema5 ema10 ema20 ema60,
    (length ema5 = length s ∧ length ema10 = length s ∧ length ema20 = length s
     ∧ length ema60 = length s) ∧
    ∀ df, df !! "close" = Some s →
      calculate_ema df "close" [5; 10; 20; 60]%Z
      = Returned (<["EMA60" := ema60]> (<["EMA20" := ema20]> (<["EMA10" := ema10]>
                 (<["EMA5" := ema5]> df)))).
Proof.
  do 4 eexists. split; cycle 1.
  - intros df Hclose. unfold calculate_ema, get_column, ewm_span. run_stage. reflexivity.
  - lengths.
Qed.

Lemma calculate_macd_stage s :
  ∃ dif dea hist,
    (length dif = length s ∧ length dea = length s ∧ length hist = length s) ∧
    ∀ df, df !! "close" = Some s →
      calculate_macd df "close" 12 26 9
      = Returned (<["MACD_HIST" := hist]> (<["MACD_DEA" := dea]> (<["MACD_DIF" := dif]> df))).
Proof.
  do 3 eexists. split; cycle 1.
  - intros df Hclose. unfold calculate_macd, get_column, ewm_span. run_stage. reflexivity.
  - lengths.
Qed.

Lemma calculate_rsi_stage s :
  ∃ rsi6 rsi12 rsi24,
    (length rsi6 = length s ∧ length rsi12 = length s ∧ length rsi24 = length s) ∧
    ∀ df, df !! "close" = Some s →
      calculate_rsi df "close" [6; 12; 24]%Z
      = Returned (<["RSI24" := rsi24]> (<["RSI12" := rsi12]> (<["RSI6" := rsi6]> df))).
Proof.
  do 3 eexists. split; cycle 1.
  - intros df Hclose. unfold calculate_rsi, get_column, rolling_mean. run_stage. reflexivity.
  - lengths.
Qed.

Lemma calculate_kdj_stage (high low close : Series) :
  length high = length close → length low = length close →
  ∃ low_n high_n rsv k d j,
    (length k = length close ∧ length d = length close ∧ length j = length close) ∧
    ∀ df, df !! "high" = Some high → df !! "low" = Some low → df !! "close" = Some close →
      calculate_kdj df "high" "low" "close" 9 3 3
      = Returned (delete "RSV" (delete "high_n" (delete "low_n"
                 (<["J" := j]> (<["D" := d]> (<["K" := k]> (<["RSV" := rsv]>
                 (<["high_n" := high_n]> (<["low_n" := low_n]> df))))))))).
Proof.
  intros Hhigh Hlow. do 6 eexists. split; cycle 1.
  - intros df ? ? ?.
    unfold calculate_kdj, get_column, rolling_min, rolling_max, ewm_alpha. run_stage.
    reflexivity.
  - lengths.
Qed.

Lemma calculate_bollinger_bands_stage s :
  ∃ bb_ma bb_std upper lower width,
    (length bb_ma = length s ∧ length bb_std = length s ∧ length upper = length s
     ∧ length lower = length s ∧ length width = length s) ∧
    ∀ df, df !! "close" = Some s →
      calculate_bollinger_bands sqrt df "close" 20 (of_Z 2)
      = Returned (<["BB_Width" := width]> (<["BB_Lower" := lower]> (<["BB_Upper" := upper]>
                 (<["BB_STD" := bb_std]> (<["BB_MA" := bb_ma]> df))))).
Proof.
  do 5 eexists. split; cycle 1.
  - intros df Hclose.
    unfold calculate_bollinger_bands, get_column, rolling_mean, rolling_std. run_stage.
    reflexivity.
  - lengths.
Qed.

Lemma calculate_volume_indicators_stage (close volume : Series) :
  length volume = length close →
  ∃ ma5 ma10 change obv,
    (length ma5 = length close ∧ length ma10 = length close ∧ length change = length close
     ∧ length obv = length close) ∧
    ∀ df, df !! "close" = Some close → df !! "volume" = Some volume →
      calculate_volume_indicators df "volume" "close"
      = Returned (<["OBV" := obv]> (<["Volume_Change" := change]>
                 (<["Volume_MA10" := ma10]> (<["Volume_MA5" := ma5]> df)))).
Proof.
  intros Hvolume. do 4 eexists. split; cycle 1.
  - intros df ? ?. unfold calculate_volume_indicators, get_column, rolling_mean. run_stage.
    reflexivity.
  - lengths.
Qed.

Lemma first_missing_complete (cols : list string) df :
  (∀ c, c ∈ cols → is_Some (df !! c)) → first_missing cols df = None.
Proof.
  induction cols as [|col cols IH]; intros Hall; [done|].
  cbn [first_missing]. destruct (Hall col) as [s ->]; [by left|].
  apply IH. intros c Hc. apply Hall. by right.
Qed.

(** Two names of columns that differ. *)
Ltac other_column := first [discriminate | assumption | apply not_eq_sym; assumption].

(** Looks a column up in a frame that is given by its updates: the updates
    of other columns are passed over, down to the update of the column. *)
Ltac skip_columns :=
  repeat (etrans; [first [apply lookup_insert_ne | apply lookup_delete_ne]; other_column|]).

Ltac lookup_column :=
  skip_columns; first [apply lookup_insert_eq | apply lookup_delete_eq | done].

(** Runs the seven stages of the engine on a frame with the five inputs;
    the columns that the stages add appear as variables. *)
Ltac run_engine high low close volume :=
  unfold calculate_all_indicators;
  rewrite first_missing_complete
    by (intros ? ?; repeat (match goal with
                            | H : _ ∈ _ |- _ => apply elem_of_cons in H as [->|H]
                            end; [by eexists|]);
        match goal with H : _ ∈ [] |- _ => by apply elem_of_nil in H end);
  destruct (calculate_ma_stage close) as (ma5 & ma10 & ma20 & ma60 & Hlen & Hma);
  destruct Hlen as (? & ? & ? & ?);
  rewrite Hma by done; cbn [mbind outcome_bind];
  destruct (calculate_ema_stage close) as (ema5 & ema10 & ema20 & ema60 & Hlen & Hema);
  destruct Hlen as (? & ? & ? & ?);
  rewrite Hema by lookup_column; cbn [mbind outcome_bind];
  destruct (calculate_macd_stage close) as (dif & dea & hist & Hlen & Hmacd);
  destruct Hlen as (? & ? & ?);
  rewrite Hmacd by lookup_column; cbn [mbind outcome_bind];
  destruct (calculate_rsi_stage close) as (rsi6 & rsi12 & rsi24 & Hlen & Hrsi);
  destruct Hlen as (? & ? & ?);
  rewrite Hrsi by lookup_column; cbn [mbind outcome_bind];
  destruct (calculate_kdj_stage high low close)
    as (low_n & high_n & rsv & k & d & j & Hlen & Hkdj); [lia..|];
  destruct Hlen as (? & ? & ?);
  rewrite Hkdj by lookup_column; cbn [mbind outcome_bind];
  destruct (calculate_bollinger_bands_stage close)
    as (bb_ma & bb_std & upper & lower & width & Hlen & Hbands);
  destruct Hlen as (? & ? & ? & ? & ?);
  rewrite Hbands by lookup_column; cbn [mbind outcome_bind];
  destruct (calculate_volume_indicators_stage close volume)
    as (vma5 & vma10 & change & obv & Hlen & Hvolumes); [lia|];
  destruct Hlen as (? & ? & ? & ?);
  rewrite Hvolumes by lookup_column.

(** X23: on a frame that has the five input columns, each with one value
    for each row, [calculate_all_indicators] returns (it raises nothing);
    the result has each of the 26 indicator columns, with one value for
    each row, has none of the columns low_n, high_n and RSV (even when the
    input had one), and leaves every other column as it was. *)
Theorem calculate_all_indicators_on_complete_bars df (rows : nat) :
  (∀ c, c ∈ required_columns → ∃ s, df !! c = Some s ∧ length s = rows) →
  ∃ result, calculate_all_indicators sqrt df = Returned result ∧
    (∀ c, c ∈ indicator_columns → ∃ s, result !! c = Some s ∧ length s = rows) ∧
    (∀ c, c ∈ scratch_columns → result !! c = None) ∧
    (∀ c, c ∉ indicator_columns → c ∉ scratch_columns → result !! c = df !! c).
Proof.
  intros Hinputs.
  destruct (Hinputs "open") as (open & Hopen & ?); [set_solver|].
  destruct (Hinputs "high") as (high & Hhigh & ?); [set_solver|].
  destruct (Hinputs "low") as (low & Hlow & ?); [set_solver|].
  destruct (Hinputs "close") as (close & Hclose & ?); [set_solver|].
  destruct (Hinputs "volume") as (volume & Hvolume & ?); [set_solver|].
  clear Hinputs.
  run_engine high low close volume.
  eexists. split; [done|]. split; [|split].
  - intros c Hc. unfold indicator_columns in Hc.
    repeat (apply elem_of_cons in Hc as [->|Hc];
            [eexists; split; [lookup_column|lia]|]).
    by apply elem_of_nil in Hc.
  - intros c Hc. unfold scratch_columns in Hc.
    repeat (apply elem_of_cons in Hc as [->|Hc]; [lookup_column|]).
    by apply elem_of_nil in Hc.
  - intros c Hc Hscratch. unfold indicator_columns in Hc. unfold scratch_columns in Hscratch.
    repeat (apply not_elem_of_cons in Hc as [? Hc]).
    repeat (apply not_elem_of_cons in Hscratch as [? Hscratch]).
    lookup_column.
Qed.

(** One of the columns of a stage, in the output and in the stage alone. *)
Ltac same_column :=
  let c := fresh "c" in let Hc := fresh "Hc" in
  intros c Hc;
  repeat (apply elem_of_cons in Hc as [->|Hc];
          [etrans; [lookup_column|]; symmetry; lookup_column|]);
  by apply elem_of_nil in Hc.

(** X24: on a frame that has the five input columns, each with one value
    for each row, the seven stages do not interfere: each indicator column
    of the result of [calculate_all_indicators] is the column that its
    stage computes when it runs alone on the input, with the parameters
    the engine gives it. *)
Theorem stages_do_not_interfere df (rows : nat) :
  (∀ c, c ∈ required_columns → ∃ s, df !! c = Some s ∧ length s = rows) →
  ∃ result ma ema macd rsi kdj bands volumes,
    calculate_all_indicators sqrt df = Returned result ∧
    calculate_ma df "close" [5; 10; 20; 60]%Z = Returned ma ∧
    calculate_ema df "close" [5; 10; 20; 60]%Z = Returned ema ∧
    calculate_macd df "close" 12 26 9 = Returned macd ∧
    calculate_rsi df "close" [6; 12; 24]%Z = Returned rsi ∧
    calculate_kdj df "high" "low" "close" 9 3 3 = Returned kdj ∧
    calculate_bollinger_bands sqrt df "close" 20 (of_Z 2) = Returned bands ∧
    calculate_volume_indicators df "volume" "close" = Returned volumes ∧
    (∀ c, c ∈ ["MA5"; "MA10"; "MA20"; "MA60"] → result !! c = ma !! c) ∧
    (∀ c, c ∈ ["EMA5"; "EMA10"; "EMA20"; "EMA60"] → result !! c = ema !! c) ∧
    (∀ c, c ∈ ["MACD_DIF"; "MACD_DEA"; "MACD_HIST"] → result !! c = macd !! c) ∧
    (∀ c, c ∈ ["RSI6"; "RSI12"; "RSI24"] → result !! c = rsi !! c) ∧
    (∀ c, c ∈ ["K"; "D"; "J"] → result !! c = kdj !! c) ∧
    (∀ c, c ∈ ["BB_MA"; "BB_STD"; "BB_Upper"; "BB_Lower"; "BB_Width"] →
       result !! c = bands !! c) ∧
    (∀ c, c ∈ ["Volume_MA5"; "Volume_MA10"; "Volume_Change"; "OBV"] →
       result !! c = volumes !! c).
Proof.
  intros Hinputs.
  destruct (Hinputs "open") as (open & Hopen & ?); [set_solver|].
  destruct (Hinputs "high") as (high & Hhigh & ?); [set_solver|].
  destruct (Hinputs "low") as (low & Hlow & ?); [set_solver|].
  destruct (Hinputs "close") as (close & Hclose & ?); [set_solver|].
  destruct (Hinputs "volume") as (volume & Hvolume & ?); [set_solver|].
  clear Hinputs.
  run_engine high low close volume.
  do 8 eexists.
  do 8 (split; [by first [ reflexivity | apply Hma | apply Hema | apply Hmacd | apply Hrsi
                         | apply Hkdj | apply Hbands | apply Hvolumes ]|]).
  repeat split; same_column.
Qed.

(** On the three complete bars of the sample the engine adds every
    indicator column; the OBV is 0, +1500, +300. *)
Lemma calculate_all_indicators_complete :
  ∃ df', calculate_all_indicators sqrt complete_bars = Returned df' ∧
         dom df' = output_columns ∧
         df' !! "OBV" = Some [of_Z 0; of_Z 1500; of_Z 300].
Proof.
  pose proof (eq_refl : complete_bars !! "open" = Some [of_Z 10; of_Z 11; of_Z 12]) as Hopen.
  pose proof (eq_refl : complete_bars !! "high" = Some (Fin <$> sample_highs)) as Hhigh.
  pose proof (eq_refl : complete_bars !! "low" = Some (Fin <$> sample_lows)) as Hlow.
  pose proof (eq_refl : complete_bars !! "close" = Some (Fin <$> sample_closes)) as Hclose.
  pose proof (eq_refl : complete_bars !! "volume" = Some (Fin <$> sample_volumes)) as Hvolume.
  pose proof (eq_refl : length (Fin <$> sample_highs) = 3).
  pose proof (eq_refl : length (Fin <$> sample_lows) = 3).
  pose proof (eq_refl : length (Fin <$> sample_closes) = 3).
  pose proof (eq_refl : length (Fin <$> sample_volumes) = 3).
  run_engine (Fin <$> sample_highs) (Fin <$> sample_lows) (Fin <$> sample_closes)
             (Fin <$> sample_volumes).
  eexists. split; [done|]. split.
  - apply (bool_decide_unpack _). by vm_compute.
  - rewrite lookup_insert_eq. f_equal.
    destruct (calculate_volume_indicators_obv_column complete_bars "volume" "close"
                (Fin <$> sample_closes) (Fin <$> sample_volumes))
      as (result & Hrun & Hobv); [done|done|by_evaluation..|].
    rewrite Hvolumes in Hrun by done. injection Hrun as <-.
    rewrite lookup_insert_eq in Hobv. injection Hobv as ->. by_evaluation.
Qed.

End the_whole_engine.

Lemma complete_bars_are_complete :
  ∀ c, c ∈ required_columns → ∃ s, complete_bars !! c = Some s ∧ length s = 3.
Proof.
  intros c Hc. unfold required_columns in Hc.
  repeat (apply elem_of_cons in Hc as [->|Hc]; [by eexists|]).
  by apply elem_of_nil in Hc.
Qed.

Lemma calculate_all_indicators_on_complete_bars_witness :
  ∃ result, calculate_all_indicators (λ q, q) complete_bars = Returned result ∧
    (∀ c, c ∈ indicator_columns → ∃ s, result !! c = Some s ∧ length s = 3) ∧
    (∀ c, c ∈ scratch_columns → result !! c = None) ∧
    (∀ c, c ∉ indicator_columns → c ∉ scratch_columns → result !! c = complete_bars !! c).
Proof.
  apply (calculate_all_indicators_on_complete_bars (λ q, q) complete_bars 3).
  apply complete_bars_are_complete.
Defined.

Lemma stages_do_not_interfere_witness :
  ∃ result macd,
    calculate_all_indicators (λ q, q) complete_bars = Returned result ∧
    calculate_macd complete_bars "close" 12 26 9 = Returned macd ∧
    result !! "MACD_DIF" = macd !! "MACD_DIF".
Proof.
  destruct (stages_do_not_interfere (λ q, q) complete_bars 3 complete_bars_are_complete)
    as (result & ma & ema & macd & rsi & kdj & bands & volumes & Hrun & _ & _ & Hmacd & _ & _
        & _ & _ & _ & _ & Hsame & _).
  exists result, macd. split; [exact Hrun|]. split; [exact Hmacd|].
  apply Hsame. by left.
Defined.

(** ** What the stages raise *)

Section errors_of_the_stages.

Variable sqrt : Qc → Qc.

Implicit Types (df : DataFrame) (column : string).

(** The smoothing factor [1/m] of a period [m] of at least 1 is one that
    pandas accepts. *)
Lemma smoothing_valid (m : Z) :
  (1 ≤ m)%Z → (0 < 1 / Qc_of_Z m)%Qc ∧ (1 / Qc_of_Z m ≤ 1)%Qc.
Proof.
  intros Hm.
  assert (0 < Qc_of_Z m)%Qc as Hpos by (apply (proj1 (Z2Qc_inj_lt 0 m)); lia).
  assert (1 ≤ Qc_of_Z m)%Qc as Hone.
  { rewrite <-Z2Qc_inj_1. apply (proj1 (Z2Qc_inj_le 1 m)). lia. }
  assert (Qc_of_Z m ≠ 0)%Qc as Hne by (intros Hzero; by rewrite Hzero in Hpos).
  unfold Qcdiv. rewrite Qcmult_1_l. split; [by apply Qcinv_pos|].
  apply (Qcmult_le_mono_pos_r _ _ (Qc_of_Z m)); [done|].
  by rewrite Qcmult_inv_l, Qcmult_1_l.
Qed.

(** X26: a stage that is handed a column name that the frame lacks raises
    KeyError with that name, where [calculate_all_indicators] would hand
    the frame back: the moving averages as soon as they have a period to
    compute, the RSI even without any period, the KDJ for its low column,
    the volume indicators for their volume column; without periods the
    moving averages return the frame as it is. *)
Theorem stages_raise_on_a_missing_column df column :
  df !! column = None →
  (∀ period periods, calculate_ma df column (period :: periods) = Raised (KeyError column)) ∧
  (∀ period periods, calculate_ema df column (period :: periods) = Raised (KeyError column)) ∧
  (∀ fast slow signal, calculate_macd df column fast slow signal = Raised (KeyError column)) ∧
  (∀ periods, calculate_rsi df column periods = Raised (KeyError column)) ∧
  (∀ high close n m1 m2,
     calculate_kdj df high column close n m1 m2 = Raised (KeyError column)) ∧
  (∀ window num_std,
     calculate_bollinger_bands sqrt df column window num_std = Raised (KeyError column)) ∧
  (∀ price, calculate_volume_indicators df column price = Raised (KeyError column)) ∧
  calculate_ma df column [] = Returned df ∧
  calculate_ema df column [] = Returned df.
Proof.
  intros Hmissing.
  unfold calculate_ma, calculate_ema, calculate_macd, calculate_rsi, calculate_kdj,
    calculate_bollinger_bands, calculate_volume_indicators, get_column.
  repeat split; intros; cbn [for_each]; by rewrite ?Hmissing.
Qed.

(** X27: on a frame with the high, low and close columns and for n >= 0,
    [calculate_kdj] raises ZeroDivisionError when m1 is 0, and also when m1
    is at least 1 and m2 is 0. *)
Theorem calculate_kdj_zero_smoothing df (high low close : Series) (n m1 m2 : Z) :
  df !! "high" = Some high → df !! "low" = Some low → df !! "close" = Some close →
  (0 ≤ n)%Z →
  (m1 = 0%Z → calculate_kdj df "high" "low" "close" n m1 m2 = Raised ZeroDivisionError) ∧
  ((1 ≤ m1)%Z → m2 = 0%Z →
   calculate_kdj df "high" "low" "close" n m1 m2 = Raised ZeroDivisionError).
Proof.
  intros Hhigh Hlow Hclose Hn.
  unfold calculate_kdj, get_column, rolling_min, rolling_max, rolling, ewm_alpha.
  split.
  - intros ->.
    repeat first
      [ rewrite Hlow | rewrite Hhigh | rewrite Hclose | rewrite lookup_insert_ne by done
      | rewrite (decide_False (P := (n < 0)%Z)) by lia
      | progress cbn [mbind outcome_bind mret outcome_ret] ].
    done.
  - intros Hm1 ->. destruct (smoothing_valid m1 Hm1) as [? ?].
    repeat first
      [ rewrite Hlow | rewrite Hhigh | rewrite Hclose | rewrite lookup_insert_ne by done
      | rewrite (decide_False (P := (n < 0)%Z)) by lia
      | rewrite (decide_False (P := (m1 = 0)%Z)) by lia
      | rewrite (decide_True (P := (0 < 1 / Qc_of_Z m1 ∧ 1 / Qc_of_Z m1 ≤ 1)%Qc)) by done
      | progress cbn [mbind outcome_bind mret outcome_ret] ].
    done.
Qed.

End errors_of_the_stages.

Lemma stages_raise_on_a_missing_column_witness :
  calculate_volume_indicators bars_without_volume "volume" "close"
    = Raised (KeyError "volume") ∧
  calculate_ma bars_without_volume "volume" [5%Z] = Raised (KeyError "volume").
Proof.
  destruct (stages_raise_on_a_missing_column (λ q, q) bars_without_volume "volume")
    as (Hma & _ & _ & _ & _ & _ & Hvolume & _); [done|].
  split; [apply Hvolume|apply Hma].
Defined.

Lemma calculate_kdj_zero_smoothing_witness :
  calculate_kdj complete_bars "high" "low" "close" 9 0 3 = Raised ZeroDivisionError.
Proof.
  destruct (calculate_kdj_zero_smoothing complete_bars (Fin <$> sample_highs)
              (Fin <$> sample_lows) (Fin <$> sample_closes) 9 0 3) as [Hzero _];
    [done|done|done|lia|].
  by apply Hzero.
Defined.
